(** * Site_Crawl: the sitemap-first URL scanner (scanner.py)

    A shallow embedding of the crawl-and-match engine of [scanner.py] and
    the properties its specification states about it.

    Conventions of the embedding.
    - A Python [str] is a [string]; a character stands for its code point,
      so the strings of the model are the Python strings whose code
      points are below 256.  [bytes] values are [string]s as well.
    - A Python [set] of strings is a [gset string], a [dict] keyed by strings
      a [gmap string _]; a Python [list] is a [list].
    - A call that may raise returns an [option]; [None] is the exception.
    - Functions of the Python standard library and of third-party packages
      are modelled after their sources (CPython 3.11) where they are plain
      string processing, and collected as fields of the class [PyLib]
      where they rest on large tables or on native code. *)

From Stdlib Require Import String Ascii ZArith Lia Bool Relations Wellfounded.
From stdpp Require Import gmap strings list sorting.
From Equations Require Import Equations.
From Equations.Prop Require Logic.

Local Open Scope Z_scope.
Local Open Scope nat_scope.

(** ** Python string primitives *)

Module Str.

Definition code (c : ascii) : nat := nat_of_ascii c.

Definition is_upper_ascii (c : ascii) : bool :=
  (65 <=? code c) && (code c <=? 90).
Definition is_lower_ascii (c : ascii) : bool :=
  (97 <=? code c) && (code c <=? 122).
Definition is_alpha_ascii (c : ascii) : bool :=
  is_upper_ascii c || is_lower_ascii c.
Definition is_digit (c : ascii) : bool :=
  (48 <=? code c) && (code c <=? 57).
Definition isascii_char (c : ascii) : bool := code c <? 128.

(** [str.lower] on one character: A-Z, and the Latin-1 capitals
    U+00C0-U+00DE except the multiplication sign U+00D7. *)
Definition lower_char (c : ascii) : ascii :=
  let n := code c in
  if is_upper_ascii c then ascii_of_nat (n + 32)
  else if (192 <=? n) && (n <=? 222) && negb (n =? 215)
       then ascii_of_nat (n + 32)
       else c.

(** [c.isspace()]: the code points below 256 that Python counts as
    whitespace. *)
Definition isspace (c : ascii) : bool :=
  let n := code c in
  ((9 <=? n) && (n <=? 13)) || ((28 <=? n) && (n <=? 32))
  || (n =? 133) || (n =? 160).

Fixpoint map (f : ascii -> ascii) (s : string) : string :=
  match s with
  | EmptyString => EmptyString
  | String c s' => String (f c) (map f s')
  end.

Definition lower (s : string) : string := map lower_char s.

Fixpoint forallb (f : ascii -> bool) (s : string) : bool :=
  match s with
  | EmptyString => true
  | String c s' => f c && forallb f s'
  end.

Fixpoint filter (f : ascii -> bool) (s : string) : string :=
  match s with
  | EmptyString => EmptyString
  | String c s' => if f c then String c (filter f s') else filter f s'
  end.

Definition isascii (s : string) : bool := forallb isascii_char s.

(** [c in chars] for a character [c]. *)
Fixpoint mem (c : ascii) (chars : string) : bool :=
  match chars with
  | EmptyString => false
  | String d r => Ascii.eqb c d || mem c r
  end.

(** [s.startswith(p)]. *)
Fixpoint startswith (s p : string) : bool :=
  match p, s with
  | EmptyString, _ => true
  | String a p', String b s' => Ascii.eqb a b && startswith s' p'
  | String _ _, EmptyString => false
  end.

(** [s.endswith(p)]: some suffix of [s] is [p]. *)
Fixpoint endswith (s p : string) : bool :=
  String.eqb s p ||
  match s with
  | EmptyString => false
  | String _ s' => endswith s' p
  end.

(** [p in s] for strings. *)
Fixpoint contains (p s : string) : bool :=
  startswith s p ||
  match s with
  | EmptyString => false
  | String _ s' => contains p s'
  end.

(** [s.lstrip(chars)] with the character set given as a predicate. *)
Fixpoint lstrip_by (f : ascii -> bool) (s : string) : string :=
  match s with
  | EmptyString => EmptyString
  | String c s' => if f c then lstrip_by f s' else s
  end.

Fixpoint rstrip_by (f : ascii -> bool) (s : string) : string :=
  match s with
  | EmptyString => EmptyString
  | String c s' =>
      match rstrip_by f s' with
      | EmptyString => if f c then EmptyString else String c EmptyString
      | r => String c r
      end
  end.

Definition strip_by (f : ascii -> bool) (s : string) : string :=
  rstrip_by f (lstrip_by f s).

(** [s.strip()]. *)
Definition strip (s : string) : string := strip_by isspace s.

(** The longest prefix of [s] without a character of [f], and the rest. *)
Fixpoint break (f : ascii -> bool) (s : string) : string * string :=
  match s with
  | EmptyString => (EmptyString, EmptyString)
  | String c s' =>
      if f c then (EmptyString, s)
      else let '(a, b) := break f s' in (String c a, b)
  end.

(** [s.split(c, 1)] when [c] occurs in [s]: the text before the first
    [c] and the text after it. *)
Fixpoint split_once (c : ascii) (s : string) : option (string * string) :=
  match s with
  | EmptyString => None
  | String a s' =>
      if Ascii.eqb a c then Some (EmptyString, s')
      else match split_once c s' with
           | Some (l, r) => Some (String a l, r)
           | None => None
           end
  end.

(** The same at the last occurrence of [c] ([s.rfind(c)]). *)
Fixpoint rsplit_once (c : ascii) (s : string) : option (string * string) :=
  match s with
  | EmptyString => None
  | String a s' =>
      match rsplit_once c s' with
      | Some (l, r) => Some (String a l, r)
      | None => if Ascii.eqb a c then Some (EmptyString, s') else None
      end
  end.

(** [s.split(c)]. *)
Fixpoint split (c : ascii) (s : string) : list string :=
  match s with
  | EmptyString => [EmptyString]
  | String a s' =>
      match split c s' with
      | [] => [EmptyString]
      | w :: ws => if Ascii.eqb a c then EmptyString :: w :: ws
                   else String a w :: ws
      end
  end.

(** [sep.join(parts)]. *)
Fixpoint join (sep : string) (parts : list string) : string :=
  match parts with
  | [] => EmptyString
  | [w] => w
  | w :: ws => w +:+ sep +:+ join sep ws
  end.

(** [s[n:]]. *)
Fixpoint drop (n : nat) (s : string) : string :=
  match n, s with
  | O, _ => s
  | S n', String _ s' => drop n' s'
  | S _, EmptyString => EmptyString
  end.

(** [s[:n]]. *)
Fixpoint take (n : nat) (s : string) : string :=
  match n, s with
  | S n', String c s' => String c (take n' s')
  | _, _ => EmptyString
  end.

(** [s.replace(old, new, 1)]: the first occurrence only.  With an empty
    [old] Python inserts [new] in front. *)
Fixpoint replace_first (old new s : string) : string :=
  if startswith s old then new +:+ drop (String.length old) s
  else match s with
       | EmptyString => EmptyString
       | String c s' => String c (replace_first old new s')
       end.

(** [text.splitlines()]: the line boundaries among the code points below
    256 are \n, \r, \r\n, \v, \f, \x1c, \x1d, \x1e and \x85; a final
    boundary does not open an empty last line. *)
Definition is_linebreak (c : ascii) : bool :=
  let n := code c in
  ((10 <=? n) && (n <=? 13)) || ((28 <=? n) && (n <=? 30)) || (n =? 133).

Fixpoint splitlines (s : string) : list string :=
  match s with
  | EmptyString => []
  | String c s' =>
      if is_linebreak c then
        match s' with
        | String d s'' =>
            if (code c =? 13) && (code d =? 10)
            then EmptyString :: splitlines s''
            else EmptyString :: splitlines s'
        | EmptyString => [EmptyString]
        end
      else match splitlines s' with
           | [] => [String c EmptyString]
           | l :: ls => String c l :: ls
           end
  end.

End Str.

(** ** Library hooks *)

(** An element of an [xml.etree.ElementTree] document: its tag (with the
    namespace in braces in front, as ElementTree keeps it), its text and
    its children in document order. *)
#[warnings="-register-all"]
Inductive Element : Type :=
| Elem (tag : string) (text : option string) (children : list Element).

Definition tag (e : Element) : string := let 'Elem t _ _ := e in t.
Definition text (e : Element) : option string := let 'Elem _ t _ := e in t.
Definition children (e : Element) : list Element := let 'Elem _ _ c := e in c.

(** What [gzip.decompress] does on a body. *)
Inductive gzip_result : Type :=
| Inflated (raw : string)   (* the decompressed bytes *)
| GzipOSError               (* BadGzipFile: suppressed by fetch_text_bytes *)
| GzipOtherError.           (* EOFError, zlib.error: caught by its except *)

(** The parts of the Python libraries that the scanner calls and that are
    table-driven or native.  Each field is the library function named in
    its comment, restricted to the case the comment gives. *)
Class PyLib : Type := {
  (* html: [_charref.sub(_replace_charref, s)], reached when '&' in s *)
  charref_sub : string -> string;
  (* urllib.parse.unquote on a string that contains '%' *)
  unquote_escapes : string -> string;
  (* urllib.parse._check_bracketed_netloc returns (does not raise) *)
  check_bracketed_netloc : string -> bool;
  (* urllib.parse._checknetloc returns on a netloc that is not ASCII *)
  checknetloc_nfkc : string -> bool;
  (* ET.fromstring; None is ET.ParseError *)
  ET_fromstring : string -> option Element;
  (* raw.decode("utf-8", errors="ignore") *)
  decode_utf8_ignore : string -> string;
  (* gzip.decompress *)
  gzip_decompress : string -> gzip_result;
  (* the href values of soup.find_all("a", href=True), in document order *)
  soup_anchor_hrefs : string -> list string
}.

(** ** urllib.parse and html *)

Module Urllib.
Section WithLib.
Context `{PyLib}.

Record ParseResult : Type := MkParseResult {
scheme : string; netloc : string; path : string;
params : string; query : string; fragment : string
}.

Definition uses_relative : list string :=
[""; "ftp"; "http"; "gopher"; "nntp"; "imap"; "wais"; "file"; "https";
 "shttp"; "mms"; "prospero"; "rtsp"; "rtspu"; "sftp"; "svn"; "svn+ssh";
 "ws"; "wss"].
Definition uses_netloc : list string :=
[""; "ftp"; "http"; "gopher"; "nntp"; "telnet"; "imap"; "wais"; "file";
 "mms"; "https"; "shttp"; "snews"; "prospero"; "rtsp"; "rtspu"; "rsync";
 "svn"; "svn+ssh"; "sftp"; "nfs"; "git"; "git+ssh"; "ws"; "wss"].
Definition uses_params : list string :=
[""; "ftp"; "hdl"; "prospero"; "http"; "imap"; "https"; "shttp"; "rtsp";
 "rtspu"; "sip"; "sips"; "mms"; "sftp"; "tel"].
Definition scheme_chars : string :=
"abcdefghijklmnopqrstuvwxyzABCDEFGHIJKLMNOPQRSTUVWXYZ0123456789+-.".

Definition in_list (s : string) (l : list string) : bool :=
bool_decide (s ∈ l).
Definition nonempty (s : string) : bool :=
match s with EmptyString => false | String _ _ => true end.

(** _WHATWG_C0_CONTROL_OR_SPACE and _UNSAFE_URL_BYTES_TO_REMOVE. *)
Definition is_c0_or_space (c : ascii) : bool := Str.code c <=? 32.
Definition is_unsafe_byte (c : ascii) : bool :=
Str.mem c (String "009" (String "013" (String "010" EmptyString))).
Definition remove_unsafe (s : string) : string :=
Str.filter (fun c => negb (is_unsafe_byte c)) s.

(** The scheme test of [urlsplit]: [i = url.find(':')], [i > 0], an
  ASCII letter first and scheme characters up to the colon. *)
Definition split_scheme (url default : string) : string * string :=
match Str.split_once ":" url with
| Some (String c pre, rest) =>
    if Str.isascii_char c && Str.is_alpha_ascii c
       && Str.forallb (fun d => Str.mem d scheme_chars) (String c pre)
    then (Str.lower (String c pre), rest)
    else (default, url)
| _ => (default, url)
end.

(** [_splitnetloc(url, 2)]. *)
Definition splitnetloc (url : string) : string * string :=
Str.break (fun c => Str.mem c "/?#") (Str.drop 2 url).

(** The two bracket tests of [urlsplit] and [_checknetloc]. *)
Definition netloc_accepted (nl : string) : bool :=
let o := Str.mem "[" nl in
let c := Str.mem "]" nl in
negb (xorb o c)
&& (negb (o && c) || check_bracketed_netloc nl)
&& (negb (nonempty nl) || Str.isascii nl || checknetloc_nfkc nl).

(** [urlsplit(url, scheme)] followed by the parameter split of
  [urlparse]. *)
Definition splitparams (url : string) : string * string :=
match Str.rsplit_once "/" url with
| Some (dir, last) =>
    match Str.split_once ";" last with
    | Some (a, b) => (dir +:+ "/" +:+ a, b)
    | None => (url, "")
    end
| None =>
    match Str.split_once ";" url with
    | Some (a, b) => (a, b)
    | None => (Str.take (String.length url - 1) url, url)
    end
end.

Definition urlparse_with (url default_scheme : string) : option ParseResult :=
let url := Str.lstrip_by is_c0_or_space url in
let default_scheme := Str.strip_by is_c0_or_space default_scheme in
let url := remove_unsafe url in
let default_scheme := remove_unsafe default_scheme in
let '(sch, url) := split_scheme url default_scheme in
let '(nl, url) :=
  if Str.startswith url "//" then splitnetloc url else ("", url) in
let '(url, frag) :=
  match Str.split_once "#" url with
  | Some (a, b) => (a, b)
  | None => (url, "")
  end in
let '(url, q) :=
  match Str.split_once "?" url with
  | Some (a, b) => (a, b)
  | None => (url, "")
  end in
if netloc_accepted nl then
  let '(url, prm) :=
    if in_list sch uses_params && Str.mem ";" url
    then splitparams url else (url, "") in
  Some (MkParseResult sch nl url prm q frag)
else None.

Definition urlparse (url : string) : option ParseResult :=
urlparse_with url "".

Definition urlunsplit (sch nl url q frag : string) : string :=
let url :=
  if nonempty nl
     || (nonempty sch && in_list sch uses_netloc
         && negb (String.eqb (Str.take 2 url) "//"))
  then "//" +:+ nl +:+
       (if nonempty url && negb (String.eqb (Str.take 1 url) "/")
        then "/" +:+ url else url)
  else url in
let url := if nonempty sch then sch +:+ ":" +:+ url else url in
let url := if nonempty q then url +:+ "?" +:+ q else url in
if nonempty frag then url +:+ "#" +:+ frag else url.

Definition urlunparse (sch nl url prm q frag : string) : string :=
let url := if nonempty prm then url +:+ ";" +:+ prm else url in
urlunsplit sch nl url q frag.

(** [urldefrag(url)[0]]. *)
Definition urldefrag (url : string) : option string :=
if Str.mem "#" url then
  match urlparse url with
  | Some p => Some (urlunparse (scheme p) (netloc p) (path p)
                               (params p) (query p) "")
  | None => None
  end
else Some url.

(** The path resolution of [urljoin]. *)
Definition drop_last (l : list string) : list string := removelast l.
Definition last_seg (l : list string) : string := List.last l "".

Definition base_parts (bpath : string) : list string :=
let parts := Str.split "/" bpath in
if nonempty (last_seg parts) then drop_last parts else parts.

(** [segments[1:-1] = filter(None, segments[1:-1])]. *)
Definition filter_middle (segs : list string) : list string :=
match segs with
| x :: (_ :: _) as rest =>
    x :: List.filter nonempty (drop_last rest) ++ [last_seg rest]
| _ => segs
end.

Definition resolve_step (resolved : list string) (seg : string)
: list string :=
if String.eqb seg ".." then drop_last resolved
else if String.eqb seg "." then resolved
else resolved ++ [seg].

Definition resolve_path (segments : list string) : string :=
let resolved := fold_left resolve_step segments [] in
let resolved :=
  if in_list (last_seg segments) ["."; ".."]
  then resolved ++ [""] else resolved in
let joined := Str.join "/" resolved in
if nonempty joined then joined else "/".

Definition urljoin (base url : string) : option string :=
if negb (nonempty base) then Some url
else if negb (nonempty url) then Some base
else
  match urlparse_with base "" with
  | None => None
  | Some b =>
      match urlparse_with url (scheme b) with
      | None => None
      | Some u =>
          if negb (String.eqb (scheme u) (scheme b))
             || negb (in_list (scheme u) uses_relative)
          then Some url
          else if in_list (scheme u) uses_netloc && nonempty (netloc u)
          then Some (urlunparse (scheme u) (netloc u) (path u)
                                (params u) (query u) (fragment u))
          else
            let nl := if in_list (scheme u) uses_netloc
                      then netloc b else netloc u in
            if negb (nonempty (path u)) && negb (nonempty (params u))
            then Some (urlunparse (scheme u) nl (path b) (params b)
                         (if nonempty (query u) then query u
                          else query b)
                         (fragment u))
            else
              let segments :=
                if String.eqb (Str.take 1 (path u)) "/"
                then Str.split "/" (path u)
                else filter_middle
                       (base_parts (path b) ++ Str.split "/" (path u)) in
              Some (urlunparse (scheme u) nl (resolve_path segments)
                               (params u) (query u) (fragment u))
      end
  end.

(** [urllib.parse.unquote]. *)
Definition unquote (s : string) : string :=
if Str.mem "%" s then unquote_escapes s else s.

(** [parse_qsl(qs)] with its defaults: blank values are dropped. *)
Definition plus_to_space (s : string) : string :=
Str.map (fun c => if Ascii.eqb c "+" then " "%char else c) s.

Definition parse_qsl (qs : string) : list (string * string) :=
if nonempty qs then
  omap (fun name_value =>
          match Str.split_once "=" name_value with
          | Some (n, v) =>
              if nonempty v
              then Some (unquote (plus_to_space n),
                         unquote (plus_to_space v))
              else None
          | None => None
          end)
       (Str.split "&" qs)
else [].

(** The keys of [parse_qs(qs)]. *)
Definition parse_qs_keys (qs : string) : list string :=
(parse_qsl qs).*1.

(** [urllib.parse.quote(s, safe=...)]: UTF-8, then every byte outside
  the always-safe set and [safe] as %XX. *)
Definition always_safe : string :=
"ABCDEFGHIJKLMNOPQRSTUVWXYZabcdefghijklmnopqrstuvwxyz0123456789_.-~".

Definition utf8_encode_char (c : ascii) : list ascii :=
let n := Str.code c in
if n <? 128 then [c]
else [ascii_of_nat (192 + n / 64); ascii_of_nat (128 + n mod 64)].

Fixpoint utf8_encode (s : string) : list ascii :=
match s with
| EmptyString => []
| String c s' => utf8_encode_char c ++ utf8_encode s'
end.

Definition hex_digit (n : nat) : ascii :=
if n <? 10 then ascii_of_nat (48 + n) else ascii_of_nat (55 + n).

Definition quoter (safe : string) (b : ascii) : string :=
if Str.isascii_char b && (Str.mem b always_safe || Str.mem b safe)
then String b EmptyString
else String "%" (String (hex_digit (Str.code b / 16))
                   (String (hex_digit (Str.code b mod 16)) EmptyString)).

Definition quote (safe : string) (s : string) : string :=
fold_right (fun b acc => quoter safe b +:+ acc) EmptyString
           (utf8_encode s).

(** [html.unescape]. *)
Definition html_unescape (s : string) : string :=
if Str.mem "&" s then charref_sub s else s.

End WithLib.
End Urllib.

(** ** scanner.py: configuration and helpers *)

Definition SCHEMES : list string := ["https"].
Definition MAX_MATCH_PAGES_PER_QUERY : nat := 100.
Definition SITEMAP_CAP : nat := 5000.
Definition USER_AGENT : string := "URL-Scanner/1.0 (+contact: your@email.com)".
Definition BINARY_EXTS : list string :=
  [".jpg"; ".jpeg"; ".png"; ".gif"; ".webp"; ".svg"; ".pdf"; ".zip"; ".rar";
   ".7z"; ".mp4"; ".mp3"; ".mov"; ".avi"; ".mkv"; ".woff"; ".woff2"; ".ttf";
   ".eot"; ".otf"; ".ico"].

Section Helpers.
Context `{PyLib}.
Import Urllib.

(** [host == d or host.endswith("." + d)]. *)
Definition host_in_domain (host d : string) : bool :=
  String.eqb host d || Str.endswith host ("." +:+ d).

Definition same_domain (url : string) (domains : list string) : bool :=
  match urlparse url with
  | Some p => existsb (host_in_domain (Str.lower (netloc p))) domains
  | None => false
  end.

(** [is_binary_url] raises when [urlparse] does. *)
Definition is_binary_url (url : string) : option bool :=
  match urlparse url with
  | Some p => Some (existsb (Str.endswith (Str.lower (path p))) BINARY_EXTS)
  | None => None
  end.

Definition is_sitemap_like (u : string) : bool :=
  let low := Str.lower u in
  if Str.endswith low ".xml" || Str.endswith low ".xml.gz" then true
  else if Str.contains "sitemap" low then true
  else match urlparse u with
       | Some p =>
           existsb (fun k => Str.contains "sitemap" (Str.lower k))
                   (parse_qs_keys (query p))
       | None => false
       end.

Definition quote_safe : string := ":/?#[]@!$&'()*+,;=%".

(** The variants added inside [with suppress(Exception)]. *)
Definition url_variants (s_defrag : string) : gset string :=
  match urlparse s_defrag with
  | Some p =>
      if nonempty (netloc p) then
        let prefix := scheme p +:+ "://" in
        let v1 : gset string :=
          if nonempty (scheme p)
          then {[ Str.replace_first prefix "" s_defrag ]} else ∅ in
        if Str.startswith (netloc p) "www." then
          let no_www :=
            Str.replace_first (netloc p) (Str.drop 4 (netloc p)) s_defrag in
          let v2 : gset string := v1 ∪ {[ no_www ]} in
          if nonempty (scheme p)
          then v2 ∪ {[ Str.replace_first prefix "" no_www ]} else v2
        else v1
      else ∅
  | None => ∅
  end.

Definition long_enough (v : string) : Prop := 6 <= String.length v.

Definition normalize_variants (target : string) : option (gset string) :=
  let s := Str.strip target in
  if negb (nonempty s) then Some ∅
  else
    let s_unesc := html_unescape s in
    match urldefrag s_unesc with
    | None => None
    | Some s_defrag =>
        let variants : gset string :=
          {[ s ]} ∪ {[ s_unesc ]} ∪ {[ s_defrag ]} ∪ url_variants s_defrag in
        let enc : gset string := set_map (quote quote_safe) variants in
        Some (filter long_enough (variants ∪ enc))
    end.

End Helpers.

(** ** The pattern matcher *)

(** The [ahocorasick] package is a native extension.  Its [Automaton] is
    modelled by the Aho-Corasick construction it implements: a node of
    the trie is named by the word spelled on the way from the root, the
    goto function extends that word by one character, the failure link of
    a node leads to its longest proper suffix that is a node again, and
    the words reported at a node are those found along its failure
    links.  [add_word] stores a value under a key and refuses the empty
    key; [len] counts the stored keys; [iter] yields one pair of the end
    index and the stored value for every occurrence of a key. *)
Module Aho.

Definition key : Type := list ascii.
Definition value : Type := nat * string.
Definition Automaton : Type := list (key * value).

Definition get (k : key) (a : Automaton) : option value :=
  snd <$> List.find (fun kv => bool_decide (kv.1 = k)) a.

Definition add_word (k : key) (v : value) (a : Automaton) : Automaton :=
  match k with
  | [] => a
  | _ :: _ => (k, v) :: List.filter (fun kv => bool_decide (kv.1 ≠ k)) a
  end.

Definition len (a : Automaton) : nat := length a.

Section Search.
Variable a : Automaton.

Definition is_node (s : key) : bool :=
  bool_decide (s = []) ||
  existsb (fun kv => bool_decide (s `prefix_of` kv.1)) a.

Fixpoint longest_node_suffix (s : key) : key :=
  if is_node s then s
  else match s with
       | [] => []
       | _ :: s' => longest_node_suffix s'
       end.

Definition fail (s : key) : key :=
  match s with
  | [] => []
  | _ :: s' => longest_node_suffix s'
  end.

Definition goto (s : key) (c : ascii) : option key :=
  if is_node (s ++ [c]) then Some (s ++ [c]) else None.

Lemma longest_node_suffix_length s :
  length (longest_node_suffix s) <= length s.
Proof.
  induction s as [|x s IH]; simpl.
  - destruct (is_node []); simpl; lia.
  - destruct (is_node (x :: s)); simpl; lia.
Qed.

Lemma fail_length x s : length (fail (x :: s)) < length (x :: s).
Proof. simpl. pose proof (longest_node_suffix_length s). lia. Qed.

(** One step of the search: follow the goto edge if there is one,
    else retry from the failure link; the root absorbs the rest. *)
Equations? next_state (s : key) (c : ascii) : key by wf (length s) lt :=
  next_state s c with goto s c := {
    | Some s' => s'
    | None with s := {
        | [] => []
        | x :: s0 => next_state (fail (x :: s0)) c } }.
Proof. pose proof (longest_node_suffix_length s0). simpl. lia. Qed.

(** The values of the keys that end at node [s]. *)
Equations? outputs (s : key) : list value by wf (length s) lt :=
  outputs [] := [];
  outputs (x :: s0) :=
    option_list (get (x :: s0) a) ++ outputs (fail (x :: s0)).
Proof. pose proof (longest_node_suffix_length s0). simpl. lia. Qed.

Fixpoint iter_from (st : key) (i : nat) (text : list ascii)
  : list (nat * value) :=
  match text with
  | [] => []
  | c :: t =>
      let st' := next_state st c in
      ((fun v => (i, v)) <$> outputs st') ++ iter_from st' (S i) t
  end.

Definition iter (text : list ascii) : list (nat * value) :=
  iter_from [] 0 text.
End Search.

End Aho.

Record Matcher : Type := MkMatcher {
  patterns_list : list string;
  use_aho : bool;
  aho : option Aho.Automaton
}.

(** The loop of [Matcher.__init__] over [enumerate(self.patterns_list)]. *)
Definition build_automaton (pl : list string) : Aho.Automaton :=
  fold_left
    (fun a '(idx, pat) => Aho.add_word (list_ascii_of_string pat) (idx, pat) a)
    (imap (fun idx pat => (idx, pat)) pl) [].

(** [Matcher(patterns)]; [have_ahocorasick] is ['ahocorasick' in globals()]. *)
Definition Matcher_init (have_ahocorasick : bool) (patterns : gset string)
  : Matcher :=
  let pl := elements patterns in
  if have_ahocorasick
  then MkMatcher pl true (Some (build_automaton pl))
  else MkMatcher pl false None.

(** [self.use_aho and self.aho]: an automaton is true when it holds a
    word. *)
Definition aho_usable (m : Matcher) : option Aho.Automaton :=
  if use_aho m then
    match aho m with
    | Some a => if 0 <? Aho.len a then Some a else None
    | None => None
    end
  else None.

(** [Matcher.find_in]; [None] is the IndexError of [patterns_list[idx]]. *)
Definition find_in (m : Matcher) (text : string) : option (gset string) :=
  if negb (Urllib.nonempty text) then Some ∅
  else
    match aho_usable m with
    | Some a =>
        list_to_set <$>
          mapM (fun '(_, (idx, _)) => patterns_list m !! idx)
               (Aho.iter a (list_ascii_of_string text))
    | None =>
        Some (list_to_set
                (List.filter (fun p => Str.contains p text) (patterns_list m)))
    end.

(** ** HTTP and sitemaps *)

(** What one GET of the session produces: an exception, or a response
    with its status, body and content-type header. *)
Inductive http_response : Type :=
| HttpRaised
| HttpResponse (status : Z) (raw : string) (content_type : string).

(** The network answers a request knowing the requests made before it
    (newest first), so the same URL may be answered differently when it is
    asked again. *)
Definition Network : Type := list string -> string -> http_response.

Section Sitemaps.
Context `{PyLib}.
Import Urllib.

Definition possible_base_urls (domain : string) : list string :=
  (fun scheme => scheme +:+ "://" +:+ domain) <$> SCHEMES.

Definition fetch_text_bytes (resp : http_response) (url : string)
  : Z * string :=
  match resp with
  | HttpRaised => (0%Z, "")
  | HttpResponse status raw ctype =>
      if negb (status =? 200)%Z then (status, "")
      else
        let ctype := Str.lower ctype in
        let is_gz_file :=
          Str.endswith (Str.lower url) ".gz"
          || Str.contains "application/gzip" ctype
          || Str.contains "application/x-gzip" ctype in
        if is_gz_file then
          match gzip_decompress raw with
          | Inflated r => (status, r)
          | GzipOSError => (status, raw)
          | GzipOtherError => (0%Z, "")
          end
        else (status, raw)
  end.

Definition decode_text (raw : string) : string :=
  if negb (nonempty raw) then "" else decode_utf8_ignore raw.

(** The body of the loop over [text.splitlines()]: the URL a line
    contributes, if any. *)
Definition sitemap_line_url (line : string) : option string :=
  if Str.startswith (Str.lower line) "sitemap:" then
    match Str.split_once ":" line with
    | Some (_, rest) =>
        let sm := Str.strip rest in
        if nonempty sm then Some sm else None
    | None => None
    end
  else None.

Definition robots_sitemaps (status : Z) (raw : string) : gset string :=
  if (status =? 200)%Z && nonempty raw
  then list_to_set (omap sitemap_line_url (Str.splitlines (decode_text raw)))
  else ∅.

(** One round of the loop of [discover_sitemap_urls]; the state is the
    set collected so far and the requests made so far. *)
Definition discover_base (net : Network)
    (acc : gset string * list string) (base : string)
  : option (gset string * list string) :=
  robots_url ← urljoin base "/robots.txt";
  let '(status, raw) :=
    fetch_text_bytes (net acc.2 robots_url) robots_url in
  default_url ← urljoin base "/sitemap.xml";
  Some (acc.1 ∪ robots_sitemaps status raw ∪ {[ default_url ]},
        robots_url :: acc.2).

Fixpoint discover_bases (net : Network)
    (acc : gset string * list string) (bases : list string)
  : option (gset string * list string) :=
  match bases with
  | [] => Some acc
  | base :: rest =>
      acc' ← discover_base net acc base; discover_bases net acc' rest
  end.

(** [discover_sitemap_urls(session, domain)] with the requests made
    before the call; it returns the set and the extended request log. *)
Definition discover_sitemap_urls (net : Network) (hist : list string)
    (domain : string) : option (gset string * list string) :=
  discover_bases net (∅, hist) (possible_base_urls domain).

(** [elem.iter()]: the element and its descendants in document order. *)
Fixpoint iter_elements (e : Element) : list Element :=
  match e with
  | Elem _ _ cs => e :: List.flat_map iter_elements cs
  end.

(** The tag test of the path step [{*}name]. *)
Definition tag_matches (name : string) (e : Element) : bool :=
  String.eqb (tag e) name || Str.endswith (tag e) ("}" +:+ name).

(** [_findall_any(elem, "parent/child")], that is
    [elem.findall(".//{*}parent/{*}child")]. *)
Definition findall_any (elem : Element) (parent child : string)
  : list Element :=
  List.flat_map
    (fun p => List.filter (tag_matches child) (children p))
    (List.filter (tag_matches parent)
                 (List.flat_map iter_elements (children elem))).

(** The local name of the root tag. *)
Definition local_name (t : string) : string :=
  match Str.split_once "}" t with
  | Some (_, rest) => rest
  | None => t
  end.

(** The loop over the [url/loc] elements of a urlset. *)
Fixpoint classify_locs (locs : list Element)
  : list string * list string :=
  match locs with
  | [] => ([], [])
  | loc :: rest =>
      let '(sitemap_urls, page_urls) := classify_locs rest in
      match text loc with
      | Some t =>
          if nonempty t then
            let url := Str.strip t in
            if is_sitemap_like url
            then (url :: sitemap_urls, page_urls)
            else (sitemap_urls, url :: page_urls)
          else (sitemap_urls, page_urls)
      | None => (sitemap_urls, page_urls)
      end
  end.

Definition index_locs (locs : list Element) : list string :=
  omap (fun loc =>
          match text loc with
          | Some t => if nonempty t then Some (Str.strip t) else None
          | None => None
          end) locs.

Definition parse_sitemap_xml (xml_text : string)
  : list string * list string :=
  if negb (nonempty (Str.strip xml_text)) then ([], [])
  else
    match ET_fromstring xml_text with
    | None => ([], [])
    | Some root =>
        if String.eqb (Str.lower (local_name (tag root))) "sitemapindex"
        then (index_locs (findall_any root "sitemap" "loc"), [])
        else classify_locs (findall_any root "url" "loc")
    end.

(** *** The traversal of [gather_pages_from_sitemaps] *)

(** The state of the loop.  [to_process] has the top of the Python list
    (its last element, the one [pop()] takes) in front.  [fetched] and
    [parsed] record, newest first, the URLs handed to
    [fetch_text_bytes] and those whose text reached
    [parse_sitemap_xml]; the program keeps no such lists. *)
Record Traversal : Type := MkTraversal {
  to_process : list string;
  seen_sitemaps : gset string;
  processed_count : nat;
  pages : gset string;
  fetched : list string;
  parsed : list string
}.

Section Loop.
Variable net : Network.
Variable hist0 : list string.   (* the requests made before the loop *)
Variable domains : list string.
Variable MAX_PAGES : Z.

(** The loop that collects the page URLs of one document; [None] is
    an exception of [is_binary_url] or [urldefrag]. *)
Fixpoint collect_pages (pgs : gset string) (url_pages : list string)
  : option (gset string) :=
  match url_pages with
  | [] => Some pgs
  | u :: rest =>
      if same_domain u domains then
        b ← is_binary_url u;
        if negb b then
          d ← urldefrag u;
          let pgs' := {[ d ]} ∪ pgs in
          if (MAX_PAGES <=? Z.of_nat (size pgs'))%Z then Some pgs'
          else collect_pages pgs' rest
        else collect_pages pgs rest
      else collect_pages pgs rest
  end.

(** [for u in nested_sitemaps: if u not in seen: to_process.append(u)]. *)
Definition enqueue (seen : gset string) (nested todo : list string)
  : list string :=
  fold_left (fun acc u => if decide (u ∈ seen) then acc else u :: acc)
            nested todo.

Definition loop_cond (st : Traversal) : bool :=
  bool_decide (to_process st ≠ [])
  && (Z.of_nat (size (pages st)) <? MAX_PAGES)%Z
  && (processed_count st <? SITEMAP_CAP).

Definition loop_body (st : Traversal) : option Traversal :=
  match to_process st with
  | [] => Some st
  | sm_url :: rest =>
      if decide (sm_url ∈ seen_sitemaps st) then
        Some (MkTraversal rest (seen_sitemaps st) (processed_count st)
                          (pages st) (fetched st) (parsed st))
      else
        let seen := {[ sm_url ]} ∪ seen_sitemaps st in
        let count := S (processed_count st) in
        let '(status, raw) :=
          fetch_text_bytes (net (fetched st ++ hist0) sm_url) sm_url in
        let log := sm_url :: fetched st in
        let skipped :=
          MkTraversal rest seen count (pages st) log (parsed st) in
        if negb (status =? 200)%Z || negb (nonempty raw) then Some skipped
        else
          let xml_text := decode_text raw in
          if negb (Str.startswith (Str.strip xml_text) "<")
          then Some skipped
          else
            let '(nested_sitemaps, url_pages) :=
              parse_sitemap_xml xml_text in
            pgs ← collect_pages (pages st) url_pages;
            Some (MkTraversal (enqueue seen nested_sitemaps rest) seen
                              count pgs log (sm_url :: parsed st))
  end.

(** The loop ends: every round either takes a seen URL off the
    worklist or uses up one of the [SITEMAP_CAP] visits. *)
Definition measure (st : Traversal) : nat * nat :=
  (SITEMAP_CAP - processed_count st, length (to_process st)).

Definition measure_lt : relation Traversal :=
  fun a b => slexprod nat nat lt lt (measure a) (measure b).

Lemma measure_lt_wf : well_founded measure_lt.
Proof.
  unfold measure_lt.
  apply (wf_inverse_image _ _ (slexprod nat nat lt lt) measure).
  apply wf_slexprod; apply lt_wf.
Qed.

#[local] Instance measure_lt_WellFounded : WellFounded measure_lt :=
  measure_lt_wf.

Lemma loop_body_decreases st st' :
  loop_cond st = true -> loop_body st = Some st' -> measure_lt st' st.
Proof.
  unfold loop_cond, loop_body, measure_lt, measure.
  intros Hc Hb.
  apply andb_prop in Hc as [Hc Hcap]. apply Nat.ltb_lt in Hcap.
  destruct (to_process st) as [|u rest] eqn:Hq.
  { apply andb_prop in Hc as [Hc _]. apply bool_decide_eq_true in Hc.
    congruence. }
  destruct (decide (u ∈ seen_sitemaps st)).
  - inversion Hb; subst. cbn [processed_count to_process length].
    right. lia.
  - destruct (fetch_text_bytes _ _) as [status raw].
    assert (Hleft : forall q s p l1 l2,
               slexprod nat nat lt lt
                 (measure (MkTraversal q s (S (processed_count st)) p l1 l2))
                 (SITEMAP_CAP - processed_count st, S (length rest))).
    { intros. unfold measure. cbn [processed_count to_process length].
      left. lia. }
    unfold measure in Hleft.
    destruct (negb (status =? 200)%Z || negb (nonempty raw)).
    { inversion Hb; subst. apply Hleft. }
    destruct (negb (Str.startswith _ _)).
    { inversion Hb; subst. apply Hleft. }
    destruct (parse_sitemap_xml _) as [nested url_pages].
    destruct (collect_pages _ _); inversion Hb; subst. apply Hleft.
Qed.

(** The [while] loop; [None] is an exception raised in its body. *)
Equations? traverse (st : Traversal) : option Traversal
  by wf st measure_lt :=
  traverse st with Logic.inspect (loop_cond st) := {
    | exist _ false _ => Some st
    | exist _ true Hc with Logic.inspect (loop_body st) := {
        | exist _ None _ => None
        | exist _ (Some st') Hb => traverse st' } }.
Proof. by apply loop_body_decreases. Qed.

End Loop.

Definition initial_traversal (candidates : list string) : Traversal :=
  MkTraversal candidates ∅ 0 ∅ [] [].

(** The discovery loop over the domains. *)
Fixpoint discover_all (net : Network) (acc : gset string * list string)
    (ds : list string) : option (gset string * list string) :=
  match ds with
  | [] => Some acc
  | d :: rest =>
      r ← discover_sitemap_urls net acc.2 d;
      discover_all net (acc.1 ∪ r.1, r.2) rest
  end.

(** [gather_pages_from_sitemaps(session, domains)]; [order] is the order
    in which [list(candidate_sitemaps)] lists the set.  [pop()] takes the
    last element of that list, so the worklist starts with the list
    reversed: its last element is on top. *)
Definition gather_pages_from_sitemaps (net : Network) (MAX_PAGES : Z)
    (order : gset string -> list string) (domains : list string)
  : option (gset string) :=
  found ← discover_all net (∅, []) domains;
  st ← traverse net found.2 domains MAX_PAGES
                (initial_traversal (rev (order found.1)));
  Some (pages st).

End Sitemaps.

(** ** urllib.robotparser *)

Module Robots.
Section WithLib.
Context `{PyLib}.
Import Urllib.

Record RuleLine : Type := MkRuleLine { rule_path : string; allowance : bool }.
Record Entry : Type := MkEntry {
useragents : list string; rulelines : list RuleLine
}.

Record RobotFileParser : Type := MkParser {
entries : list Entry;
default_entry : option Entry;
disallow_all : bool;
allow_all : bool;
last_checked : Z      (* time.time() of the last parse, 0 before it *)
}.

(** [RobotFileParser()]. *)
Definition new_parser : RobotFileParser := MkParser [] None false false 0.

(** What [rp.read()] meets.  [urlopen], [f.read()] or the UTF-8 decoding
  raise before the parser is touched (URLError, a timeout,
  UnicodeDecodeError); an HTTPError is handled by [read] itself;
  otherwise [parse] runs at time [now], leaves the entries it has
  added, and may still raise on a rule line that [urlparse] refuses. *)
Inductive read_outcome : Type :=
| ReadRaised
| ReadHTTPError (code : Z)
| ReadParsed (now : Z) (es : list Entry) (de : option Entry)
           (parse_raised : bool).

(** [rp.read()]: the parser afterwards and whether the call raised. *)
Definition read (rp : RobotFileParser) (o : read_outcome)
: RobotFileParser * bool :=
match o with
| ReadRaised => (rp, true)
| ReadHTTPError code =>
    if bool_decide (code = 401 ∨ code = 403)%Z
    then (MkParser (entries rp) (default_entry rp) true (allow_all rp)
                   (last_checked rp), false)
    else if (400 <=? code)%Z && (code <? 500)%Z
    then (MkParser (entries rp) (default_entry rp) (disallow_all rp) true
                   (last_checked rp), false)
    else (rp, false)
| ReadParsed now es de raised =>
    (MkParser es de (disallow_all rp) (allow_all rp) now, raised)
end.

(** [Entry.applies_to(useragent)]. *)
Definition first_token (useragent : string) : string :=
match Str.split_once "/" useragent with
| Some (a, _) => a
| None => useragent
end.

Definition entry_applies_to (e : Entry) (useragent : string) : bool :=
let ua := Str.lower (first_token useragent) in
existsb (fun agent => String.eqb agent "*"
                      || Str.contains (Str.lower agent) ua)
        (useragents e).

Definition rule_applies_to (r : RuleLine) (filename : string) : bool :=
String.eqb (rule_path r) "*" || Str.startswith filename (rule_path r).

(** [Entry.allowance(filename)]. *)
Definition entry_allowance (e : Entry) (filename : string) : bool :=
match List.find (fun r => rule_applies_to r filename) (rulelines e) with
| Some r => allowance r
| None => true
end.

(** [rp.can_fetch(useragent, url)]; [None] when [urlparse] raises. *)
Definition can_fetch (rp : RobotFileParser) (useragent url : string)
: option bool :=
if disallow_all rp then Some false
else if allow_all rp then Some true
else if (last_checked rp =? 0)%Z then Some false
else
  p ← urlparse (unquote url);
  let u := urlunparse "" "" (path p) (params p) (query p) (fragment p) in
  let u := quote "/" u in
  let u := if nonempty u then u else "/" in
  match List.find (fun e => entry_applies_to e useragent) (entries rp) with
  | Some e => Some (entry_allowance e u)
  | None =>
      match default_entry rp with
      | Some e => Some (entry_allowance e u)
      | None => Some true
      end
  end.

End WithLib.
End Robots.

(** ** SiteScanner *)

Section Scanner.
Context `{PyLib}.
Import Urllib.

Record SiteScanner : Type := MkScanner {
  domains : list string;
  patterns : gset string;
  matcher : Matcher;
  matches : gmap string (gset string);
  rp_by_domain : gmap string Robots.RobotFileParser
}.

(** [SiteScanner(domains, patterns)]. *)
Definition SiteScanner_new (have_ahocorasick : bool)
    (ds : list string) (pats : gset string) : SiteScanner :=
  MkScanner ds pats (Matcher_init have_ahocorasick pats)
            (gset_to_gmap ∅ pats) ∅.

(** The body of the loop of [init] for one domain: the robots URL is
    computed outside the [suppress] block, [set_url] and [read] inside
    it, and the parser is stored whatever happened. *)
Definition load_robots (robots_net : string -> Robots.read_outcome)
    (rps : gmap string Robots.RobotFileParser) (d : string)
  : option (gmap string Robots.RobotFileParser) :=
  base ← head (possible_base_urls d);
  robots_url ← urljoin base "/robots.txt";
  let rp :=
    match urlparse robots_url with
    | Some _ => (Robots.read Robots.new_parser (robots_net robots_url)).1
    | None => Robots.new_parser
    end in
  Some (<[ d := rp ]> rps).

Fixpoint load_all_robots (robots_net : string -> Robots.read_outcome)
    (rps : gmap string Robots.RobotFileParser) (ds : list string)
  : option (gmap string Robots.RobotFileParser) :=
  match ds with
  | [] => Some rps
  | d :: rest =>
      rps' ← load_robots robots_net rps d;
      load_all_robots robots_net rps' rest
  end.

(** [SiteScanner.init]. *)
Definition init (robots_net : string -> Robots.read_outcome)
    (sc : SiteScanner) : option SiteScanner :=
  rps ← load_all_robots robots_net (rp_by_domain sc) (domains sc);
  Some (MkScanner (domains sc) (patterns sc) (matcher sc) (matches sc) rps).

(** The [try] block of [allowed]; an exception in it falls through to
    [return True]. *)
Definition robots_verdict (sc : SiteScanner) (url : string) : bool :=
  match urlparse url with
  | None => true
  | Some p =>
      let host := Str.lower (netloc p) in
      match List.find (host_in_domain host) (domains sc) with
      | Some dom =>
          if nonempty dom then
            match rp_by_domain sc !! dom with
            | Some rp => default true (Robots.can_fetch rp USER_AGENT url)
            | None => true
            end
          else true
      | None => true
      end
  end.

(** [SiteScanner.allowed]; [None] when [is_binary_url] raises. *)
Definition allowed (sc : SiteScanner) (url : string) : option bool :=
  if negb (same_domain url (domains sc)) then Some false
  else
    b ← is_binary_url url;
    if b : bool then Some false else Some (robots_verdict sc url).

(** [fetch_html]: the text of a 200 response, else the empty string. *)
Definition fetch_html (resp : http_response) : string :=
  match resp with
  | HttpRaised => ""
  | HttpResponse status raw _ =>
      if negb (status =? 200)%Z then "" else decode_text raw
  end.

(** [extract_hrefs]; [None] when [urljoin] or [urldefrag] raises. *)
Definition extract_hrefs (base_url html_text : string)
  : option (list string) :=
  mapM (fun href => absu ← urljoin base_url href; urldefrag absu)
       (List.filter nonempty (soup_anchor_hrefs html_text)).

(** The body of the loop [for pat in found]; [None] is the KeyError of
    [self.matches[pat]]. *)
Definition record_match (url : string) (ms : gmap string (gset string))
    (pat : string) : option (gmap string (gset string)) :=
  s ← ms !! pat;
  if size s <? MAX_MATCH_PAGES_PER_QUERY
  then Some (<[ pat := {[ url ]} ∪ s ]> ms)
  else Some ms.

Fixpoint record_matches (url : string) (ms : gmap string (gset string))
    (found : list string) : option (gmap string (gset string)) :=
  match found with
  | [] => Some ms
  | pat :: rest => ms' ← record_match url ms pat; record_matches url ms' rest
  end.

(** The text [scan_page] searches. *)
Definition page_blob (scan_body : bool) (hrefs : list string)
    (html_text : string) : string :=
  let blobs : list string :=
    (match hrefs with
     | [] => []
     | _ :: _ => [Str.join (String "010" "") hrefs]
     end)
    ++ (if scan_body then [html_text] else []) in
  Str.join (String "010" "") blobs.

(** [scan_page(url)] once the page request has been answered by [resp];
    [order] lists the found set in the order the loop visits it.  From
    the answer on the method runs without suspension, so its update of
    [matches] is one step of the run. *)
Definition scan_page (scan_body : bool)
    (order : gset string -> list string)
    (sc : SiteScanner) (url : string) (resp : http_response)
  : option SiteScanner :=
  ok ← allowed sc url;
  if negb ok then Some sc
  else
    let html_text := fetch_html resp in
    if negb (nonempty html_text) then Some sc
    else
      hrefs ← extract_hrefs url html_text;
      found ← find_in (matcher sc) (page_blob scan_body hrefs html_text);
      ms ← record_matches url (matches sc) (order found);
      Some (MkScanner (domains sc) (patterns sc) (matcher sc) ms
                      (rp_by_domain sc)).

(** [run]: the page tasks in the order in which they complete, each with
    the answer to its request. *)
Fixpoint run (scan_body : bool) (order : gset string -> list string)
    (sc : SiteScanner) (completed : list (string * http_response))
  : option SiteScanner :=
  match completed with
  | [] => Some sc
  | (url, resp) :: rest =>
      sc' ← scan_page scan_body order sc url resp;
      run scan_body order sc' rest
  end.

(** ** The report *)

Definition rebuild_input_variant_map (inputs : list string)
  : option (gmap string (gset string)) :=
  foldr (fun u acc => m ← acc; vs ← normalize_variants u;
                      Some (<[ u := vs ]> m))
        (Some ∅) inputs.

(** One data row of the CSV: the queried URL, [found], [match_count] and
    the [MAX_MATCH_PAGES_PER_QUERY] page cells. *)
Record Row : Type := MkRow {
  queried_url : string;
  found : bool;
  match_count : nat;
  match_page_cells : list string
}.

(** [sorted(pages)]. *)
Definition sorted (pgs : gset string) : list string :=
  merge_sort String.le (elements pgs).

(** The union over the variants of [matches.get(var, set())]. *)
Definition matched_pages (ms : gmap string (gset string))
    (vars : gset string) : gset string :=
  ⋃ ((fun var => default ∅ (ms !! var)) <$> elements vars).

Definition result_row (ms : gmap string (gset string))
    (u : string) (vars : gset string) : Row :=
  let page_list :=
    take MAX_MATCH_PAGES_PER_QUERY (sorted (matched_pages ms vars)) in
  MkRow u (bool_decide (page_list ≠ [])) (length page_list)
        (page_list ++
           replicate (MAX_MATCH_PAGES_PER_QUERY - length page_list) "").

(** The data rows [write_results] writes after the header, in the order
    written; [None] when [normalize_variants] raises or on a KeyError. *)
Definition write_results (inputs : list string)
    (ms : gmap string (gset string)) : option (list Row) :=
  input_to_variants ← rebuild_input_variant_map inputs;
  mapM (fun u => vars ← input_to_variants !! u; Some (result_row ms u vars))
       inputs.

End Scanner.

(** ** Files, the test mode and [main] *)

Section Programs.
Context `{PyLib}.
Import Urllib.

(** The text [save_list_to_file] writes: every item followed by a
    newline, in the order given. *)
Definition lines_text (items : list string) : string :=
  fold_right (fun item acc => item +:+ String "010" "" +:+ acc) "" items.

(** [save_list_to_file(filename, items)] on a file system that maps a
    path to the text of its file; [writable] tells whether [open] for
    writing succeeds.  When it raises, the exception is caught, a message
    is printed and the files stay as they were. *)
Definition save_list_to_file (writable : string -> bool)
    (files : gmap string string) (filename : string) (items : gset string)
  : gmap string string :=
  if writable filename
  then <[ filename := lines_text (sorted items) ]> files
  else files.

(** Reading a text file opened with the default [newline=None]: "\r\n"
    and "\r" are translated to "\n". *)
Fixpoint translate_newlines (s : string) : string :=
  match s with
  | EmptyString => EmptyString
  | String c s' =>
      if Str.code c =? 13 then
        String "010"
          match s' with
          | String d s'' =>
              if Str.code d =? 10 then translate_newlines s''
              else translate_newlines s'
          | EmptyString => EmptyString
          end
      else String c (translate_newlines s')
  end.

(** [for line in f]: the lines of the translated text, each with its
    "\n"; a last line without one is a line too. *)
Fixpoint file_lines (s : string) : list string :=
  match s with
  | EmptyString => []
  | String c s' =>
      if Str.code c =? 10 then String c EmptyString :: file_lines s'
      else match file_lines s' with
           | [] => [String c EmptyString]
           | l :: ls => String c l :: ls
           end
  end.

(** [[line.strip() for line in f if line.strip()]] of [main]. *)
Definition load_inputs (content : string) : list string :=
  omap (fun line => let s := Str.strip line in
                    if nonempty s then Some s else None)
       (file_lines (translate_newlines content)).

(** [for u in inputs: all_patterns |= normalize_variants(u)]. *)
Fixpoint collect_patterns (acc : gset string) (inputs : list string)
  : option (gset string) :=
  match inputs with
  | [] => Some acc
  | u :: rest => vs ← normalize_variants u; collect_patterns (acc ∪ vs) rest
  end.

Definition all_patterns (inputs : list string) : option (gset string) :=
  collect_patterns ∅ inputs.

(** *** Test mode *)

(** A row of test_results.csv: the input, [found], [match_count] and the
    cells of [list(pages)[:1]]. *)
Record TestRow : Type := MkTestRow {
  test_queried_url : string;
  test_found : bool;
  test_match_count : nat;
  test_match_page : list string
}.

(** The links of the test page; an anchor with an empty href is joined
    as well. *)
Definition test_hrefs (test_url html_text : string) : option (list string) :=
  mapM (fun href => absu ← urljoin test_url href; urldefrag absu)
       (soup_anchor_hrefs html_text).

Definition test_blob (scan_body : bool) (hrefs : list string)
    (html_text : string) : string :=
  Str.join (String "010" "")
    ([Str.join (String "010" "") hrefs]
       ++ (if scan_body then [html_text] else [])).

(** The loop over the variants of one input. *)
Definition test_pages (order : gset string -> list string)
    (test_url : string) (found_patterns vars : gset string) : gset string :=
  fold_left (fun pages var => if decide (var ∈ found_patterns)
                              then {[ test_url ]} ∪ pages else pages)
            (order vars) ∅.

Definition test_row (order : gset string -> list string)
    (test_url : string) (found_patterns : gset string)
    (original : string) (vars : gset string) : TestRow :=
  let pages := test_pages order test_url found_patterns vars in
  MkTestRow original (bool_decide (pages ≠ ∅)) (size pages)
            (take 1 (order pages)).

(** What [run_test_mode] leaves behind: nothing when the page could not
    be fetched, else the rows of test_results.csv. *)
Inductive test_outcome : Type :=
| TestNotFetched
| TestRows (rows : list TestRow).

(** [run_test_mode(test_url, inputs, scan_body)] with the answer [resp]
    to its one request; [None] is an exception. *)
Definition run_test_mode (have_ahocorasick scan_body : bool)
    (order : gset string -> list string) (resp : http_response)
    (test_url : string) (inputs : list string) : option test_outcome :=
  all ← all_patterns inputs;
  match resp with
  | HttpRaised => Some TestNotFetched
  | HttpResponse status raw _ =>
      if negb (status =? 200)%Z then Some TestNotFetched
      else
        let html_text := decode_text raw in
        hrefs ← test_hrefs test_url html_text;
        found_patterns ←
          find_in (Matcher_init have_ahocorasick all)
                  (test_blob scan_body hrefs html_text);
        variant_map ← rebuild_input_variant_map inputs;
        rows ← mapM (fun original =>
                       vars ← variant_map !! original;
                       Some (test_row order test_url found_patterns
                                      original vars))
                    inputs;
        Some (TestRows rows)
  end.

(** *** The full crawl *)

(** [l[:n]] for an integer [n] of either sign. *)
Definition slice_upto (l : list string) (n : Z) : list string :=
  if (0 <=? n)%Z then take (Z.to_nat n) l
  else take (length l - Z.to_nat (- n)) l.

(** [[u for u in page_urls if self.allowed(u)]]. *)
Fixpoint filter_allowed (sc : SiteScanner) (page_urls : list string)
  : option (list string) :=
  match page_urls with
  | [] => Some []
  | u :: rest =>
      ok ← allowed sc u;
      kept ← filter_allowed sc rest;
      Some (if ok : bool then u :: kept else kept)
  end.

(** [SiteScanner.run(page_urls)]: the pages are filtered, and if any is
    left one task per page is started; [completion] gives the tasks in
    the order in which they complete, each with the answer to its
    request. *)
Definition run_pages (scan_body : bool) (order : gset string -> list string)
    (completion : list string -> list (string * http_response))
    (sc : SiteScanner) (page_urls : list string) : option SiteScanner :=
  filtered ← filter_allowed sc page_urls;
  match filtered with
  | [] => Some sc
  | _ :: _ => run scan_body order sc (completion filtered)
  end.

(** The full crawl of [main] on the inputs read: patterns, scanner,
    sitemaps, page scan, report; [None] is an exception (no report is
    written). *)
Definition main_crawl (have_ahocorasick scan_body : bool) (MAX_PAGES : Z)
    (DOMAINS : list string) (order : gset string -> list string)
    (robots_net : string -> Robots.read_outcome) (net : Network)
    (completion : list string -> list (string * http_response))
    (inputs : list string) : option (list Row) :=
  all ← all_patterns inputs;
  scanner ← init robots_net (SiteScanner_new have_ahocorasick DOMAINS all);
  pages ← gather_pages_from_sitemaps net MAX_PAGES order DOMAINS;
  let page_list := slice_upto (order pages) MAX_PAGES in
  scanner' ← run_pages scan_body order completion scanner page_list;
  write_results inputs (matches scanner').

(** What [main] writes: the rows of test_results.csv (if any) in test
    mode, the rows of the report otherwise. *)
Inductive main_outcome : Type :=
| MainTest (o : test_outcome)
| MainReport (rows : list Row).

(** [main()] with the parsed arguments [--test-url], [--no-body],
    [--max-pages] and [--domains] and the text of the input file. *)
Definition main (have_ahocorasick : bool) (test_url : option string)
    (no_body : bool) (max_pages : Z) (domains : list string)
    (order : gset string -> list string)
    (robots_net : string -> Robots.read_outcome) (net : Network)
    (test_answer : http_response)
    (completion : list string -> list (string * http_response))
    (input_text : string) : option main_outcome :=
  let scan_body := negb no_body in
  let inputs := load_inputs input_text in
  match test_url with
  | Some t =>
      if nonempty t
      then MainTest <$> run_test_mode have_ahocorasick scan_body order
                          test_answer t inputs
      else MainReport <$> main_crawl have_ahocorasick scan_body max_pages
                            domains order robots_net net completion inputs
  | None =>
      MainReport <$> main_crawl have_ahocorasick scan_body max_pages
                       domains order robots_net net completion inputs
  end.

End Programs.

(** ** A concrete library *)

(** A library for plain inputs: texts without character references or
    percent escapes, hosts without brackets, bodies that are ASCII and not
    compressed.  On such inputs the hooks below are what the libraries
    compute; the XML parser knows the one document [sample_urlset_text]. *)
Definition sample_urlset_text : string :=
  "<urlset><url><loc>https://example.com/news-sitemap.xml</loc></url><url><loc>https://example.com/about</loc></url></urlset>".

Definition sample_urlset : Element :=
  Elem "urlset" None
    [Elem "url" None
       [Elem "loc" (Some "https://example.com/news-sitemap.xml") []];
     Elem "url" None
       [Elem "loc" (Some "https://example.com/about") []]].

Definition plain_lib : PyLib := {|
  charref_sub s := s;
  unquote_escapes s := s;
  check_bracketed_netloc _ := false;
  checknetloc_nfkc _ := true;
  ET_fromstring s :=
    if String.eqb s sample_urlset_text then Some sample_urlset else None;
  decode_utf8_ignore s := s;
  gzip_decompress _ := GzipOSError;
  soup_anchor_hrefs _ := []
|}.

(** A network whose robots.txt for example.com has a mixed-case Sitemap
    line; every other request fails. *)
Definition robots_net : Network :=
  fun _ url =>
    if String.eqb url "https://example.com/robots.txt"
    then HttpResponse 200
           ("User-agent: *" +:+ String "010" "SiteMap:  https://example.com/sm1.xml ")
           "text/plain"
    else HttpRaised.

(** A network that serves the sample urlset as the sitemap of example.com
    and nothing else. *)
Definition sitemap_net : Network :=
  fun _ url =>
    if String.eqb url "https://example.com/sitemap.xml"
    then HttpResponse 200 sample_urlset_text "application/xml"
    else HttpRaised.

(** A table within the cap: a hundred pages that mention the short form of
    the input, and one more page found through the long form. *)
Definition cap_pages : gset string :=
  list_to_set
    ((fun i => "https://example.com/p/" +:+ String (ascii_of_nat (33 + i)) "")
       <$> seq 0 100).

Definition two_variant_matches : gmap string (gset string) :=
  {[ "example.com/a" := cap_pages;
     "https://example.com/a" := {[ "https://example.com/late" ]} ]}.

(** A library that also knows two HTML pages: [sample_page] with one
    link that has a fragment and one anchor with an empty href, and
    [bad_page] with a link that [urljoin] refuses. *)
Definition sample_page : string :=
  "<a href='/a/b#top'>b</a><a href=''>none</a>".

Definition bad_page : string := "<a href='http://['>broken</a>".

Definition linked_lib : PyLib := {|
  charref_sub s := s;
  unquote_escapes s := s;
  check_bracketed_netloc _ := false;
  checknetloc_nfkc _ := true;
  ET_fromstring s :=
    if String.eqb s sample_urlset_text then Some sample_urlset else None;
  decode_utf8_ignore s := s;
  gzip_decompress _ := GzipOSError;
  soup_anchor_hrefs s :=
    if String.eqb s sample_page then ["/a/b#top"; ""]
    else if String.eqb s bad_page then ["http://["]
    else []
|}.

(** A scanner for example.com with one pattern, whose robots.txt is
    answered with 404, and the page tasks of a small run. *)
Definition demo_scanner : option SiteScanner :=
  @init linked_lib (fun _ => Robots.ReadHTTPError 404)
    (SiteScanner_new true ["example.com"] {[ "example.com/a" ]}).

Definition demo_completed : list (string * http_response) :=
  [("https://example.com/x", HttpResponse 200 sample_page "text/html")].

(** Two states of the crawl of example.com against [sitemap_net]. *)
Definition two_candidates : Traversal :=
  initial_traversal ["https://example.com/sitemap.xml";
                     "https://example.com/other.xml"].

Definition after_first_round : Traversal :=
  MkTraversal ["https://example.com/news-sitemap.xml";
               "https://example.com/other.xml"]
              {[ "https://example.com/sitemap.xml" ]} 1
              {[ "https://example.com/about" ]}
              ["https://example.com/sitemap.xml"]
              ["https://example.com/sitemap.xml"].

(** The page tasks complete in the order of the task list, each with the
    sample page. *)
Definition demo_completion (tasks : list string)
  : list (string * http_response) :=
  (fun u => (u, HttpResponse 200 sample_page "text/html")) <$> tasks.

(** * Properties *)

(** ** Strings *)

Section StrFacts.

Lemma nonempty_false s : Urllib.nonempty s = false <-> s = "".
Proof. destruct s; simpl; split; congruence. Qed.

Lemma nonempty_true s : Urllib.nonempty s = true <-> s <> "".
Proof. destruct s; simpl; split; congruence. Qed.

Lemma lstrip_by_all f s : Str.forallb f s = true -> Str.lstrip_by f s = "".
Proof.
  induction s as [|c s IH]; simpl; [done|].
  intros [Hc Hs]%andb_prop. rewrite Hc. auto.
Qed.

Lemma strip_blank s : Str.forallb Str.isspace s = true -> Str.strip s = "".
Proof.
  intros Hs. unfold Str.strip, Str.strip_by.
  rewrite (lstrip_by_all _ _ Hs). reflexivity.
Qed.

End StrFacts.

(** ** The variant normalizer *)

Section Variants.
Context `{PyLib}.

(** C10: an input that is empty or made of whitespace only has no
    variant at all: [normalize_variants] returns the empty set. *)
Theorem normalize_variants_blank (target : string) :
  Str.forallb Str.isspace target = true ->
  normalize_variants target = Some ∅.
Proof.
  intros Hs. unfold normalize_variants.
  rewrite (strip_blank _ Hs). reflexivity.
Qed.

Lemma members_of_result (o : option (gset string)) (xs : list string) :
  xs <> [] ->
  Forall (fun x => (vs ← o; Some (bool_decide (x ∈ vs))) = Some true) xs ->
  exists vs, o = Some vs /\ Forall (fun x => x ∈ vs) xs.
Proof.
  intros Hne Hall. destruct o as [vs|]; simpl in Hall.
  - exists vs. split; [reflexivity|].
    eapply Forall_impl; [exact Hall|]. simpl. intros x Hx.
    inversion Hx as [Hb]. by apply bool_decide_eq_true in Hb.
  - destruct xs as [|x xs]; [done|]. by inversion Hall.
Qed.

(** C7: the variants of "https://www.example.com/a/b#frag" include the
    string itself, its form without the fragment, the form without the
    scheme and the form without "www."; and whatever the input, every
    variant returned has at least 6 characters. *)
Theorem normalize_variants_example :
  (exists vs : gset string,
      normalize_variants "https://www.example.com/a/b#frag" = Some vs
      /\ "https://www.example.com/a/b#frag" ∈ vs
      /\ "https://www.example.com/a/b" ∈ vs
      /\ "www.example.com/a/b" ∈ vs
      /\ "example.com/a/b" ∈ vs)
  /\ (forall (target : string) (vs : gset string) (v : string),
        normalize_variants target = Some vs -> v ∈ vs ->
        6 <= String.length v).
Proof.
  split.
  - destruct (members_of_result
                (normalize_variants "https://www.example.com/a/b#frag")
                ["https://www.example.com/a/b#frag";
                 "https://www.example.com/a/b";
                 "www.example.com/a/b"; "example.com/a/b"])
      as (vs & E & Hall).
    + discriminate.
    + repeat (apply Forall_cons_2 || apply Forall_nil_2);
        vm_compute; reflexivity.
    + exists vs. split; [exact E|].
      apply Forall_cons_1 in Hall as [H1 Hall].
      apply Forall_cons_1 in Hall as [H2 Hall].
      apply Forall_cons_1 in Hall as [H3 Hall].
      apply Forall_cons_1 in Hall as [H4 _].
      exact (conj H1 (conj H2 (conj H3 H4))).
  - intros target vs v Hn Hv. unfold normalize_variants in Hn.
    destruct (negb (Urllib.nonempty (Str.strip target))).
    + inversion Hn; subst. set_solver.
    + destruct (Urllib.urldefrag _); [|done].
      inversion Hn; subst. by apply elem_of_filter in Hv as [Hv _].
Qed.

End Variants.

(** A blank line, as an input of [normalize_variants]. *)
Lemma normalize_variants_blank_witness :
  @normalize_variants plain_lib (String " " (String "009" " ")) = Some ∅.
Proof.
  apply (@normalize_variants_blank plain_lib). reflexivity.
Defined.

(** ** The match table *)

Section MatchSet.
Context `{PyLib}.

(** No entry of the table holds more pages than the cap. *)
Definition within_cap (ms : gmap string (gset string)) : Prop :=
  forall pat s, ms !! pat = Some s -> size s <= MAX_MATCH_PAGES_PER_QUERY.

Lemma size_add_page (url : string) (s : gset string) :
  size ({[ url ]} ∪ s) <= S (size s).
Proof.
  rewrite size_union_alt, size_singleton.
  apply le_n_S, subseteq_size. by intros x [? _]%elem_of_difference.
Qed.

Lemma within_cap_initial (pats : gset string) :
  within_cap (gset_to_gmap ∅ pats).
Proof.
  intros pat s [_ <-]%lookup_gset_to_gmap_Some.
  rewrite size_empty. lia.
Qed.

Lemma record_match_within_cap url ms pat ms' :
  within_cap ms -> record_match url ms pat = Some ms' -> within_cap ms'.
Proof.
  unfold record_match. intros Hcap Hr.
  destruct (ms !! pat) as [s|] eqn:Hs; simpl in Hr; [|done].
  destruct (size s <? MAX_MATCH_PAGES_PER_QUERY) eqn:Hlt;
    inversion Hr; subst; [|done].
  apply Nat.ltb_lt in Hlt.
  intros q t Hq. destruct (decide (pat = q)) as [->|Hne].
  - rewrite lookup_insert_eq in Hq. inversion Hq; subst.
    pose proof (size_add_page url s). lia.
  - rewrite lookup_insert_ne in Hq by done. eauto.
Qed.

Lemma record_matches_within_cap url found : forall ms ms',
  within_cap ms -> record_matches url ms found = Some ms' -> within_cap ms'.
Proof.
  induction found as [|pat rest IH]; simpl; intros ms ms' Hcap Hr.
  - by inversion Hr; subst.
  - destruct (record_match url ms pat) as [ms1|] eqn:H1; simpl in Hr;
      [|done].
    eapply IH; [|exact Hr]. eapply record_match_within_cap; eauto.
Qed.

Lemma scan_page_within_cap scan_body order sc url resp sc' :
  within_cap (matches sc) ->
  scan_page scan_body order sc url resp = Some sc' ->
  within_cap (matches sc').
Proof.
  unfold scan_page. intros Hcap Hs.
  destruct (allowed sc url) as [ok|]; simpl in Hs; [|done].
  destruct (negb ok); [by inversion Hs; subst|].
  destruct (negb (Urllib.nonempty (fetch_html resp)));
    [by inversion Hs; subst|].
  destruct (extract_hrefs url (fetch_html resp)) as [hrefs|];
    simpl in Hs; [|done].
  destruct (find_in _ _) as [fnd|]; simpl in Hs; [|done].
  destruct (record_matches url (matches sc) (order fnd)) as [ms|] eqn:Hr;
    simpl in Hs; [|done].
  inversion Hs; subst; simpl.
  eapply record_matches_within_cap; eauto.
Qed.

Lemma run_within_cap scan_body order completed : forall sc sc',
  within_cap (matches sc) ->
  run scan_body order sc completed = Some sc' ->
  within_cap (matches sc').
Proof.
  induction completed as [|[url resp] rest IH]; simpl; intros sc sc' Hcap Hr.
  - by inversion Hr; subst.
  - destruct (scan_page scan_body order sc url resp) as [sc1|] eqn:H1;
      simpl in Hr; [|done].
    eapply IH; [|exact Hr]. eapply scan_page_within_cap; eauto.
Qed.

Lemma init_matches robots_net sc sc' :
  init robots_net sc = Some sc' -> matches sc' = matches sc.
Proof.
  unfold init. intros Hi.
  destruct (load_all_robots _ _ _); simpl in Hi; [|done].
  by inversion Hi; subst.
Qed.

(** C9: in a run of Phase 2 (the scanner built from any domains and
    patterns, initialised, and any sequence of completed page tasks), no
    entry of the match table ever holds more than
    MAX_MATCH_PAGES_PER_QUERY pages: not after the pages completed so
    far, not after any part of the update loop of a further page; and a
    match for a pattern that has reached the cap leaves the table as it
    is, without an error. *)
Theorem matchset_never_exceeds_cap
    (have_ahocorasick scan_body : bool) (ds : list string)
    (pats : gset string) (robots_net : string -> Robots.read_outcome)
    (order : gset string -> list string)
    (completed : list (string * http_response)) (sc0 sc : SiteScanner) :
  init robots_net (SiteScanner_new have_ahocorasick ds pats) = Some sc0 ->
  run scan_body order sc0 completed = Some sc ->
  within_cap (matches sc)
  /\ (forall url found ms,
        record_matches url (matches sc) found = Some ms -> within_cap ms)
  /\ (forall url pat s,
        matches sc !! pat = Some s ->
        MAX_MATCH_PAGES_PER_QUERY <= size s ->
        record_match url (matches sc) pat = Some (matches sc)).
Proof.
  intros Hinit Hrun.
  assert (Hcap : within_cap (matches sc)).
  { eapply run_within_cap; [|exact Hrun].
    rewrite (init_matches _ _ _ Hinit). apply within_cap_initial. }
  split; [exact Hcap|]. split.
  - intros url fnd ms Hr. eapply record_matches_within_cap; eauto.
  - intros url pat s Hs Hfull. unfold record_match. rewrite Hs. simpl.
    apply Nat.ltb_ge in Hfull. by rewrite Hfull.
Qed.

End MatchSet.

(** A run with one page whose body mentions the pattern. *)
Lemma matchset_never_exceeds_cap_witness :
  match @init plain_lib (fun _ => Robots.ReadHTTPError 404)
          (SiteScanner_new true ["example.com"] {[ "example.com/a" ]}) with
  | Some sc0 =>
      match @run plain_lib true elements sc0
              [("https://example.com/x",
                HttpResponse 200 "see example.com/a/b" "text/html")] with
      | Some sc => within_cap (matches sc)
      | None => False
      end
  | None => False
  end.
Proof.
  destruct (@init plain_lib _ _) as [sc0|] eqn:Hinit.
  - destruct (@run plain_lib _ _ sc0 _) as [sc|] eqn:Hrun.
    + exact (proj1 (@matchset_never_exceeds_cap plain_lib true true
                      ["example.com"] {[ "example.com/a" ]}
                      (fun _ => Robots.ReadHTTPError 404) elements _
                      sc0 sc Hinit Hrun)).
    + vm_compute in Hinit. injection Hinit as <-.
      vm_compute in Hrun. discriminate Hrun.
  - vm_compute in Hinit. discriminate Hinit.
Defined.

(** ** The report *)

Section Report.
Context `{PyLib}.

Lemma rebuild_lookup (inputs : list string) : forall m,
  rebuild_input_variant_map inputs = Some m ->
  forall u, u ∈ inputs -> m !! u = normalize_variants u /\ is_Some (m !! u).
Proof.
  induction inputs as [|x rest IH]; simpl; intros m Hm u Hu.
  - by apply elem_of_nil in Hu.
  - destruct (rebuild_input_variant_map rest) as [m'|] eqn:Hrest;
      simpl in Hm; [|done].
    destruct (normalize_variants x) as [vs|] eqn:Hx; simpl in Hm; [|done].
    injection Hm as <-.
    destruct (decide (x = u)) as [->|Hne].
    + rewrite lookup_insert_eq, Hx. eauto.
    + rewrite lookup_insert_ne by done.
      apply elem_of_cons in Hu as [->|Hu]; [done|].
      by apply (IH m').
Qed.

Lemma rebuild_total (inputs : list string) :
  Forall (fun u => is_Some (normalize_variants u)) inputs ->
  is_Some (rebuild_input_variant_map inputs).
Proof.
  induction 1 as [|x rest [vs Hx] _ [m Hm]]; [by eexists|].
  change (rebuild_input_variant_map (x :: rest))
    with (m ← rebuild_input_variant_map rest;
          vs ← normalize_variants x; Some (<[ x := vs ]> m)).
  rewrite Hm. simpl. rewrite Hx. simpl. by eexists.
Qed.

(** The pages of the report row of an input: those of the table entries
    of its variants. *)
Lemma elem_of_matched_pages ms vars p :
  p ∈ matched_pages ms vars <->
  exists var s, var ∈ vars /\ ms !! var = Some s /\ p ∈ s.
Proof.
  unfold matched_pages. rewrite elem_of_union_list. split.
  - intros (X & HX & Hp). apply list_elem_of_fmap in HX as (var & -> & Hvar).
    apply elem_of_elements in Hvar.
    destruct (ms !! var) as [s|] eqn:Hs; simpl in Hp.
    + by exists var, s.
    + by apply not_elem_of_empty in Hp.
  - intros (var & s & Hvar & Hs & Hp). exists s. split; [|done].
    apply list_elem_of_fmap. exists var. rewrite Hs. split; [done|].
    by apply elem_of_elements.
Qed.

Lemma length_sorted (pgs : gset string) : length (sorted pgs) = size pgs.
Proof.
  unfold sorted. by rewrite (Permutation_length (merge_sort_Permutation _ _)).
Qed.

Lemma result_row_count ms u vars :
  match_count (result_row ms u vars)
  = min MAX_MATCH_PAGES_PER_QUERY (size (matched_pages ms vars)).
Proof.
  unfold result_row. cbn [match_count].
  by rewrite length_take, length_sorted.
Qed.

Lemma result_row_found ms u vars :
  found (result_row ms u vars)
  = bool_decide (0 < match_count (result_row ms u vars)).
Proof.
  unfold result_row. cbn [found match_count].
  destruct (take _ _) as [|p l]; cbn [length].
  - rewrite !bool_decide_eq_false_2; [done|lia|intros Hne; by apply Hne].
  - rewrite !bool_decide_eq_true_2; [done|lia|done].
Qed.

(** What the row of input [u] is, said without the program's own union:
    [P] is any set that holds exactly the pages of the table entries of
    the variants of [u]. *)
Definition row_reports (ms : gmap string (gset string))
    (u : string) (row : Row) : Prop :=
  queried_url row = u
  /\ exists vars,
      normalize_variants u = Some vars
      /\ forall P : gset string,
          (forall p, p ∈ P <->
                     exists var s, var ∈ vars /\ ms !! var = Some s /\ p ∈ s) ->
          match_count row = min MAX_MATCH_PAGES_PER_QUERY (size P)
          /\ match_count row <= MAX_MATCH_PAGES_PER_QUERY
          /\ found row = bool_decide (0 < match_count row).

(** C3, amended: [write_results] emits exactly one data row per input, in
    the order of the inputs, and the match_count of a row is the number
    of distinct pages in the table entries of the input's variants cut
    off at the cap: min(n, MAX_MATCH_PAGES_PER_QUERY).  It is the number
    itself only while that does not exceed the cap. *)
Theorem write_results_one_row_per_input
    (inputs : list string) (ms : gmap string (gset string)) :
  Forall (fun u => is_Some (normalize_variants u)) inputs ->
  exists rows,
    write_results inputs ms = Some rows
    /\ length rows = length inputs
    /\ Forall2 (row_reports ms) inputs rows.
Proof.
  intros Hall. unfold write_results.
  destruct (rebuild_total inputs Hall) as [m Hm]. rewrite Hm. simpl.
  pose proof (rebuild_lookup inputs m Hm) as Hlook.
  assert (Hsome : is_Some
            (mapM (fun u => vars ← m !! u; Some (result_row ms u vars)) inputs)).
  { apply mapM_is_Some, Forall_forall. intros u Hu.
    destruct (Hlook u Hu) as [_ [vars Hv]]. simpl. rewrite Hv. by eexists. }
  destruct Hsome as [rows Hrows]. exists rows. split; [done|].
  apply mapM_Some in Hrows. split.
  { symmetry. eapply Forall2_length, Hrows. }
  assert (Hin : Forall (fun u => m !! u = normalize_variants u) inputs).
  { apply Forall_forall. intros u Hu. by destruct (Hlook u Hu). }
  clear Hlook Hm Hall.
  induction Hrows as [|u row us rs Hrow _ IH]; [constructor|].
  apply Forall_cons_1 in Hin as [Hu Hin]. constructor; [|by apply IH].
  clear IH. simpl in Hrow. rewrite Hu in Hrow.
  destruct (normalize_variants u) as [vars|] eqn:Hn; simpl in Hrow; [|done].
  injection Hrow as <-. split; [done|]. exists vars. split; [exact Hn|].
  intros P HP.
  assert (P = matched_pages ms vars) as ->.
  { apply set_eq. intros p. by rewrite HP, elem_of_matched_pages. }
  rewrite result_row_found, result_row_count. split; [done|]. split; [lia|done].
Qed.

End Report.

(** C3 as stated fails: the variants of the input match 101 distinct
    pages, no table entry exceeds the cap, and the row reports 100. *)
Lemma write_results_count_counterexample :
  match @write_results plain_lib ["https://example.com/a"]
          two_variant_matches with
  | Some [row] => match_count row = 100
  | _ => False
  end
  /\ match @normalize_variants plain_lib "https://example.com/a" with
     | Some vars => size (matched_pages two_variant_matches vars) = 101
     | None => False
     end
  /\ size cap_pages = MAX_MATCH_PAGES_PER_QUERY.
Proof.
  split; [vm_compute; reflexivity|].
  split; vm_compute; reflexivity.
Qed.

(** Two inputs against a small table. *)
Lemma write_results_one_row_per_input_witness :
  exists rows,
    @write_results plain_lib ["https://www.example.com/a"; "zz"]
      {[ "example.com/a" := {[ "https://example.com/p2";
                                "https://example.com/p1" ]} ]}
    = Some rows
    /\ length rows = 2
    /\ Forall2 (@row_reports plain_lib
                  {[ "example.com/a" := {[ "https://example.com/p2";
                                           "https://example.com/p1" ]} ]})
         ["https://www.example.com/a"; "zz"] rows.
Proof.
  apply (@write_results_one_row_per_input plain_lib).
  repeat (apply Forall_cons_2 || apply Forall_nil_2);
    apply (bool_decide_unpack _); vm_compute; exact I.
Defined.

(** ** Robots rules that could not be loaded *)

Section RobotsFallback.
Context `{PyLib}.
Import Urllib.

(** A parser that has read nothing refuses every URL. *)
Lemma can_fetch_unread (useragent url : string) :
  Robots.can_fetch Robots.new_parser useragent url = Some false.
Proof. reflexivity. Qed.

(** A load that raises before parsing leaves the new parser as it was. *)
Lemma load_robots_raised (rps : gmap string Robots.RobotFileParser)
    (d : string) rps' :
  load_robots (fun _ => Robots.ReadRaised) rps d = Some rps' ->
  rps' = <[ d := Robots.new_parser ]> rps.
Proof.
  unfold load_robots. intros Hl.
  destruct (head (possible_base_urls d)) as [base|]; simpl in Hl; [|done].
  destruct (urljoin base "/robots.txt") as [robots_url|]; simpl in Hl;
    [|done].
  injection Hl as <-. by destruct (urlparse robots_url).
Qed.

(** After such a load the whole domain is refused: every URL in the scope
    of the domain that is not a binary is disallowed. *)
Lemma failed_load_refuses_domain (have_ahocorasick : bool)
    (pats : gset string) (d url : string) (sc : SiteScanner) :
  d <> "" ->
  init (fun _ => Robots.ReadRaised)
       (SiteScanner_new have_ahocorasick [d] pats) = Some sc ->
  same_domain url [d] = true ->
  is_binary_url url = Some false ->
  allowed sc url = Some false.
Proof.
  intros Hd Hinit Hsame Hbin. unfold init in Hinit. simpl in Hinit.
  destruct (load_robots _ _ d) as [rps|] eqn:Hl; simpl in Hinit; [|done].
  injection Hinit as <-. apply load_robots_raised in Hl as ->.
  unfold allowed. cbn [domains]. rewrite Hsame, Hbin. simpl.
  unfold robots_verdict. cbn [domains rp_by_domain].
  unfold same_domain in Hsame.
  destruct (urlparse url) as [p|]; [|done].
  simpl in Hsame. rewrite orb_false_r in Hsame.
  simpl. rewrite Hsame.
  apply nonempty_true in Hd. rewrite Hd.
  by rewrite lookup_insert_eq.
Qed.

(** C1, on the code: the robots.txt of example.com cannot be fetched (the
    load raises and [init] suppresses it); the page
    https://example.com/page is in the scope of the domain and is no
    binary, and [allowed] returns False for it. *)
Theorem allowed_after_failed_robots_load :
  match init (fun _ => Robots.ReadRaised)
             (SiteScanner_new true ["example.com"] ∅) with
  | Some sc =>
      same_domain "https://example.com/page" (domains sc) = true
      /\ is_binary_url "https://example.com/page" = Some false
      /\ allowed sc "https://example.com/page" = Some false
  | None => False
  end.
Proof. vm_compute. repeat split; reflexivity. Qed.

End RobotsFallback.

(** ** Sitemap discovery *)

Section Discovery.
Context `{PyLib}.
Import Urllib.

(** What a robots.txt answer contributes: the URL of every line that
    starts with the keyword, in any case, and names a URL. *)
Lemma elem_of_robots_sitemaps (status : Z) (raw sm : string) :
  sm ∈ robots_sitemaps status raw <->
  status = 200%Z /\ raw <> ""
  /\ exists line keyword rest,
      line ∈ Str.splitlines (decode_text raw)
      /\ Str.startswith (Str.lower line) "sitemap:" = true
      /\ Str.split_once ":" line = Some (keyword, rest)
      /\ sm = Str.strip rest /\ sm <> "".
Proof.
  unfold robots_sitemaps.
  destruct (status =? 200)%Z eqn:Hst; simpl.
  - apply Z.eqb_eq in Hst.
    destruct (nonempty raw) eqn:Hraw.
    + apply nonempty_true in Hraw.
      rewrite elem_of_list_to_set, list_elem_of_omap.
      unfold sitemap_line_url. split.
      * intros (line & Hline & Hsm).
        destruct (Str.startswith (Str.lower line) "sitemap:") eqn:Hkw;
          [|done].
        destruct (Str.split_once ":" line) as [[keyword rest]|] eqn:Hsp;
          [|done].
        destruct (nonempty (Str.strip rest)) eqn:Hne; [|done].
        injection Hsm as <-. apply nonempty_true in Hne.
        split; [done|]. split; [done|].
        by exists line, keyword, rest.
      * intros (_ & _ & line & keyword & rest & Hline & Hkw & Hsp & -> & Hne).
        exists line. split; [done|]. rewrite Hkw, Hsp.
        apply nonempty_true in Hne. by rewrite Hne.
    + apply nonempty_false in Hraw. split.
      * intros []%not_elem_of_empty.
      * by intros (_ & ? & _).
  - apply Z.eqb_neq in Hst. split.
    + intros []%not_elem_of_empty.
    + by intros (? & _).
Qed.

(** What the loop over the base URLs has done when it returns. *)
Lemma discover_bases_spec (net : Network) (bases : list string) :
  forall acc urls log,
    discover_bases net acc bases = Some (urls, log) ->
    acc.1 ⊆ urls
    /\ forall base, base ∈ bases ->
         exists robots_url default_url hist,
           urljoin base "/robots.txt" = Some robots_url
           /\ urljoin base "/sitemap.xml" = Some default_url
           /\ default_url ∈ urls
           /\ forall status raw,
               fetch_text_bytes (net hist robots_url) robots_url
                 = (status, raw) ->
               robots_sitemaps status raw ⊆ urls.
Proof.
  induction bases as [|b rest IH]; simpl; intros acc urls log Hd.
  - injection Hd as ->. split; [done|].
    intros base []%elem_of_nil.
  - destruct (discover_base net acc b) as [acc'|] eqn:Hb; simpl in Hd;
      [|done].
    destruct (IH _ _ _ Hd) as [Hsub Hrest].
    unfold discover_base in Hb.
    destruct (urljoin b "/robots.txt") as [robots_url|] eqn:Hr;
      simpl in Hb; [|done].
    destruct (fetch_text_bytes _ _) as [status raw] eqn:Hf.
    destruct (urljoin b "/sitemap.xml") as [default_url|] eqn:Hs;
      simpl in Hb; [|done].
    injection Hb as <-. simpl in Hsub. clear IH Hd. split.
    { etrans; [|exact Hsub]. by do 2 apply union_subseteq_l'. }
    intros base [->|Hbase]%elem_of_cons; [|by apply Hrest].
    exists robots_url, default_url, acc.2.
    split; [done|]. split; [done|]. split.
    { apply Hsub, elem_of_union_r. by apply elem_of_singleton. }
    intros status' raw' Hf'. rewrite Hf in Hf'.
    injection Hf' as <- <-. etrans; [|exact Hsub].
    apply union_subseteq_l', union_subseteq_r.
Qed.

Lemma discover_bases_raises (net : Network) (bases : list string) :
  forall acc,
    discover_bases net acc bases = None ->
    exists base, base ∈ bases
      /\ (urljoin base "/robots.txt" = None
          \/ urljoin base "/sitemap.xml" = None).
Proof.
  induction bases as [|b rest IH]; simpl; intros acc Hd; [done|].
  destruct (discover_base net acc b) as [acc'|] eqn:Hb; simpl in Hd.
  - destruct (IH _ Hd) as (base & Hbase & Hnone).
    exists base. split; [apply elem_of_cons; by right|done].
  - exists b. split; [apply elem_of_cons; by left|].
    unfold discover_base in Hb.
    destruct (urljoin b "/robots.txt"); simpl in Hb; [|by left].
    destruct (fetch_text_bytes _ _).
    destruct (urljoin b "/sitemap.xml"); simpl in Hb; [done|by right].
Qed.

End Discovery.


(** ** Classification of the entries of a urlset *)

Section StripFacts.



Lemma startswith_nil_r s : Str.startswith s "" = true.
Proof. by destruct s. Qed.

















End StripFacts.

Section UrlsetEntries.
Context `{PyLib}.
Import Urllib.



Lemma classify_locs_spec (locs : list Element) :
  (forall loc t,
      loc ∈ locs -> text loc = Some t -> t <> "" ->
      if is_sitemap_like (Str.strip t)
      then Str.strip t ∈ (classify_locs locs).1
      else Str.strip t ∈ (classify_locs locs).2)
  /\ (forall u, u ∈ (classify_locs locs).2 -> is_sitemap_like u = false).
Proof.
  induction locs as [|l rest [IH1 IH2]]; cbn [classify_locs].
  { split; [intros loc t []%elem_of_nil|intros u []%elem_of_nil]. }
  destruct (classify_locs rest) as [sms pgs]. cbn [fst snd] in *.
  assert (Hkeep : forall loc t,
             loc ∈ rest -> text loc = Some t -> t <> "" ->
             forall sms' pgs', sms ⊆ sms' -> pgs ⊆ pgs' ->
             if is_sitemap_like (Str.strip t)
             then Str.strip t ∈ sms' else Str.strip t ∈ pgs').
  { intros loc t Hl Ht Hne sms' pgs' Hs Hp.
    specialize (IH1 loc t Hl Ht Hne).
    destruct (is_sitemap_like (Str.strip t)); auto. }
  destruct (text l) as [tl|] eqn:Htl.
  2:{ split; [|done]. intros loc t [->|Hl]%elem_of_cons Ht Hne.
      - congruence.
      - by apply (Hkeep loc t Hl Ht Hne). }
  destruct (nonempty tl) eqn:Hnl.
  2:{ apply nonempty_false in Hnl. split; [|done].
      intros loc t [->|Hl]%elem_of_cons Ht Hne.
      - congruence.
      - by apply (Hkeep loc t Hl Ht Hne). }
  destruct (is_sitemap_like (Str.strip tl)) eqn:Hsl; cbn [fst snd]; split.
  - intros loc t [->|Hl]%elem_of_cons Ht Hne.
    + rewrite Htl in Ht. injection Ht as <-. rewrite Hsl.
      apply elem_of_cons. by left.
    + apply (Hkeep loc t Hl Ht Hne); [|done].
      intros x Hx. apply elem_of_cons. by right.
  - done.
  - intros loc t [->|Hl]%elem_of_cons Ht Hne.
    + rewrite Htl in Ht. injection Ht as <-. rewrite Hsl.
      apply elem_of_cons. by left.
    + apply (Hkeep loc t Hl Ht Hne); [done|].
      intros x Hx. apply elem_of_cons. by right.
  - intros u [->|Hu]%elem_of_cons; [done|by apply IH2].
Qed.


End UrlsetEntries.


Example parse_sitemap_xml_example :
  @parse_sitemap_xml plain_lib sample_urlset_text
  = (["https://example.com/news-sitemap.xml"], ["https://example.com/about"]).
Proof. vm_compute. reflexivity. Qed.

(** ** The sitemap traversal *)

Section TraversalFacts.
Context `{PyLib}.
Import Urllib.
Variable net : Network.
Variable hist0 : list string.
Variable ds : list string.
Variable MAX_PAGES : Z.

(** One round of the [while] loop: the condition holds and the body
    runs to its end. *)
Definition step (st st' : Traversal) : Prop :=
  loop_cond MAX_PAGES st = true
  /\ loop_body net hist0 ds MAX_PAGES st = Some st'.

Definition reachable (candidates : list string) (st : Traversal) : Prop :=
  rtc step (initial_traversal candidates) st.

Lemma same_domain_parses u : same_domain u ds = true -> is_Some (urlparse u).
Proof. unfold same_domain. destruct (urlparse u); [by eexists|done]. Qed.

Lemma urldefrag_parsed u : is_Some (urlparse u) -> is_Some (urldefrag u).
Proof.
  intros [p Hp]. unfold urldefrag. rewrite Hp.
  destruct (Str.mem "#" u); by eexists.
Qed.

(** The page loop raises nothing. *)
Lemma collect_pages_total (us : list string) : forall pgs,
  is_Some (collect_pages ds MAX_PAGES pgs us).
Proof.
  induction us as [|u us IH]; intros pgs; cbn [collect_pages]; [by eexists|].
  destruct (same_domain u ds) eqn:Hs; [|apply IH].
  pose proof (same_domain_parses u Hs) as Hp.
  destruct (urldefrag_parsed u Hp) as [d Hd].
  unfold is_binary_url. destruct Hp as [p ->]. cbn [mbind option_bind].
  destruct (existsb _ BINARY_EXTS); cbn [negb]; [apply IH|].
  rewrite Hd. cbn [mbind option_bind].
  destruct (MAX_PAGES <=? _)%Z; [by eexists|apply IH].
Qed.

(** It stops at the page cap. *)
Lemma collect_pages_bound (us : list string) : forall pgs pgs',
  (Z.of_nat (size pgs) < MAX_PAGES)%Z ->
  collect_pages ds MAX_PAGES pgs us = Some pgs' ->
  (Z.of_nat (size pgs') <= MAX_PAGES)%Z.
Proof.
  induction us as [|u us IH]; intros pgs pgs' Hlt; cbn [collect_pages].
  { intros [= <-]. lia. }
  destruct (same_domain u ds); [|by apply IH].
  destruct (is_binary_url u) as [b|]; cbn [mbind option_bind]; [|done].
  destruct b; cbn [negb]; [by apply IH|].
  destruct (urldefrag u) as [d|]; cbn [mbind option_bind]; [|done].
  pose proof (size_add_page d pgs) as Hadd.
  destruct (MAX_PAGES <=? Z.of_nat (size ({[d]} ∪ pgs)))%Z eqn:Hfull.
  - intros [= <-]. lia.
  - apply Z.leb_gt in Hfull. by apply IH.
Qed.

Lemma loop_body_total (st : Traversal) :
  is_Some (loop_body net hist0 ds MAX_PAGES st).
Proof.
  unfold loop_body. destruct (to_process st) as [|u rest]; [by eexists|].
  destruct (decide (u ∈ seen_sitemaps st)); [by eexists|].
  destruct (fetch_text_bytes _ _) as [status raw].
  destruct (_ || _); [by eexists|].
  destruct (negb (Str.startswith _ _)); [by eexists|].
  destruct (parse_sitemap_xml _) as [nested url_pages].
  destruct (collect_pages_total url_pages (pages st)) as [pgs ->].
  by eexists.
Qed.

(** The loop returns, in a state that the rounds lead to and in which its
    condition is false. *)
Lemma traverse_returns (st : Traversal) :
  exists final,
    traverse net hist0 ds MAX_PAGES st = Some final
    /\ rtc step st final
    /\ loop_cond MAX_PAGES final = false.
Proof.
  funelim (traverse net hist0 ds MAX_PAGES st).
  - exists st. split; [done|]. split; [apply rtc_refl|done].
  - destruct H0 as (final & Ht & Hsteps & Hend).
    exists final. split; [done|]. split; [|done].
    eapply rtc_l; [|exact Hsteps]. by split.
  - destruct (loop_body_total st) as [st' Hst']. congruence.
Qed.

(** The caps, as an invariant of the rounds. *)
Definition within_caps (st : Traversal) : Prop :=
  processed_count st <= SITEMAP_CAP
  /\ length (fetched st) = processed_count st
  /\ length (parsed st) <= processed_count st
  /\ (Z.of_nat (size (pages st)) <= MAX_PAGES)%Z.

Lemma step_within_caps st st' :
  within_caps st -> step st st' -> within_caps st'.
Proof.
  intros (Hc & Hf & Hp & Hs) [Hcond Hbody].
  unfold loop_cond in Hcond.
  apply andb_prop in Hcond as [Hcond Hcap]. apply Nat.ltb_lt in Hcap.
  apply andb_prop in Hcond as [_ Hpages]. apply Z.ltb_lt in Hpages.
  unfold loop_body in Hbody.
  destruct (to_process st) as [|u rest]; [by injection Hbody as <-|].
  destruct (decide (u ∈ seen_sitemaps st)); [by injection Hbody as <-|].
  destruct (fetch_text_bytes _ _) as [status raw].
  assert (Hskip : forall q s, within_caps
             (MkTraversal q s (S (processed_count st)) (pages st)
                          (u :: fetched st) (parsed st))).
  { intros q s. unfold within_caps. cbn. lia. }
  destruct (_ || _); [injection Hbody as <-; apply Hskip|].
  destruct (negb (Str.startswith _ _)); [injection Hbody as <-; apply Hskip|].
  destruct (parse_sitemap_xml _) as [nested url_pages].
  destruct (collect_pages _ _ _ _) as [pgs|] eqn:Hcol;
    cbn [mbind option_bind] in Hbody; [|done].
  injection Hbody as <-. unfold within_caps. cbn.
  pose proof (collect_pages_bound _ _ _ Hpages Hcol). lia.
Qed.

Lemma reachable_within_caps candidates st :
  (0 <= MAX_PAGES)%Z -> reachable candidates st -> within_caps st.
Proof.
  intros Hmax Hr. unfold reachable in Hr.
  assert (Hinit : within_caps (initial_traversal candidates)).
  { unfold within_caps, initial_traversal. cbn.
    rewrite size_empty. lia. }
  revert Hinit. induction Hr as [|a b c Hab _ IH]; [done|].
  intros Ha. apply IH. by apply (step_within_caps a).
Qed.

(** At a cap the loop is over. *)
Lemma no_step_at_cap st st' :
  SITEMAP_CAP <= processed_count st
  \/ (MAX_PAGES <= Z.of_nat (size (pages st)))%Z ->
  ~ step st st'.
Proof.
  intros Hcap [Hcond _]. unfold loop_cond in Hcond.
  apply andb_prop in Hcond as [Hcond Hc]. apply Nat.ltb_lt in Hc.
  apply andb_prop in Hcond as [_ Hp]. apply Z.ltb_lt in Hp. lia.
Qed.

(** C4: with a page cap that is not negative, the traversal of any
    candidates against any network returns, and in every state it goes
    through it has fetched and parsed at most SITEMAP_CAP documents and
    collected at most MAX_PAGES page URLs; in a state that has reached
    either cap no further round is made. *)
Theorem traversal_respects_caps (candidates : list string) :
  (0 <= MAX_PAGES)%Z ->
  (exists final,
      traverse net hist0 ds MAX_PAGES (initial_traversal candidates)
        = Some final
      /\ reachable candidates final
      /\ loop_cond MAX_PAGES final = false)
  /\ forall st, reachable candidates st ->
       processed_count st <= SITEMAP_CAP
       /\ length (fetched st) <= SITEMAP_CAP
       /\ length (parsed st) <= SITEMAP_CAP
       /\ (Z.of_nat (size (pages st)) <= MAX_PAGES)%Z
       /\ (SITEMAP_CAP <= processed_count st
           \/ (MAX_PAGES <= Z.of_nat (size (pages st)))%Z ->
           forall st', ~ step st st').
Proof.
  intros Hmax. split; [apply traverse_returns|].
  intros st Hr.
  destruct (reachable_within_caps candidates st Hmax Hr)
    as (Hc & Hf & Hp & Hs).
  repeat split; [lia..|done|].
  intros Hcap st'. by apply no_step_at_cap.
Qed.

(** No sitemap twice: the URLs fetched are distinct, all of them are
    marked as seen, and the parsed ones are some of the fetched ones. *)
Definition visited_once (st : Traversal) : Prop :=
  NoDup (fetched st)
  /\ (forall u, u ∈ fetched st -> u ∈ seen_sitemaps st)
  /\ parsed st `sublist_of` fetched st.

Lemma step_visited_once st st' :
  visited_once st -> step st st' -> visited_once st'.
Proof.
  intros (Hnd & Hseen & Hsub) [_ Hbody]. unfold loop_body in Hbody.
  destruct (to_process st) as [|u rest]; [by injection Hbody as <-|].
  destruct (decide (u ∈ seen_sitemaps st)) as [|Hnew];
    [by injection Hbody as <-|].
  destruct (fetch_text_bytes _ _) as [status raw].
  assert (Hlog : NoDup (u :: fetched st)
                 /\ forall v, v ∈ u :: fetched st ->
                              v ∈ ({[u]} ∪ seen_sitemaps st : gset string)).
  { split.
    - apply NoDup_cons. split; [|done]. intros Hu. by apply Hnew, Hseen.
    - intros v [->|Hv]%elem_of_cons.
      + apply elem_of_union_l. by apply elem_of_singleton.
      + by apply elem_of_union_r, Hseen. }
  destruct Hlog as [Hnd' Hseen'].
  assert (Hskip : forall q c p, visited_once
             (MkTraversal q ({[u]} ∪ seen_sitemaps st) c p
                          (u :: fetched st) (parsed st))).
  { intros q c p. split; [done|]. split; [done|]. by apply sublist_cons. }
  destruct (_ || _); [injection Hbody as <-; apply Hskip|].
  destruct (negb (Str.startswith _ _)); [injection Hbody as <-; apply Hskip|].
  destruct (parse_sitemap_xml _) as [nested url_pages].
  destruct (collect_pages _ _ _ _) as [pgs|];
    cbn [mbind option_bind] in Hbody; [|done].
  injection Hbody as <-.
  split; [done|]. split; [done|]. by apply sublist_skip.
Qed.

Lemma reachable_visited_once candidates st :
  reachable candidates st -> visited_once st.
Proof.
  unfold reachable. intros Hr.
  assert (Hinit : visited_once (initial_traversal candidates)).
  { split; [apply NoDup_nil_2|]. split; [|done].
    intros u []%elem_of_nil. }
  revert Hinit. induction Hr as [|a b c Hab _ IH]; [done|].
  intros Ha. apply IH. by apply (step_visited_once a).
Qed.

(** C5: in one traversal, whatever the candidates (repeated or not) and
    whatever the documents refer to, no sitemap URL is fetched twice and
    none is parsed twice: in every state the loop goes through, and in
    the state it returns, the fetched URLs are pairwise distinct and so
    are the parsed ones. *)
Theorem sitemap_visited_at_most_once (candidates : list string) :
  (exists final,
      traverse net hist0 ds MAX_PAGES (initial_traversal candidates)
        = Some final
      /\ NoDup (fetched final) /\ NoDup (parsed final))
  /\ forall st, reachable candidates st ->
       NoDup (fetched st) /\ NoDup (parsed st).
Proof.
  assert (Hall : forall st, reachable candidates st ->
                            NoDup (fetched st) /\ NoDup (parsed st)).
  { intros st Hr.
    destruct (reachable_visited_once candidates st Hr) as (Hnd & _ & Hsub).
    split; [done|]. by eapply sublist_NoDup. }
  split; [|exact Hall].
  destruct (traverse_returns (initial_traversal candidates))
    as (final & Ht & Hr & _).
  exists final. split; [done|]. by apply Hall.
Qed.

End TraversalFacts.

(** The set [gather_pages_from_sitemaps] returns is within the page
    cap. *)
Lemma gather_pages_within_cap `{PyLib} (net : Network) (MAX_PAGES : Z)
    (order : gset string -> list string) (ds : list string)
    (pgs : gset string) :
  (0 <= MAX_PAGES)%Z ->
  gather_pages_from_sitemaps net MAX_PAGES order ds = Some pgs ->
  (Z.of_nat (size pgs) <= MAX_PAGES)%Z.
Proof.
  intros Hmax. unfold gather_pages_from_sitemaps.
  destruct (discover_all net (∅, []) ds) as [fnd|];
    cbn [mbind option_bind]; [|done].
  destruct (traverse_returns net fnd.2 ds MAX_PAGES
              (initial_traversal (rev (order fnd.1)))) as (final & -> & Hr & _).
  cbn [mbind option_bind]. intros [= <-].
  by destruct (reachable_within_caps net fnd.2 ds MAX_PAGES
                 (rev (order fnd.1)) final Hmax Hr) as (_ & _ & _ & Hp).
Qed.

(** The default page cap, and the sitemap of example.com listed twice. *)
Lemma traversal_respects_caps_witness :
  exists final,
    @traverse plain_lib sitemap_net [] ["example.com"] 20000
      (initial_traversal ["https://example.com/sitemap.xml";
                          "https://example.com/sitemap.xml"])
    = Some final
    /\ processed_count final <= SITEMAP_CAP
    /\ (Z.of_nat (size (pages final)) <= 20000)%Z.
Proof.
  destruct (@traversal_respects_caps plain_lib sitemap_net []
              ["example.com"] 20000
              ["https://example.com/sitemap.xml";
               "https://example.com/sitemap.xml"])
    as [(final & Ht & Hr & _) Hall]; [lia|].
  exists final. split; [exact Ht|].
  destruct (Hall final Hr) as (Hc & _ & _ & Hp & _).
  split; [exact Hc|exact Hp].
Defined.

(** Two rounds on a worklist that names the sitemap twice: the first
    fetches and parses it, collects the page and enqueues the nested
    sitemap; the second finds the URL seen and fetches nothing. *)
Example traversal_rounds_example :
  let round := @loop_body plain_lib sitemap_net [] ["example.com"] 20000 in
  match round (initial_traversal ["https://example.com/sitemap.xml";
                                  "https://example.com/sitemap.xml"]) with
  | Some st1 =>
      to_process st1 = ["https://example.com/news-sitemap.xml";
                        "https://example.com/sitemap.xml"]
      /\ elements (pages st1) = ["https://example.com/about"]
      /\ fetched st1 = ["https://example.com/sitemap.xml"]
      /\ match round st1 with
         | Some st2 =>
             match round st2 with
             | Some st3 =>
                 to_process st3 = []
                 /\ fetched st3 = ["https://example.com/news-sitemap.xml";
                                   "https://example.com/sitemap.xml"]
                 /\ parsed st3 = ["https://example.com/sitemap.xml"]
                 /\ processed_count st3 = 2
             | None => False
             end
         | None => False
         end
  | None => False
  end.
Proof. vm_compute. repeat split; reflexivity. Qed.

(** ** The Aho-Corasick search *)

Section AhoFacts.
Import Aho.
Variable a : Automaton.

Lemma is_node_nil : is_node a [] = true.
Proof. done. Qed.

(** The nodes are closed under prefixes. *)
Lemma is_node_prefix s t : is_node a (s ++ t) = true -> is_node a s = true.
Proof.
  unfold is_node. intros [Hs|Hs]%orb_prop.
  - apply bool_decide_eq_true in Hs. by apply app_eq_nil in Hs as [-> _].
  - apply orb_true_iff. right.
    apply existsb_exists in Hs as (kv & Hin & Hp).
    apply existsb_exists. exists kv. split; [done|].
    apply bool_decide_eq_true in Hp. apply bool_decide_eq_true.
    etrans; [|exact Hp]. by apply prefix_app_r.
Qed.

Lemma get_Some k v :
  get k a = Some v <-> exists kv, List.find (fun kv => bool_decide (kv.1 = k)) a = Some kv /\ kv.2 = v.
Proof.
  unfold get. destruct (List.find _ a) as [kv|]; simpl; split.
  - intros [= <-]. by exists kv.
  - by intros (kv' & [= <-] & <-).
  - done.
  - by intros (kv' & ? & _).
Qed.

(** A stored key is a node. *)
Lemma is_node_key k v : get k a = Some v -> is_node a k = true.
Proof.
  intros (kv & Hf & _)%get_Some. apply find_some in Hf as [Hin Hk].
  apply bool_decide_eq_true in Hk. unfold is_node.
  apply orb_true_iff. right. apply existsb_exists. exists kv.
  split; [done|]. apply bool_decide_eq_true. by subst k.
Qed.

Lemma lns_suffix s : longest_node_suffix a s `suffix_of` s.
Proof.
  induction s as [|x s IH]; cbn [longest_node_suffix].
  - by destruct (is_node a []).
  - destruct (is_node a (x :: s)); [done|]. by apply suffix_cons_r.
Qed.

Lemma lns_of_node s : is_node a s = true -> longest_node_suffix a s = s.
Proof.
  intros Hs. destruct s as [|x s]; cbn [longest_node_suffix].
  - by destruct (is_node a []).
  - by rewrite Hs.
Qed.

Lemma lns_node s : is_node a (longest_node_suffix a s) = true.
Proof.
  induction s as [|x s IH]; cbn [longest_node_suffix]; [done|].
  by destruct (is_node a (x :: s)) eqn:Hx.
Qed.

(** It is the longest one: every suffix that is a node is a suffix of
    it. *)
Lemma lns_max s u :
  u `suffix_of` s -> is_node a u = true ->
  u `suffix_of` longest_node_suffix a s.
Proof.
  induction s as [|x s IH]; intros Hu Hn.
  - apply suffix_nil_inv in Hu as ->. by rewrite lns_of_node.
  - destruct u as [|y u]; [apply suffix_nil|].
    apply suffix_cons_inv in Hu as [Heq|Hu].
    + rewrite <- Heq. by rewrite lns_of_node.
    + cbn [longest_node_suffix]. destruct (is_node a (x :: s)).
      * by apply suffix_cons_r.
      * by apply IH.
Qed.

Lemma lns_snoc w c :
  longest_node_suffix a (w ++ [c])
  = longest_node_suffix a (longest_node_suffix a w ++ [c]).
Proof.
  induction w as [|x w IH]; [done|].
  destruct (is_node a (x :: w)) eqn:Hx.
  - by rewrite (lns_of_node (x :: w)).
  - assert (Hxc : is_node a ((x :: w) ++ [c]) = false).
    { destruct (is_node a ((x :: w) ++ [c])) eqn:Hc; [|done].
      apply is_node_prefix in Hc. congruence. }
    change (longest_node_suffix a ((x :: w) ++ [c]))
      with (if is_node a ((x :: w) ++ [c]) then (x :: w) ++ [c]
            else longest_node_suffix a (w ++ [c])).
    change (longest_node_suffix a (x :: w))
      with (if is_node a (x :: w) then x :: w
            else longest_node_suffix a w).
    by rewrite Hxc, Hx.
Qed.

(** The goto and failure steps together lead to the longest suffix of
    the extended word that is a node. *)
Lemma next_state_spec s c :
  next_state a s c = longest_node_suffix a (s ++ [c]).
Proof.
  funelim (next_state a s c).
  - unfold goto in Heq. destruct (is_node a (s ++ [c])) eqn:Hn; [|done].
    injection Heq as <-. by rewrite lns_of_node.
  - unfold goto in Heq.
    destruct (is_node a ([] ++ [c])) eqn:Hn; [done|].
    change ([] ++ [c]) with [c] in *.
    cbn [longest_node_suffix]. by rewrite Hn.
  - unfold goto in Heq.
    destruct (is_node a ((x :: s0) ++ [c])) eqn:Hn; [done|].
    rewrite H. cbn [fail]. rewrite <- lns_snoc.
    change ((x :: s0) ++ [c]) with (x :: (s0 ++ [c])) in *.
    cbn [longest_node_suffix]. by rewrite Hn.
Qed.

(** The failure links enumerate the keys that end at a node. *)
Lemma outputs_spec s v :
  v ∈ outputs a s <->
  exists k, k <> [] /\ k `suffix_of` s /\ get k a = Some v.
Proof.
  funelim (outputs a s).
  - split; [intros []%elem_of_nil|].
    intros (k & Hk & Hs & _). by apply suffix_nil_inv in Hs.
  - rewrite elem_of_app, H. cbn [fail]. split.
    + intros [Hv|(k & Hk & Hs & Hg)].
      * exists (x :: s0). split; [done|]. split; [done|].
        destruct (get (x :: s0) a) as [v'|]; simpl in Hv.
        -- by apply list_elem_of_singleton in Hv as ->.
        -- by apply elem_of_nil in Hv.
      * exists k. split; [done|]. split; [|done].
        apply suffix_cons_r. etrans; [exact Hs|apply lns_suffix].
    + intros (k & Hk & Hs & Hg).
      destruct k as [|y k]; [done|].
      apply suffix_cons_inv in Hs as [Heq|Hs].
      * left. rewrite <- Heq, Hg. simpl. by apply list_elem_of_singleton.
      * right. exists (y :: k). split; [done|]. split; [|done].
        apply lns_max; [done|]. by apply (is_node_key _ v).
Qed.

(** The search from the state reached on [pre]: what it reports on the
    rest of the text. *)
Lemma iter_from_spec text : forall pre n v,
  v ∈ (iter_from a (longest_node_suffix a pre) n text).*2 <->
  exists k t1 t2,
    text = t1 ++ t2 /\ t1 <> [] /\ k <> []
    /\ get k a = Some v /\ k `suffix_of` pre ++ t1.
Proof.
  induction text as [|c t IH]; intros pre n v; cbn [iter_from].
  { split; [intros []%elem_of_nil|].
    intros (k & t1 & t2 & Ht & Hne & _).
    symmetry in Ht. by apply app_eq_nil in Ht as [-> _]. }
  rewrite next_state_spec, <- lns_snoc.
  rewrite fmap_app, elem_of_app, IH.
  rewrite <- list_fmap_compose.
  assert (Hid : (snd ∘ (fun v0 : value => (n, v0))) = id) by done.
  rewrite Hid, list_fmap_id, outputs_spec. clear Hid. split.
  - intros [(k & Hk & Hs & Hg)|(k & t1 & t2 & -> & Hne & Hk & Hg & Hs)].
    + exists k, [c], t. repeat split; [done..|].
      etrans; [exact Hs|apply lns_suffix].
    + exists k, (c :: t1), t2. repeat split; [done..|].
      by rewrite <- app_assoc in Hs.
  - intros (k & t1 & t2 & Ht & Hne & Hk & Hg & Hs).
    destruct t1 as [|c' t1]; [done|].
    injection Ht as <- ->.
    destruct t1 as [|d t1].
    + left. exists k. split; [done|]. split; [|done].
      apply lns_max; [done|]. by apply (is_node_key _ v).
    + right. exists k, (d :: t1), t2. repeat split; [done..|].
      by rewrite <- app_assoc.
Qed.

(** [iter] reports exactly the values of the keys that occur in the
    text. *)
Lemma iter_spec text v :
  v ∈ (iter a text).*2 <->
  exists k l r, k <> [] /\ get k a = Some v /\ text = l ++ k ++ r.
Proof.
  unfold iter.
  rewrite <- (lns_of_node [] is_node_nil) at 1.
  rewrite iter_from_spec. split.
  - intros (k & t1 & t2 & -> & Hne & Hk & Hg & Hs).
    change ([] ++ t1) with t1 in Hs. destruct Hs as [l ->].
    exists k, l, t2. by rewrite <- app_assoc.
  - intros (k & l & r & Hk & Hg & ->).
    exists k, (l ++ k), r. rewrite <- app_assoc.
    repeat split; [|done..|by exists l].
    intros [_ ->]%app_eq_nil. done.
Qed.

End AhoFacts.

(** ** The two modes of the matcher *)

Section MatcherFacts.

(** [p] occurs as a substring of [t]. *)
Definition occurs_in (p t : string) : Prop :=
  exists l r, t = l +:+ p +:+ r.

Lemma chars_app s t :
  list_ascii_of_string (s +:+ t)
  = list_ascii_of_string s ++ list_ascii_of_string t.
Proof. induction s as [|c s IH]; [done|]. simpl. by rewrite IH. Qed.

Lemma chars_inj s t :
  list_ascii_of_string s = list_ascii_of_string t -> s = t.
Proof.
  intros Heq.
  rewrite <- (string_of_list_ascii_of_string s),
          <- (string_of_list_ascii_of_string t).
  by rewrite Heq.
Qed.

Lemma chars_nil s : list_ascii_of_string s = [] <-> s = "".
Proof. destruct s; simpl; split; congruence. Qed.

Lemma startswith_prefix s p :
  Str.startswith s p = true <->
  list_ascii_of_string p `prefix_of` list_ascii_of_string s.
Proof.
  revert s. induction p as [|c p IH]; intros s.
  - destruct s; simpl; split; auto using prefix_nil.
  - destruct s as [|d s]; simpl.
    + split; [done|]. intros Hp. by apply prefix_nil_inv in Hp.
    + rewrite andb_true_iff, Ascii.eqb_eq, IH. split.
      * intros [-> Hp]. by apply prefix_cons.
      * intros Hp. split.
        -- by apply prefix_cons_inv_1 in Hp.
        -- by apply prefix_cons_inv_2 in Hp.
Qed.

Lemma contains_infix p t :
  Str.contains p t = true <->
  exists l r, list_ascii_of_string t = l ++ list_ascii_of_string p ++ r.
Proof.
  induction t as [|d t IH]; cbn [Str.contains].
  - rewrite orb_false_r, startswith_prefix. split.
    + intros [r Hr]. by exists [], r.
    + intros (l & r & Hlr). simpl in Hlr. symmetry in Hlr.
      apply app_eq_nil in Hlr as [_ Hlr].
      apply app_eq_nil in Hlr as [-> _]. apply prefix_nil.
  - rewrite orb_true_iff, startswith_prefix, IH. split.
    + intros [[r Hr]|(l & r & Hlr)].
      * by exists [], r.
      * exists (d :: l), r. simpl. by rewrite Hlr.
    + intros (l & r & Hlr). destruct l as [|x l].
      * left. by exists r.
      * right. simpl in Hlr. injection Hlr as _ Hlr. by exists l, r.
Qed.

(** [p in t] decides whether [p] occurs in [t]. *)
Lemma occurs_in_contains p t : occurs_in p t <-> Str.contains p t = true.
Proof.
  rewrite contains_infix. split.
  - intros (l & r & ->).
    exists (list_ascii_of_string l), (list_ascii_of_string r).
    by rewrite !chars_app.
  - intros (l & r & Hlr).
    exists (string_of_list_ascii l), (string_of_list_ascii r).
    apply chars_inj.
    by rewrite !chars_app, !list_ascii_of_string_of_list_ascii.
Qed.

Lemma get_cons k k' v' (a : Aho.Automaton) :
  Aho.get k ((k', v') :: a)
  = if decide (k' = k) then Some v' else Aho.get k a.
Proof.
  unfold Aho.get. cbn [List.find fst].
  destruct (decide (k' = k)) as [Heq|Hne].
  - by rewrite bool_decide_eq_true_2.
  - by rewrite bool_decide_eq_false_2.
Qed.

Lemma get_filter_ne k k' (a : Aho.Automaton) :
  k <> k' ->
  Aho.get k (List.filter (fun kv => bool_decide (kv.1 ≠ k')) a) = Aho.get k a.
Proof.
  intros Hne. induction a as [|[k0 v0] a IH]; [done|].
  cbn [List.filter fst]. destruct (decide (k0 = k')) as [->|Hk0].
  - rewrite bool_decide_eq_false_2 by (intros Hx; by apply Hx).
    rewrite IH, get_cons. by rewrite decide_False by done.
  - rewrite bool_decide_eq_true_2 by done.
    rewrite !get_cons, IH. done.
Qed.

Lemma get_add_word k k' v' (a : Aho.Automaton) :
  k' <> [] ->
  Aho.get k (Aho.add_word k' v' a)
  = if decide (k' = k) then Some v' else Aho.get k a.
Proof.
  intros Hk'. destruct k' as [|c k']; [done|].
  cbn [Aho.add_word]. rewrite get_cons.
  repeat case_decide; try done.
  by rewrite get_filter_ne.
Qed.

Definition add_pattern (a : Aho.Automaton) (ip : nat * string)
  : Aho.Automaton :=
  let '(idx, pat) := ip in
  Aho.add_word (list_ascii_of_string pat) (idx, pat) a.

(** What the automaton holds after the words of [ips] have been added. *)
Lemma get_fold_add (ips : list (nat * string)) : forall a k v,
  NoDup ips.*2 ->
  (forall i p, (i, p) ∈ ips -> p <> "") ->
  Aho.get k (fold_left add_pattern ips a) = Some v <->
  (exists i p, (i, p) ∈ ips /\ k = list_ascii_of_string p /\ v = (i, p))
  \/ (Aho.get k a = Some v
      /\ forall i p, (i, p) ∈ ips -> list_ascii_of_string p <> k).
Proof.
  induction ips as [|[i0 p0] rest IH]; intros a k v Hnd Hne.
  { cbn [fold_left]. split.
    - intros Hg. right. split; [done|]. by intros i p ?%elem_of_nil.
    - intros [(i & p & []%elem_of_nil & _)|[Hg _]]; done. }
  cbn [fold_left]. rewrite fmap_cons in Hnd.
  apply NoDup_cons in Hnd as [Hfresh Hnd].
  assert (Hp0 : list_ascii_of_string p0 <> []).
  { intros Hnil%chars_nil. apply (Hne i0 p0); [|done].
    apply elem_of_cons. by left. }
  rewrite IH; [|done|].
  2:{ intros i p Hin. apply (Hne i p). apply elem_of_cons. by right. }
  cbn [add_pattern]. rewrite get_add_word by done. split.
  - intros [(i & p & Hin & -> & ->)|[Hg Hrest]].
    + left. exists i, p. split; [|done]. apply elem_of_cons. by right.
    + destruct (decide (list_ascii_of_string p0 = k)) as [<-|Hk].
      * injection Hg as <-. left. exists i0, p0.
        split; [|done]. apply elem_of_cons. by left.
      * right. split; [done|].
        intros i p [[= -> ->]|Hin]%elem_of_cons; [done|by eapply Hrest].
  - intros [(i & p & [[= -> ->]|Hin]%elem_of_cons & -> & ->)|[Hg Hall]].
    + right. rewrite decide_True by done. split; [done|].
      intros i p Hin Heq. apply chars_inj in Heq as ->.
      apply Hfresh. apply list_elem_of_fmap. by exists (i, p0).
    + left. by exists i, p.
    + right. rewrite decide_False.
      * split; [done|]. intros i p Hin. apply (Hall i p).
        apply elem_of_cons. by right.
      * apply (Hall i0 p0). apply elem_of_cons. by left.
Qed.

Lemma imap_pairs_snd (pl : list string) :
  (imap (fun idx pat => (idx, pat)) pl).*2 = pl.
Proof.
  assert (Hgen : forall (f : nat -> string -> nat * string),
             (forall i p, (f i p).2 = p) -> (imap f pl).*2 = pl).
  { induction pl as [|p l IH]; intros f Hf; [done|].
    cbn [imap fmap list_fmap]. rewrite Hf. f_equal.
    apply IH. intros i q. apply Hf. }
  by apply Hgen.
Qed.

Lemma get_build (pl : list string) k v :
  NoDup pl -> "" ∉ pl ->
  Aho.get k (build_automaton pl) = Some v <->
  exists i p, pl !! i = Some p /\ k = list_ascii_of_string p /\ v = (i, p).
Proof.
  intros Hnd Hne.
  change (build_automaton pl)
    with (fold_left add_pattern (imap (fun idx pat => (idx, pat)) pl) []).
  rewrite get_fold_add.
  - split.
    + intros [(i & p & Hin & -> & ->)|[Hg _]]; [|done].
      apply elem_of_lookup_imap in Hin as (j & q & [= -> ->] & Hq).
      by exists j, q.
    + intros (i & p & Hp & -> & ->). left. exists i, p.
      split; [|done]. apply elem_of_lookup_imap. by exists i, p.
  - by rewrite imap_pairs_snd.
  - intros i p Hin ->.
    apply elem_of_lookup_imap in Hin as (j & q & [= -> <-] & Hq).
    apply Hne. by eapply list_elem_of_lookup_2.
Qed.

(** The fallback scan. *)
Lemma elem_of_scan (pl : list string) (text p : string) :
  p ∈ (list_to_set
         (List.filter (fun q => Str.contains q text) pl) : gset string)
  <-> p ∈ pl /\ Str.contains p text = true.
Proof.
  rewrite elem_of_list_to_set, list_elem_of_In, filter_In.
  by rewrite <- list_elem_of_In.
Qed.

(** The search with the automaton of the patterns. *)
Lemma aho_search (pl : list string) (text : string) :
  NoDup pl -> "" ∉ pl ->
  exists found : list string,
    mapM (fun '(_, (idx, _)) => pl !! idx)
         (Aho.iter (build_automaton pl) (list_ascii_of_string text))
      = Some found
    /\ forall p, p ∈ found <-> p ∈ pl /\ Str.contains p text = true.
Proof.
  intros Hnd Hne.
  set (hits := Aho.iter (build_automaton pl) (list_ascii_of_string text)).
  assert (Hhit : forall x, x ∈ hits ->
             pl !! x.2.1 = Some x.2.2
             /\ Str.contains x.2.2 text = true).
  { intros x Hx.
    assert (Hv : x.2 ∈ hits.*2) by (apply list_elem_of_fmap; by exists x).
    apply iter_spec in Hv as (k & l & r & Hk & Hg & Htext).
    apply get_build in Hg as (i & p & Hp & -> & Hv); [|done..].
    rewrite Hv. split; [done|]. apply contains_infix. by exists l, r. }
  exists ((fun x => x.2.2) <$> hits). split.
  - apply mapM_Some. apply Forall2_fmap_r, Forall_Forall2_diag.
    apply Forall_forall. intros [n [idx pat]] Hx.
    by destruct (Hhit _ Hx) as [Hl _].
  - intros p. rewrite list_elem_of_fmap. split.
    + intros (x & -> & Hx). destruct (Hhit _ Hx) as [Hl Hc].
      split; [|done]. by eapply list_elem_of_lookup_2.
    + intros [Hp Hc]. apply list_elem_of_lookup_1 in Hp as [i Hi].
      apply contains_infix in Hc as (l & r & Htext).
      assert (Hv : (i, p) ∈ hits.*2).
      { apply iter_spec. exists (list_ascii_of_string p), l, r.
        split; [|split; [|done]].
        - intros Hnil%chars_nil. subst p. apply Hne.
          by eapply list_elem_of_lookup_2.
        - apply get_build; [done..|]. by exists i, p. }
      apply list_elem_of_fmap in Hv as (x & Hx2 & Hx).
      exists x. split; [|done]. destruct x as [n [j q]].
      simpl in Hx2. by injection Hx2 as _ ->.
Qed.

Lemma contains_in_empty p : Str.contains p "" = true -> p = "".
Proof. destruct p; [done|]. by simpl. Qed.

(** C2, amended: for every pattern set without the empty string and every
    text, the matcher built with the automaton and the matcher built
    without it return the same set, and that set holds exactly the
    patterns that occur in the text, also when patterns are substrings of
    one another.  (On the empty text [find_in] returns the empty set at
    once, so the empty pattern, which occurs in every text, is not
    reported there.) *)
Theorem matcher_modes_agree (P : gset string) (text : string) :
  "" ∉ P ->
  exists found : gset string,
    find_in (Matcher_init true P) text = Some found
    /\ find_in (Matcher_init false P) text = Some found
    /\ forall p, p ∈ found <-> p ∈ P /\ occurs_in p text.
Proof.
  intros Hne.
  assert (Hpl : "" ∉ elements P) by (by rewrite elem_of_elements).
  pose proof (NoDup_elements P) as Hnd.
  exists (list_to_set
            (List.filter (fun q => Str.contains q text) (elements P))).
  assert (Hspec : forall p,
             p ∈ (list_to_set
                    (List.filter (fun q => Str.contains q text)
                                 (elements P)) : gset string)
             <-> p ∈ P /\ occurs_in p text).
  { intros p. by rewrite elem_of_scan, elem_of_elements, occurs_in_contains. }
  split; [|split; [|exact Hspec]].
  - unfold find_in, Matcher_init, aho_usable.
    cbn [use_aho aho patterns_list].
    destruct (Urllib.nonempty text) eqn:Htext; cbn [negb].
    + destruct (0 <? Aho.len (build_automaton (elements P))); [|done].
      destruct (aho_search (elements P) text Hnd Hpl) as (found & -> & Hf).
      cbn [fmap option_fmap option_map]. f_equal.
      apply set_eq. intros p.
      by rewrite elem_of_list_to_set, Hf, elem_of_scan.
    + apply nonempty_false in Htext as ->. f_equal. symmetry.
      apply set_eq. intros p. rewrite elem_of_scan. split.
      * intros [Hp ->%contains_in_empty]. done.
      * intros []%not_elem_of_empty.
  - unfold find_in, Matcher_init, aho_usable.
    cbn [use_aho aho patterns_list].
    destruct (Urllib.nonempty text) eqn:Htext; cbn [negb]; [done|].
    apply nonempty_false in Htext as ->. f_equal. symmetry.
    apply set_eq. intros p. rewrite elem_of_scan. split.
    + intros [Hp ->%contains_in_empty]. done.
    + intros []%not_elem_of_empty.
Qed.

End MatcherFacts.

(** The patterns of the specification's example, one a substring of the
    other, in the text "see example.com/a/b". *)
Lemma matcher_modes_agree_witness :
  exists found : gset string,
    find_in (Matcher_init true {[ "example.com"; "example.com/a" ]})
            "see example.com/a/b" = Some found
    /\ find_in (Matcher_init false {[ "example.com"; "example.com/a" ]})
               "see example.com/a/b" = Some found
    /\ forall p, p ∈ found <->
                 p ∈ ({[ "example.com"; "example.com/a" ]} : gset string)
                 /\ occurs_in p "see example.com/a/b".
Proof.
  apply matcher_modes_agree.
  apply (bool_decide_unpack _). vm_compute. exact I.
Defined.

Example find_in_example :
  elements <$> find_in (Matcher_init true
                          {[ "example.com"; "example.com/a"; "other.org" ]})
                       "see example.com/a/b"
  = Some ["example.com/a"; "example.com"]
  /\ elements <$> find_in (Matcher_init false
                             {[ "example.com"; "example.com/a"; "other.org" ]})
                          "see example.com/a/b"
     = Some ["example.com/a"; "example.com"].
Proof. split; vm_compute; reflexivity. Qed.

(** C2 as stated fails on the empty text: the empty pattern is a member
    of the set and a substring of the text, and neither mode returns
    it. *)
Lemma matcher_empty_text_counterexample :
  find_in (Matcher_init true {[ "" ]}) "" = Some ∅
  /\ find_in (Matcher_init false {[ "" ]}) "" = Some ∅
  /\ "" ∈ ({[ "" ]} : gset string)
  /\ occurs_in "" "".
Proof.
  split; [reflexivity|]. split; [reflexivity|].
  split; [by apply elem_of_singleton|]. by exists "", "".
Qed.

(** ** Discovery on host names *)

Section HostNames.
Context `{PyLib}.
Import Urllib.

(** A domain written with letters, digits, hyphens and dots. *)
Definition hostname_char (c : ascii) : bool :=
  Str.is_alpha_ascii c || Str.is_digit c
  || Ascii.eqb c "-" || Ascii.eqb c ".".

Definition is_hostname (d : string) : bool := Str.forallb hostname_char d.

Lemma hostname_char_facts c :
  hostname_char c = true ->
  is_unsafe_byte c = false
  /\ Str.mem c "/?#" = false
  /\ Ascii.eqb "[" c = false /\ Ascii.eqb "]" c = false
  /\ Str.isascii_char c = true.
Proof. destruct c as [[] [] [] [] [] [] [] []]; by vm_compute. Qed.

Lemma hostname_remove_unsafe d : is_hostname d = true -> remove_unsafe d = d.
Proof.
  unfold is_hostname, remove_unsafe.
  induction d as [|c d IH]; [done|]. cbn [Str.forallb Str.filter].
  intros [Hc Hd]%andb_prop.
  destruct (hostname_char_facts c Hc) as (-> & _). cbn [negb].
  by rewrite IH.
Qed.

Lemma hostname_break d :
  is_hostname d = true -> Str.break (fun c => Str.mem c "/?#") d = (d, "").
Proof.
  unfold is_hostname.
  induction d as [|c d IH]; [done|]. cbn [Str.forallb Str.break].
  intros [Hc Hd]%andb_prop.
  destruct (hostname_char_facts c Hc) as (_ & -> & _).
  by rewrite IH.
Qed.

Lemma hostname_no_char (x : ascii) d :
  (forall c, hostname_char c = true -> Ascii.eqb x c = false) ->
  is_hostname d = true -> Str.mem x d = false.
Proof.
  unfold is_hostname. intros Hx.
  induction d as [|c d IH]; [done|]. cbn [Str.forallb Str.mem].
  intros [Hc Hd]%andb_prop. by rewrite (Hx c Hc), IH.
Qed.

Lemma hostname_isascii d : is_hostname d = true -> Str.isascii d = true.
Proof.
  unfold is_hostname, Str.isascii.
  induction d as [|c d IH]; [done|]. cbn [Str.forallb].
  intros [Hc Hd]%andb_prop.
  destruct (hostname_char_facts c Hc) as (_ & _ & _ & _ & ->).
  by rewrite IH.
Qed.

Lemma hostname_accepted d : is_hostname d = true -> netloc_accepted d = true.
Proof.
  intros Hd. unfold netloc_accepted.
  assert (Ho : Str.mem "[" d = false).
  { apply hostname_no_char; [|done]. intros c Hc.
    by destruct (hostname_char_facts c Hc) as (_ & _ & ? & _). }
  assert (Hc : Str.mem "]" d = false).
  { apply hostname_no_char; [|done]. intros c Hc.
    by destruct (hostname_char_facts c Hc) as (_ & _ & _ & ? & _). }
  rewrite Ho, Hc, (hostname_isascii d Hd). cbn [xorb negb andb orb].
  by rewrite orb_true_r.
Qed.

(** The base URL of a host name parses into its scheme and host. *)
Lemma urlparse_base d :
  is_hostname d = true ->
  urlparse_with ("https://" +:+ d) ""
  = Some (MkParseResult "https" d "" "" "" "").
Proof.
  intros Hd. unfold urlparse_with.
  assert (E1 : Str.lstrip_by is_c0_or_space ("https://" +:+ d)
               = "https://" +:+ d) by reflexivity.
  assert (E2 : remove_unsafe ("https://" +:+ d) = "https://" +:+ d).
  { transitivity ("https://" +:+ remove_unsafe d); [reflexivity|].
    by rewrite (hostname_remove_unsafe d Hd). }
  assert (E3 : split_scheme ("https://" +:+ d)
                 (remove_unsafe (Str.strip_by is_c0_or_space ""))
               = ("https", "//" +:+ d)) by (vm_compute; reflexivity).
  assert (E4 : Str.startswith ("//" +:+ d) "//" = true)
    by (by destruct d).
  assert (E5 : splitnetloc ("//" +:+ d) = (d, "")).
  { transitivity (Str.break (fun c => Str.mem c "/?#") d); [reflexivity|].
    apply (hostname_break d Hd). }
  rewrite E1, E2, E3, E4, E5. cbv beta iota zeta.
  assert (E6 : Str.split_once "#" "" = None) by reflexivity.
  assert (E7 : Str.split_once "?" "" = None) by reflexivity.
  rewrite E6. cbv beta iota zeta. rewrite E7. cbv beta iota zeta.
  rewrite (hostname_accepted d Hd). reflexivity.
Qed.

Lemma urlunparse_base d (path : string) :
  Str.take 1 path = "/" ->
  String.eqb (Str.take 2 path) "//" = false ->
  urlunparse "https" d path "" "" "" = "https://" +:+ d +:+ path.
Proof.
  intros Hp Hpp. unfold urlunparse, urlunsplit. cbn [nonempty].
  assert (E : in_list "https" uses_netloc = true) by (vm_compute; reflexivity).
  rewrite E, Hp, Hpp.
  assert (E2 : String.eqb "/" "/" = true) by reflexivity.
  rewrite E2. cbn [negb andb]. rewrite andb_false_r, orb_true_r.
  reflexivity.
Qed.

Lemma urljoin_base d (path : string) :
  is_hostname d = true ->
  path = "/robots.txt" \/ path = "/sitemap.xml" ->
  urljoin ("https://" +:+ d) path = Some ("https://" +:+ d +:+ path).
Proof.
  intros Hd Hpath. unfold urljoin.
  assert (E1 : nonempty ("https://" +:+ d) = true) by reflexivity.
  assert (E2 : nonempty path = true) by (by destruct Hpath as [->| ->]).
  rewrite E1, E2. cbn [negb]. rewrite (urlparse_base d Hd). cbn [scheme].
  assert (E3 : urlparse_with path "https"
               = Some (MkParseResult "https" "" path "" "" "")).
  { destruct Hpath as [->| ->]; vm_compute; reflexivity. }
  rewrite E3. cbn [scheme netloc Urllib.path params query fragment].
  assert (E4 : negb (String.eqb "https" "https")
               || negb (in_list "https" uses_relative) = false)
    by (vm_compute; reflexivity).
  assert (E5 : in_list "https" uses_netloc = true)
    by (vm_compute; reflexivity).
  rewrite E4, E5, E2. cbn [nonempty andb negb].
  assert (E6 : Str.take 1 path = "/") by (by destruct Hpath as [->| ->]).
  assert (E7 : resolve_path (Str.split "/" path) = path).
  { destruct Hpath as [->| ->]; vm_compute; reflexivity. }
  rewrite E6. assert (E8 : String.eqb "/" "/" = true) by reflexivity.
  rewrite E8, E7. f_equal.
  apply urlunparse_base; [done|by destruct Hpath as [->| ->]].
Qed.

(** On a host name the discovery returns, and the default candidate is
    https://<domain>/sitemap.xml. *)
Lemma discover_returns_on_hostname (net : Network) (hist : list string)
    (domain : string) :
  is_hostname domain = true ->
  exists urls,
    discover_sitemap_urls net hist domain
      = Some (urls, ["https://" +:+ domain +:+ "/robots.txt"] ++ hist)
    /\ "https://" +:+ domain +:+ "/sitemap.xml" ∈ urls.
Proof.
  intros Hd. unfold discover_sitemap_urls, possible_base_urls, SCHEMES.
  cbn [fmap list_fmap discover_bases]. unfold discover_base.
  rewrite !(urljoin_base domain) by auto.
  cbn [mbind option_bind snd fst].
  destruct (fetch_text_bytes _ _) as [status raw].
  cbn [mbind option_bind]. eexists. split; [reflexivity|].
  apply elem_of_union_r. by apply elem_of_singleton.
Qed.

(** The requests of the loop over the base URLs, one by one: the
    robots.txt of a base is asked for after those of the bases before
    it, and what its answer contributes is in the result. *)
Lemma discover_bases_requests (net : Network) (bases : list string) :
  forall acc urls log,
    discover_bases net acc bases = Some (urls, log) ->
    forall earlier base later,
      bases = earlier ++ base :: later ->
      exists robots_url default_url,
        urljoin base "/robots.txt" = Some robots_url
        /\ urljoin base "/sitemap.xml" = Some default_url
        /\ default_url ∈ urls
        /\ forall status raw,
             fetch_text_bytes
               (net (rev (omap (fun b => urljoin b "/robots.txt") earlier)
                     ++ acc.2) robots_url) robots_url
               = (status, raw) ->
             robots_sitemaps status raw ⊆ urls.
Proof.
  induction bases as [|b rest IH]; intros acc urls log Hd earlier base later
    Hsplit.
  { by destruct earlier. }
  cbn [discover_bases] in Hd.
  destruct (discover_base net acc b) as [acc'|] eqn:Hb;
    cbn [mbind option_bind] in Hd; [|done].
  pose proof (discover_bases_spec _ _ _ _ _ Hd) as [Hsub _].
  unfold discover_base in Hb.
  destruct (urljoin b "/robots.txt") as [robots_b|] eqn:Hr;
    cbn [mbind option_bind] in Hb; [|done].
  destruct (fetch_text_bytes _ _) as [status_b raw_b] eqn:Hf.
  destruct (urljoin b "/sitemap.xml") as [default_b|] eqn:Hs;
    cbn [mbind option_bind] in Hb; [|done].
  injection Hb as <-. cbn [fst snd] in *.
  destruct earlier as [|e earlier].
  - injection Hsplit as -> ->. exists robots_b, default_b.
    split; [done|]. split; [done|]. split.
    { apply Hsub, elem_of_union_r. by apply elem_of_singleton. }
    cbn [omap list_omap rev app]. intros status raw Hf'.
    rewrite Hf in Hf'. injection Hf' as <- <-.
    etrans; [|exact Hsub]. apply union_subseteq_l', union_subseteq_r.
  - injection Hsplit as -> ->.
    destruct (IH _ _ _ Hd earlier base later eq_refl)
      as (robots_url & default_url & Hru & Hdu & Hin & Hlines).
    exists robots_url, default_url.
    split; [done|]. split; [done|]. split; [done|].
    cbn [omap list_omap]. rewrite Hr. cbn [rev snd] in *.
    by rewrite <- app_assoc.
Qed.

(** What [fetch_text_bytes] hands on of a response with status 200: the
    body, inflated when the URL or the content type says gzip and the
    body inflates. *)
Lemma fetch_text_bytes_200 (url raw ctype body : string) :
  (if Str.endswith (Str.lower url) ".gz"
      || Str.contains "application/gzip" (Str.lower ctype)
      || Str.contains "application/x-gzip" (Str.lower ctype)
   then gzip_decompress raw = Inflated body
        \/ (gzip_decompress raw = GzipOSError /\ body = raw)
   else body = raw) ->
  fetch_text_bytes (HttpResponse 200 raw ctype) url = (200%Z, body).
Proof.
  unfold fetch_text_bytes. cbn [Z.eqb Pos.eqb negb].
  destruct (_ || _ || _).
  - by intros [->|[-> ->]].
  - by intros ->.
Qed.

(** C8: on a host name [discover_sitemap_urls] returns; and whenever it
    returns, its set holds for every configured scheme the default
    /sitemap.xml URL of the domain, whatever the robots.txt request of
    that scheme was answered, and, when that request (made after those of
    the schemes before it) is answered with status 200 and the body that
    is read from the response (inflated when it is marked as gzip and
    inflates) is not empty, the URL of every line of that body that
    starts with "sitemap:" in any case and names a URL.  It fails to
    return only when [urljoin] raises on the base URL. *)
Theorem discover_includes_defaults_and_robots_lines
    (net : Network) (hist : list string) (domain : string) :
  (is_hostname domain = true ->
   is_Some (discover_sitemap_urls net hist domain))
  /\
  match discover_sitemap_urls net hist domain with
  | Some (urls, _) =>
      forall earlier scheme later,
        SCHEMES = earlier ++ scheme :: later ->
        exists robots_url default_url,
          urljoin (scheme +:+ "://" +:+ domain) "/robots.txt"
            = Some robots_url
          /\ urljoin (scheme +:+ "://" +:+ domain) "/sitemap.xml"
             = Some default_url
          /\ default_url ∈ urls
          /\ forall raw ctype body,
              net (rev (omap (fun s => urljoin (s +:+ "://" +:+ domain)
                                               "/robots.txt") earlier)
                   ++ hist) robots_url
                = HttpResponse 200 raw ctype ->
              (if Str.endswith (Str.lower robots_url) ".gz"
                  || Str.contains "application/gzip" (Str.lower ctype)
                  || Str.contains "application/x-gzip" (Str.lower ctype)
               then gzip_decompress raw = Inflated body
                    \/ (gzip_decompress raw = GzipOSError /\ body = raw)
               else body = raw) ->
              body <> "" ->
              forall line keyword rest,
                line ∈ Str.splitlines (decode_text body) ->
                Str.startswith (Str.lower line) "sitemap:" = true ->
                Str.split_once ":" line = Some (keyword, rest) ->
                Str.strip rest <> "" ->
                Str.strip rest ∈ urls
  | None =>
      exists scheme, scheme ∈ SCHEMES
        /\ (urljoin (scheme +:+ "://" +:+ domain) "/robots.txt" = None
            \/ urljoin (scheme +:+ "://" +:+ domain) "/sitemap.xml" = None)
  end.
Proof.
  split.
  { intros Hd.
    destruct (discover_returns_on_hostname net hist domain Hd)
      as (urls & -> & _).
    by eexists. }
  unfold discover_sitemap_urls, possible_base_urls.
  destruct (discover_bases net (∅, hist) _) as [[urls log]|] eqn:Hd.
  - intros earlier scheme later Hsplit.
    destruct (discover_bases_requests _ _ _ _ _ Hd
                ((fun s => s +:+ "://" +:+ domain) <$> earlier)
                (scheme +:+ "://" +:+ domain)
                ((fun s => s +:+ "://" +:+ domain) <$> later))
      as (robots_url & default_url & Hr & Hs & Hdef & Hlines).
    { by rewrite Hsplit, fmap_app, fmap_cons. }
    exists robots_url, default_url.
    split; [done|]. split; [done|]. split; [done|].
    intros raw ctype body Hnet Hbody Hne line keyword rest Hline Hkw Hsp Hsm.
    assert (Hlog : omap (fun b => urljoin b "/robots.txt")
                     ((fun s => s +:+ "://" +:+ domain) <$> earlier)
                   = omap (fun s => urljoin (s +:+ "://" +:+ domain)
                                            "/robots.txt") earlier).
    { clear. induction earlier as [|e es IH]; [done|].
      cbn [fmap list_fmap omap list_omap]. cbn [fmap list_fmap] in IH.
      by rewrite IH. }
    rewrite Hlog in Hlines. cbn [snd] in Hlines.
    apply (Hlines 200%Z body).
    { rewrite Hnet. by apply fetch_text_bytes_200. }
    apply elem_of_robots_sitemaps.
    split; [done|]. split; [done|]. by exists line, keyword, rest.
  - destruct (discover_bases_raises _ _ _ Hd) as (base & Hbase & Hnone).
    apply list_elem_of_fmap in Hbase as (scheme & -> & Hscheme).
    by exists scheme.
Qed.

End HostNames.

(** A robots.txt with a mixed-case Sitemap line, and one that cannot be
    fetched: the default candidate is there both times. *)
Example discover_example :
  match @discover_sitemap_urls plain_lib robots_net [] "example.com" with
  | Some (urls, log) =>
      elements urls = ["https://example.com/sm1.xml";
                       "https://example.com/sitemap.xml"]
      /\ log = ["https://example.com/robots.txt"]
  | None => False
  end
  /\ match @discover_sitemap_urls plain_lib (fun _ _ => HttpRaised) []
             "example.com" with
     | Some (urls, _) => elements urls = ["https://example.com/sitemap.xml"]
     | None => False
     end.
Proof. split; vm_compute; split || idtac; reflexivity. Qed.

(** The robots.txt of example.com is answered with status 200 and a
    mixed-case Sitemap line: the line's URL is returned beside the
    default candidate. *)
Lemma discover_includes_defaults_and_robots_lines_witness :
  match @discover_sitemap_urls plain_lib robots_net [] "example.com" with
  | Some (urls, _) =>
      "https://example.com/sitemap.xml" ∈ urls
      /\ "https://example.com/sm1.xml" ∈ urls
  | None => False
  end.
Proof.
  destruct (@discover_includes_defaults_and_robots_lines plain_lib
              robots_net [] "example.com") as [Hret Hin].
  destruct (@discover_sitemap_urls plain_lib robots_net [] "example.com")
    as [[urls log]|].
  - destruct (Hin [] "https" [] eq_refl)
      as (robots_url & default_url & Hr & Hs & Hdef & Hlines).
    assert (Er : @Urllib.urljoin plain_lib
                   ("https" +:+ "://" +:+ "example.com") "/robots.txt"
                 = Some "https://example.com/robots.txt")
      by (vm_compute; reflexivity).
    assert (Es : @Urllib.urljoin plain_lib
                   ("https" +:+ "://" +:+ "example.com") "/sitemap.xml"
                 = Some "https://example.com/sitemap.xml")
      by (vm_compute; reflexivity).
    rewrite Er in Hr. rewrite Es in Hs.
    injection Hr as <-. injection Hs as <-. split; [exact Hdef|].
    cbn [omap list_omap rev app] in Hlines.
    specialize (Hlines ("User-agent: *" +:+ String "010"
                          "SiteMap:  https://example.com/sm1.xml ")
                       "text/plain"
                       ("User-agent: *" +:+ String "010"
                          "SiteMap:  https://example.com/sm1.xml ")).
    assert (Egz : Str.endswith (Str.lower "https://example.com/robots.txt")
                    ".gz"
                  || Str.contains "application/gzip" (Str.lower "text/plain")
                  || Str.contains "application/x-gzip"
                       (Str.lower "text/plain") = false)
      by (vm_compute; reflexivity).
    rewrite Egz in Hlines.
    assert (Enet : robots_net [] "https://example.com/robots.txt"
                   = HttpResponse 200
                       ("User-agent: *" +:+ String "010"
                          "SiteMap:  https://example.com/sm1.xml ")
                       "text/plain")
      by (vm_compute; reflexivity).
    specialize (Hlines Enet eq_refl).
    assert (Hne : "User-agent: *" +:+ String "010"
                    "SiteMap:  https://example.com/sm1.xml " <> "")
      by discriminate.
    specialize (Hlines Hne "SiteMap:  https://example.com/sm1.xml "
                  "SiteMap" "  https://example.com/sm1.xml ").
    assert (El : Str.splitlines
                   (@decode_text plain_lib
                      ("User-agent: *" +:+ String "010"
                         "SiteMap:  https://example.com/sm1.xml "))
                 = ["User-agent: *";
                    "SiteMap:  https://example.com/sm1.xml "])
      by (vm_compute; reflexivity).
    rewrite El in Hlines.
    assert (Ekw : Str.startswith
                    (Str.lower "SiteMap:  https://example.com/sm1.xml ")
                    "sitemap:" = true)
      by (vm_compute; reflexivity).
    assert (Esp : Str.split_once ":" "SiteMap:  https://example.com/sm1.xml "
                  = Some ("SiteMap", "  https://example.com/sm1.xml "))
      by (vm_compute; reflexivity).
    assert (Est : Str.strip "  https://example.com/sm1.xml "
                  = "https://example.com/sm1.xml")
      by (vm_compute; reflexivity).
    rewrite Est in Hlines. apply Hlines; [|exact Ekw|exact Esp|discriminate].
    apply elem_of_cons. right. apply elem_of_cons. by left.
  - destruct (Hret eq_refl) as [x Hx]. discriminate Hx.
Defined.

(** ** Fragments *)

Section Fragments.
Context `{PyLib}.
Import Urllib.

(** [s] has no "#". *)
Definition no_hash (s : string) : Prop := Str.mem "#" s = false.

Lemma mem_app c a b : Str.mem c (a +:+ b) = Str.mem c a || Str.mem c b.
Proof.
  induction a as [|x a IH]; [done|]. simpl.
  by rewrite IH, orb_assoc.
Qed.

Lemma no_hash_app a b : no_hash (a +:+ b) <-> no_hash a /\ no_hash b.
Proof. unfold no_hash. rewrite mem_app. apply orb_false_iff. Qed.

Ltac split_hash :=
  repeat match goal with
         | Hh : no_hash (_ +:+ _) |- _ => apply no_hash_app in Hh as [? ?]
         | |- no_hash (_ +:+ _) => apply no_hash_app; split
         | |- _ /\ _ => split
         end.

Lemma split_once_app c s a b :
  Str.split_once c s = Some (a, b) ->
  s = a +:+ String c b /\ Str.mem c a = false.
Proof.
  revert a. induction s as [|x s IH]; intros a; cbn [Str.split_once]; [done|].
  destruct (Ascii.eqb x c) eqn:Hx.
  - apply Ascii.eqb_eq in Hx as ->. by intros [= <- <-].
  - destruct (Str.split_once c s) as [[l r]|]; [|done].
    intros [= <- <-]. destruct (IH l eq_refl) as [-> Hl].
    split; [done|]. cbn [Str.mem]. rewrite Ascii.eqb_sym, Hx. done.
Qed.

Lemma split_once_None c s : Str.split_once c s = None -> Str.mem c s = false.
Proof.
  induction s as [|x s IH]; cbn [Str.split_once Str.mem]; [done|].
  destruct (Ascii.eqb x c) eqn:Hx; [done|].
  destruct (Str.split_once c s) as [[l r]|]; [done|].
  intros _. rewrite Ascii.eqb_sym, Hx. by apply IH.
Qed.

Lemma rsplit_once_app c s a b :
  Str.rsplit_once c s = Some (a, b) -> s = a +:+ String c b.
Proof.
  revert a. induction s as [|x s IH]; intros a; cbn [Str.rsplit_once]; [done|].
  destruct (Str.rsplit_once c s) as [[l r]|].
  - intros [= <- <-]. by rewrite (IH l eq_refl).
  - destruct (Ascii.eqb x c) eqn:Hx; [|done].
    apply Ascii.eqb_eq in Hx as ->. by intros [= <- <-].
Qed.

Lemma mem_take c n s : Str.mem c (Str.take n s) = true -> Str.mem c s = true.
Proof.
  revert s. induction n as [|n IH]; intros [|x s]; cbn [Str.take Str.mem];
    try done.
  intros [->|Hm]%orb_prop; [done|]. rewrite (IH s Hm). apply orb_true_r.
Qed.

Lemma mem_drop c n s : Str.mem c (Str.drop n s) = true -> Str.mem c s = true.
Proof.
  revert s. induction n as [|n IH]; intros [|x s]; cbn [Str.drop Str.mem];
    try done.
  intros Hm. rewrite (IH s Hm). apply orb_true_r.
Qed.

Lemma mem_filter c f s :
  Str.mem c (Str.filter f s) = true -> Str.mem c s = true.
Proof.
  induction s as [|x s IH]; cbn [Str.filter Str.mem]; [done|].
  destruct (f x); cbn [Str.mem].
  - intros [->|Hm]%orb_prop; [done|]. rewrite (IH Hm). apply orb_true_r.
  - intros Hm. rewrite (IH Hm). apply orb_true_r.
Qed.

Lemma mem_lstrip c f s :
  Str.mem c (Str.lstrip_by f s) = true -> Str.mem c s = true.
Proof.
  induction s as [|x s IH]; cbn [Str.lstrip_by]; [done|].
  destruct (f x); [|done]. cbn [Str.mem].
  intros Hm. rewrite (IH Hm). apply orb_true_r.
Qed.

Lemma no_hash_sub (t s : string) :
  (Str.mem "#" t = true -> Str.mem "#" s = true) -> no_hash s -> no_hash t.
Proof.
  unfold no_hash. intros Hsub Hs. destruct (Str.mem "#" t); [|done].
  rewrite Hsub in Hs; done.
Qed.

Lemma break_parts f s a b :
  Str.break f s = (a, b) -> s = a +:+ b /\ Str.forallb (fun c => negb (f c)) a = true.
Proof.
  revert a. induction s as [|x s IH]; intros a; cbn [Str.break].
  - by intros [= <- <-].
  - destruct (f x) eqn:Hx; [by intros [= <- <-]|].
    destruct (Str.break f s) as [l r]. intros [= <- <-].
    destruct (IH l eq_refl) as [-> Hl]. split; [done|].
    cbn [Str.forallb]. by rewrite Hx, Hl.
Qed.

Lemma forallb_no_mem c f s :
  f c = false -> Str.forallb f s = true -> Str.mem c s = false.
Proof.
  intros Hc. induction s as [|x s IH]; cbn [Str.forallb Str.mem]; [done|].
  intros [Hx Hs]%andb_prop. rewrite (IH Hs), orb_false_r.
  destruct (Ascii.eqb c x) eqn:Heq; [|done].
  apply Ascii.eqb_eq in Heq as <-. congruence.
Qed.

Lemma lower_char_hash c : Ascii.eqb "#" (Str.lower_char c) = Ascii.eqb "#" c.
Proof. destruct c as [[] [] [] [] [] [] [] []]; by vm_compute. Qed.

Lemma mem_hash_lower s : Str.mem "#" (Str.lower s) = Str.mem "#" s.
Proof.
  induction s as [|x s IH]; [done|].
  unfold Str.lower in *. cbn [Str.map Str.mem].
  by rewrite lower_char_hash, IH.
Qed.

(** The scheme and the rest of a URL hold no "#" that the URL did not. *)
Lemma split_scheme_no_hash url sch rest :
  split_scheme url "" = (sch, rest) ->
  no_hash sch /\ (Str.mem "#" rest = true -> Str.mem "#" url = true).
Proof.
  unfold split_scheme.
  destruct (Str.split_once ":" url) as [[[|c pre] r]|] eqn:Hsp.
  - by intros [= <- <-].
  - destruct (_ && _) eqn:Hok.
    + intros [= <- <-]. apply andb_prop in Hok as [_ Hchars].
      apply split_once_app in Hsp as [-> _]. split.
      * unfold no_hash. rewrite mem_hash_lower.
        by apply (forallb_no_mem "#" (fun d => Str.mem d scheme_chars)).
      * intros Hr. rewrite mem_app. cbn [Str.mem]. rewrite Hr.
        by rewrite !orb_true_r.
    + by intros [= <- <-].
  - by intros [= <- <-].
Qed.

Lemma splitparams_no_hash url a b :
  splitparams url = (a, b) -> no_hash url -> no_hash a /\ no_hash b.
Proof.
  unfold splitparams.
  destruct (Str.rsplit_once "/" url) as [[dir last]|] eqn:Hr.
  - apply rsplit_once_app in Hr as ->.
    destruct (Str.split_once ";" last) as [[x y]|] eqn:Hs.
    + apply split_once_app in Hs as [-> _]. intros [= <- <-].
      change (String "/" (x +:+ String ";" y))
        with ("/" +:+ x +:+ ";" +:+ y).
      intros Hh. split_hash; first [done | reflexivity].
    + by intros [= <- <-].
  - destruct (Str.split_once ";" url) as [[x y]|] eqn:Hs.
    + apply split_once_app in Hs as [-> _]. intros [= <- <-].
      change (String ";" y) with (";" +:+ y). intros Hh. split_hash; first [done | reflexivity].
    + intros [= <- <-] Hu. split; [|done].
      eapply no_hash_sub; [apply mem_take|done].
Qed.

(** No component that [urlparse] returns before the fragment holds a
    "#". *)
Lemma urlparse_no_hash url p :
  urlparse url = Some p ->
  no_hash (scheme p) /\ no_hash (netloc p) /\ no_hash (path p)
  /\ no_hash (params p) /\ no_hash (query p).
Proof.
  unfold urlparse, urlparse_with.
  set (url2 := remove_unsafe (Str.lstrip_by is_c0_or_space url)).
  change (remove_unsafe (Str.strip_by is_c0_or_space "")) with "".
  destruct (split_scheme url2 "") as [sch url3] eqn:Hsch.
  apply split_scheme_no_hash in Hsch as [Hsch _].
  destruct (if Str.startswith url3 "//" then splitnetloc url3 else ("", url3))
    as [nl url4] eqn:Hnl.
  assert (Hnl' : no_hash nl).
  { destruct (Str.startswith url3 "//"); [|by injection Hnl as <- <-].
    unfold splitnetloc in Hnl. apply break_parts in Hnl as [_ Hall].
    by apply (forallb_no_mem "#" (fun c => negb (Str.mem c "/?#"))). }
  clear Hnl.
  destruct (match Str.split_once "#" url4 with
            | Some (a, b) => (a, b) | None => (url4, "") end)
    as [url5 frag] eqn:Hfrag.
  assert (H5 : no_hash url5).
  { destruct (Str.split_once "#" url4) as [[a b]|] eqn:Hs.
    - injection Hfrag as <- <-. by apply split_once_app in Hs as [_ Ha].
    - injection Hfrag as <- <-. by apply split_once_None. }
  clear Hfrag.
  destruct (match Str.split_once "?" url5 with
            | Some (a, b) => (a, b) | None => (url5, "") end)
    as [url6 q] eqn:Hq.
  assert (H6 : no_hash url6 /\ no_hash q).
  { destruct (Str.split_once "?" url5) as [[a b]|] eqn:Hs.
    - injection Hq as <- <-. apply split_once_app in Hs as [-> _].
      change (String "?" b) with ("?" +:+ b) in H5. split_hash; first [done | reflexivity].
    - by injection Hq as <- <-. }
  clear Hq. destruct H6 as [H6 Hq].
  destruct (netloc_accepted nl); [|done].
  destruct (if in_list sch uses_params && Str.mem ";" url6
            then splitparams url6 else (url6, "")) as [url7 prm] eqn:Hp.
  intros [= <-]. cbn [scheme netloc path params query].
  assert (H7 : no_hash url7 /\ no_hash prm).
  { destruct (_ && _); [|by injection Hp as <- <-].
    by apply (splitparams_no_hash url6). }
  tauto.
Qed.

Lemma urlunparse_no_hash sch nl url prm q :
  no_hash sch -> no_hash nl -> no_hash url -> no_hash prm -> no_hash q ->
  no_hash (urlunparse sch nl url prm q "").
Proof.
  intros Hs Hn Hu Hp Hq. unfold urlunparse, urlunsplit. cbn [nonempty].
  repeat match goal with
         | |- context [if ?b then _ else _] => destruct b
         end;
    split_hash; first [done | reflexivity].
Qed.

(** [urldefrag] returns a URL without "#". *)
Lemma urldefrag_no_hash url d : urldefrag url = Some d -> no_hash d.
Proof.
  unfold urldefrag. destruct (Str.mem "#" url) eqn:Hm.
  - destruct (urlparse url) as [p|] eqn:Hp; [|done]. intros [= <-].
    destruct (urlparse_no_hash url p Hp) as (? & ? & ? & ? & ?).
    by apply urlunparse_no_hash.
  - by intros [= <-].
Qed.

End Fragments.

(** ** More on the sitemap traversal *)

Section TraverseSteps.
Context `{PyLib}.
Import Urllib.
Variable net : Network.
Variable hist0 : list string.
Variable ds : list string.
Variable MAX_PAGES : Z.

(** The two ways the [while] loop goes on from a state. *)
Lemma traverse_done st :
  loop_cond MAX_PAGES st = false -> traverse net hist0 ds MAX_PAGES st = Some st.
Proof.
  intros Hc. funelim (traverse net hist0 ds MAX_PAGES st); [done|congruence..].
Qed.

Lemma traverse_round st st' :
  step net hist0 ds MAX_PAGES st st' ->
  traverse net hist0 ds MAX_PAGES st = traverse net hist0 ds MAX_PAGES st'.
Proof.
  intros [Hc Hb]. funelim (traverse net hist0 ds MAX_PAGES st); congruence.
Qed.

(** Where a collected page comes from: a sitemap document that was
    answered with status 200 and a body lists a URL that is in the scope
    of the domains and no binary, and the page is that URL without its
    fragment. *)
Definition listed_page (p : string) : Prop :=
  exists sm_url h raw u,
    fetch_text_bytes (net h sm_url) sm_url = (200%Z, raw)
    /\ raw <> ""
    /\ u ∈ (parse_sitemap_xml (decode_text raw)).2
    /\ same_domain u ds = true
    /\ is_binary_url u = Some false
    /\ urldefrag u = Some p.

Lemma collect_pages_origin (us : list string) : forall pgs pgs',
  collect_pages ds MAX_PAGES pgs us = Some pgs' ->
  forall p, p ∈ pgs' ->
    p ∈ pgs
    \/ exists u, u ∈ us /\ same_domain u ds = true
         /\ is_binary_url u = Some false /\ urldefrag u = Some p.
Proof.
  induction us as [|u us IH]; intros pgs pgs'; cbn [collect_pages].
  { intros [= <-] p Hp. by left. }
  assert (Hrest : collect_pages ds MAX_PAGES pgs us = Some pgs' ->
            forall p, p ∈ pgs' ->
              p ∈ pgs
              \/ exists v, v ∈ u :: us /\ same_domain v ds = true
                   /\ is_binary_url v = Some false /\ urldefrag v = Some p).
  { intros Hc p Hp. destruct (IH _ _ Hc p Hp) as [?|(v & Hv & ?)]; [by left|].
    right. exists v. split; [apply elem_of_cons; by right|done]. }
  destruct (same_domain u ds) eqn:Hs; [|exact Hrest].
  destruct (is_binary_url u) as [b|] eqn:Hb; cbn [mbind option_bind]; [|done].
  destruct b; cbn [negb]; [exact Hrest|].
  destruct (urldefrag u) as [d|] eqn:Hd; cbn [mbind option_bind]; [|done].
  assert (Hnew : forall p, p ∈ ({[d]} ∪ pgs : gset string) ->
            p ∈ pgs
            \/ exists v, v ∈ u :: us /\ same_domain v ds = true
                 /\ is_binary_url v = Some false /\ urldefrag v = Some p).
  { intros p [->%elem_of_singleton|Hp]%elem_of_union; [|by left].
    right. exists u. split; [apply elem_of_cons; by left|done]. }
  destruct (MAX_PAGES <=? _)%Z.
  - intros [= <-]. exact Hnew.
  - intros Hc p Hp.
    destruct (IH _ _ Hc p Hp) as [Hin|(v & Hv & ?)]; [by apply Hnew|].
    right. exists v. split; [apply elem_of_cons; by right|done].
Qed.

Lemma step_pages st st' :
  step net hist0 ds MAX_PAGES st st' ->
  forall p, p ∈ pages st' -> p ∈ pages st \/ listed_page p.
Proof.
  intros [_ Hbody] p. unfold loop_body in Hbody.
  destruct (to_process st) as [|u rest]; [injection Hbody as <-; by left|].
  destruct (decide (u ∈ seen_sitemaps st)); [injection Hbody as <-; by left|].
  destruct (fetch_text_bytes _ _) as [status raw] eqn:Hf.
  destruct (negb (status =? 200)%Z || negb (nonempty raw)) eqn:Hok;
    [injection Hbody as <-; by left|].
  apply orb_false_elim in Hok as [Hst Hraw].
  apply negb_false_iff, Z.eqb_eq in Hst as ->.
  apply negb_false_iff, nonempty_true in Hraw.
  destruct (negb (Str.startswith _ _)); [injection Hbody as <-; by left|].
  destruct (parse_sitemap_xml _) as [nested url_pages] eqn:Hparse.
  destruct (collect_pages _ _ _ _) as [pgs|] eqn:Hcol;
    cbn [mbind option_bind] in Hbody; [|done].
  injection Hbody as <-. cbn [pages]. intros Hp.
  destruct (collect_pages_origin _ _ _ Hcol p Hp)
    as [?|(v & Hv & Hs & Hb & Hd)]; [by left|].
  right. exists u, (fetched st ++ hist0), raw, v.
  rewrite Hparse. by repeat split.
Qed.

Lemma reachable_pages candidates st :
  reachable net hist0 ds MAX_PAGES candidates st ->
  forall p, p ∈ pages st -> listed_page p.
Proof.
  unfold reachable.
  assert (Hinit : forall p, p ∈ pages (initial_traversal candidates) ->
                            listed_page p).
  { intros p []%not_elem_of_empty. }
  revert Hinit. generalize (initial_traversal candidates). intros st0 Hinit Hr.
  induction Hr as [|a b c Hab _ IH]; [done|].
  apply IH. intros p Hp.
  destruct (step_pages a b Hab p Hp); auto.
Qed.

(** The seen set and the count of the visits. *)
Definition seen_is_fetched (st : Traversal) : Prop :=
  (forall u, u ∈ seen_sitemaps st <-> u ∈ fetched st)
  /\ size (seen_sitemaps st) = processed_count st
  /\ length (fetched st) = processed_count st.

Lemma step_seen st st' :
  seen_is_fetched st -> step net hist0 ds MAX_PAGES st st' ->
  seen_is_fetched st'.
Proof.
  intros (Hiff & Hsize & Hlen) [_ Hbody]. unfold loop_body in Hbody.
  destruct (to_process st) as [|u rest]; [by injection Hbody as <-|].
  destruct (decide (u ∈ seen_sitemaps st)) as [|Hnew];
    [by injection Hbody as <-|].
  destruct (fetch_text_bytes _ _) as [status raw].
  assert (Hnext : forall q p l2, seen_is_fetched
            (MkTraversal q ({[u]} ∪ seen_sitemaps st)
                         (S (processed_count st)) p (u :: fetched st) l2)).
  { intros q p l2. split; [|split]; cbn.
    - intros v. rewrite elem_of_union, elem_of_singleton, elem_of_cons.
      by rewrite Hiff.
    - rewrite size_union, size_singleton; [lia|].
      intros v ->%elem_of_singleton. done.
    - by rewrite Hlen. }
  destruct (_ || _); [injection Hbody as <-; apply Hnext|].
  destruct (negb (Str.startswith _ _)); [injection Hbody as <-; apply Hnext|].
  destruct (parse_sitemap_xml _) as [nested url_pages].
  destruct (collect_pages _ _ _ _) as [pgs|];
    cbn [mbind option_bind] in Hbody; [|done].
  injection Hbody as <-. apply Hnext.
Qed.

Lemma reachable_seen candidates st :
  reachable net hist0 ds MAX_PAGES candidates st -> seen_is_fetched st.
Proof.
  unfold reachable.
  assert (Hinit : seen_is_fetched (initial_traversal candidates)).
  { split; [|split]; cbn; [|by rewrite size_empty|done].
    intros u. split; [intros []%not_elem_of_empty|intros []%elem_of_nil]. }
  revert Hinit. generalize (initial_traversal candidates). intros st0 Hinit Hr.
  induction Hr as [|a b c Hab _ IH]; [done|].
  apply IH. by apply (step_seen a).
Qed.

(** X1: The number of sitemap documents the program reports as processed is
    the number of URLs in the seen set it saves, and these are exactly
    the URLs it requested. *)
Theorem processed_count_is_seen_size (candidates : list string) :
  exists final,
    traverse net hist0 ds MAX_PAGES (initial_traversal candidates)
      = Some final
    /\ processed_count final = size (seen_sitemaps final)
    /\ processed_count final = length (fetched final)
    /\ forall u, u ∈ seen_sitemaps final <-> u ∈ fetched final.
Proof.
  destruct (traverse_returns net hist0 ds MAX_PAGES
              (initial_traversal candidates)) as (final & Ht & Hr & _).
  exists final. split; [done|].
  destruct (reachable_seen candidates final Hr) as (Hiff & Hsize & Hlen).
  by rewrite Hsize, Hlen.
Qed.

End TraverseSteps.

Section GatherFacts.
Context `{PyLib}.
Import Urllib.

(** [gather_pages_from_sitemaps] returns the pages of the state in which
    the loop ends, and it raises only if the discovery does. *)
Lemma gather_final (net : Network) (MAX_PAGES : Z)
    (order : gset string -> list string) (ds : list string) :
  match discover_all net (∅, []) ds with
  | Some found =>
      exists final,
        reachable net found.2 ds MAX_PAGES (rev (order found.1)) final
        /\ loop_cond MAX_PAGES final = false
        /\ gather_pages_from_sitemaps net MAX_PAGES order ds
           = Some (pages final)
  | None => gather_pages_from_sitemaps net MAX_PAGES order ds = None
  end.
Proof.
  unfold gather_pages_from_sitemaps.
  destruct (discover_all net (∅, []) ds) as [found|];
    cbn [mbind option_bind]; [|done].
  destruct (traverse_returns net found.2 ds MAX_PAGES
              (initial_traversal (rev (order found.1)))) as (final & -> & Hr & Hc).
  by exists final.
Qed.

(** X2: Every page that [gather_pages_from_sitemaps] returns was listed as a
    page URL by a sitemap document answered with status 200, is in the
    scope of the domains and no binary; the page is that URL without its
    fragment. *)
Theorem gather_pages_come_from_sitemaps (net : Network) (MAX_PAGES : Z)
    (order : gset string -> list string) (ds : list string)
    (pgs : gset string) (p : string) :
  gather_pages_from_sitemaps net MAX_PAGES order ds = Some pgs ->
  p ∈ pgs ->
  listed_page net ds p.
Proof.
  intros Hg Hp. pose proof (gather_final net MAX_PAGES order ds) as Hf.
  destruct (discover_all net (∅, []) ds) as [found|]; [|congruence].
  destruct Hf as (final & Hr & _ & Hg'). rewrite Hg in Hg'.
  injection Hg' as ->. by eapply reachable_pages.
Qed.

(** X3: No page that [gather_pages_from_sitemaps] returns holds a "#": every
    page is stored as [urldefrag] returns it. *)
Theorem gather_pages_have_no_fragment (net : Network) (MAX_PAGES : Z)
    (order : gset string -> list string) (ds : list string)
    (pgs : gset string) (p : string) :
  gather_pages_from_sitemaps net MAX_PAGES order ds = Some pgs ->
  p ∈ pgs ->
  Str.mem "#" p = false.
Proof.
  intros Hg Hp. pose proof (gather_final net MAX_PAGES order ds) as Hf.
  destruct (discover_all net (∅, []) ds) as [found|]; [|congruence].
  destruct Hf as (final & Hr & _ & Hg'). rewrite Hg in Hg'.
  injection Hg' as ->.
  destruct (reachable_pages _ _ _ _ _ _ Hr p Hp)
    as (sm & h & raw & u & _ & _ & _ & _ & _ & Hd).
  by apply (urldefrag_no_hash u).
Qed.

(** X4: The scanner follows no links: when no sitemap request is answered
    with status 200, no page is collected, whatever the domains. *)
Theorem gather_nothing_without_sitemaps (net : Network) (MAX_PAGES : Z)
    (order : gset string -> list string) (ds : list string) :
  (forall h u, (fetch_text_bytes (net h u) u).1 <> 200%Z) ->
  gather_pages_from_sitemaps net MAX_PAGES order ds
  = (found ← discover_all net (∅, []) ds; Some ∅).
Proof.
  intros Hnet. pose proof (gather_final net MAX_PAGES order ds) as Hf.
  destruct (discover_all net (∅, []) ds) as [found|];
    cbn [mbind option_bind]; [|done].
  destruct Hf as (final & Hr & _ & ->). f_equal.
  apply set_eq. intros p. split; [|intros []%not_elem_of_empty].
  intros Hp.
  destruct (reachable_pages _ _ _ _ _ _ Hr p Hp)
    as (sm & h & raw & u & Hfetch & _).
  destruct (Hnet h sm). by rewrite Hfetch.
Qed.

(** X5: With a page cap of zero or less the loop does not start: nothing is
    fetched beyond the robots.txt requests of the discovery, and no page
    is returned. *)
Theorem gather_with_no_page_budget (net : Network) (MAX_PAGES : Z)
    (order : gset string -> list string) (ds : list string) :
  (MAX_PAGES <= 0)%Z ->
  gather_pages_from_sitemaps net MAX_PAGES order ds
  = (found ← discover_all net (∅, []) ds; Some ∅)
  /\ forall hist candidates,
       traverse net hist ds MAX_PAGES (initial_traversal candidates)
       = Some (initial_traversal candidates).
Proof.
  intros Hmax.
  assert (Hstop : forall hist candidates,
             traverse net hist ds MAX_PAGES (initial_traversal candidates)
             = Some (initial_traversal candidates)).
  { intros hist candidates. apply traverse_done.
    unfold loop_cond, initial_traversal. cbn [pages].
    assert (E : (Z.of_nat (size (∅ : gset string)) <? MAX_PAGES)%Z = false)
      by (rewrite size_empty; apply Z.ltb_ge; lia).
    rewrite E. by rewrite andb_false_r. }
  split; [|exact Hstop]. unfold gather_pages_from_sitemaps.
  destruct (discover_all net (∅, []) ds) as [found|];
    cbn [mbind option_bind]; [|done].
  by rewrite Hstop.
Qed.

End GatherFacts.

(** The crawl of example.com against [sitemap_net]: robots.txt is not
    served, the default sitemap lists one nested sitemap (not served)
    and one page. *)
Example gather_example :
  @gather_pages_from_sitemaps plain_lib sitemap_net 20000 elements
    ["example.com"]
  = Some {[ "https://example.com/about" ]}.
Proof.
  unfold gather_pages_from_sitemaps.
  assert (Hd : @discover_all plain_lib sitemap_net (∅, []) ["example.com"]
               = Some ({[ "https://example.com/sitemap.xml" ]},
                       ["https://example.com/robots.txt"]))
    by (vm_compute; reflexivity).
  rewrite Hd. cbn [mbind option_bind fst snd].
  assert (He : elements ({[ "https://example.com/sitemap.xml" ]} : gset string)
               = ["https://example.com/sitemap.xml"])
    by (vm_compute; reflexivity).
  rewrite He.
  rewrite (traverse_round _ _ _ _ _
             (MkTraversal ["https://example.com/news-sitemap.xml"]
                          {[ "https://example.com/sitemap.xml" ]} 1
                          {[ "https://example.com/about" ]}
                          ["https://example.com/sitemap.xml"]
                          ["https://example.com/sitemap.xml"]))
    by (split; vm_compute; reflexivity).
  rewrite (traverse_round _ _ _ _ _
             (MkTraversal []
                          {[ "https://example.com/news-sitemap.xml";
                             "https://example.com/sitemap.xml" ]} 2
                          {[ "https://example.com/about" ]}
                          ["https://example.com/news-sitemap.xml";
                           "https://example.com/sitemap.xml"]
                          ["https://example.com/sitemap.xml"]))
    by (split; vm_compute; reflexivity).
  rewrite traverse_done by (vm_compute; reflexivity).
  reflexivity.
Qed.

Lemma gather_pages_come_from_sitemaps_witness :
  @listed_page plain_lib sitemap_net ["example.com"]
    "https://example.com/about".
Proof.
  apply (@gather_pages_come_from_sitemaps plain_lib sitemap_net 20000
           elements ["example.com"] {[ "https://example.com/about" ]}
           "https://example.com/about" gather_example).
  apply elem_of_singleton. reflexivity.
Defined.

Lemma gather_pages_have_no_fragment_witness :
  Str.mem "#" "https://example.com/about" = false.
Proof.
  apply (@gather_pages_have_no_fragment plain_lib sitemap_net 20000
           elements ["example.com"] {[ "https://example.com/about" ]}
           "https://example.com/about" gather_example).
  apply elem_of_singleton. reflexivity.
Defined.

(** No request is answered at all. *)
Lemma gather_nothing_without_sitemaps_witness :
  @gather_pages_from_sitemaps plain_lib (fun _ _ => HttpRaised) 20000
    elements ["example.com"]
  = Some ∅.
Proof.
  rewrite (@gather_nothing_without_sitemaps plain_lib
             (fun _ _ => HttpRaised) 20000 elements ["example.com"]).
  - vm_compute. reflexivity.
  - intros h u. cbn. discriminate.
Defined.

(** The sitemap of example.com is served, and the cap is zero. *)
Lemma gather_with_no_page_budget_witness :
  @gather_pages_from_sitemaps plain_lib sitemap_net 0 elements
    ["example.com"]
  = Some ∅.
Proof.
  rewrite (proj1 (@gather_with_no_page_budget plain_lib sitemap_net 0
                    elements ["example.com"] (Z.le_refl 0))).
  vm_compute. reflexivity.
Defined.

(** ** The worklist *)

Section Worklist.
Context `{PyLib}.
Import Urllib.
Variable net : Network.
Variable hist0 : list string.
Variable ds : list string.
Variable MAX_PAGES : Z.

Lemma enqueue_stack (seen : gset string) (nested : list string) :
  forall todo,
    enqueue seen nested todo
    = rev (List.filter (fun u => bool_decide (u ∉ seen)) nested) ++ todo.
Proof.
  unfold enqueue. induction nested as [|u rest IH]; intros todo; [done|].
  cbn [fold_left List.filter]. rewrite IH.
  destruct (decide (u ∈ seen)) as [Hin|Hout].
  - rewrite bool_decide_eq_false_2; [done|]. by intros Hn.
  - rewrite bool_decide_eq_true_2 by done. cbn [rev].
    by rewrite <- app_assoc.
Qed.

(** X6: The worklist is a stack.  A round takes the URL on top; if that URL
    is new and its document parses, the nested sitemaps that are not
    seen yet are pushed on top of the rest in the order listed, so the
    one listed last is visited next, before every older candidate. *)
Theorem worklist_is_a_stack (st st' : Traversal) :
  step net hist0 ds MAX_PAGES st st' ->
  exists top rest pushed,
    to_process st = top :: rest
    /\ to_process st' = rev pushed ++ rest
    /\ (forall v, v ∈ pushed -> v ∉ seen_sitemaps st')
    /\ (parsed st' = parsed st -> pushed = [])
    /\ (parsed st' <> parsed st ->
        exists raw,
          fetch_text_bytes (net (fetched st ++ hist0) top) top = (200%Z, raw)
          /\ pushed
             = List.filter (fun u => bool_decide (u ∉ seen_sitemaps st'))
                 (parse_sitemap_xml (decode_text raw)).1).
Proof.
  intros [Hcond Hbody]. unfold loop_body in Hbody.
  destruct (to_process st) as [|u rest] eqn:Hq.
  { unfold loop_cond in Hcond. rewrite Hq in Hcond.
    by rewrite bool_decide_eq_false_2 in Hcond by (by intros Hn). }
  exists u, rest.
  assert (Hskip : forall s c p l,
    let st1 := MkTraversal rest s c p l (parsed st) in
    exists pushed,
      u :: rest = u :: rest
      /\ to_process st1 = rev pushed ++ rest
      /\ (forall v, v ∈ pushed -> v ∉ seen_sitemaps st1)
      /\ (parsed st1 = parsed st -> pushed = [])
      /\ (parsed st1 <> parsed st ->
          exists raw0,
            fetch_text_bytes (net (fetched st ++ hist0) u) u = (200%Z, raw0)
            /\ pushed
               = List.filter
                   (fun v => bool_decide (v ∉ seen_sitemaps st1))
                   (parse_sitemap_xml (decode_text raw0)).1)).
  { intros s c p l st1. exists []. subst st1. cbn.
    split; [done|]. split; [done|]. split; [by intros v ?%elem_of_nil|].
    split; [done|]. intros Hne. by destruct Hne. }
  destruct (decide (u ∈ seen_sitemaps st)) as [Hseen|Hnew];
    [injection Hbody as <-; apply Hskip|].
  destruct (fetch_text_bytes _ _) as [status raw] eqn:Hf.
  destruct (negb (status =? 200)%Z || negb (nonempty raw)) eqn:Hok;
    [injection Hbody as <-; apply Hskip|].
  destruct (negb (Str.startswith _ _)); [injection Hbody as <-; apply Hskip|].
  clear Hskip.
  apply orb_false_elim in Hok as [Hst _].
  apply negb_false_iff, Z.eqb_eq in Hst as ->.
  destruct (parse_sitemap_xml _) as [nested url_pages] eqn:Hparse.
  destruct (collect_pages _ _ _ _) as [pgs|];
    cbn [mbind option_bind] in Hbody; [|done].
  injection Hbody as <-. cbn.
  exists (List.filter (fun v => bool_decide (v ∉ {[u]} ∪ seen_sitemaps st))
                      nested).
  split; [done|]. split; [apply enqueue_stack|]. split.
  { intros v Hv. apply list_elem_of_In, filter_In in Hv as [_ Hv].
    by apply bool_decide_eq_true in Hv. }
  split.
  { intros Heq. exfalso.
    assert (Hlen : length (u :: parsed st) = length (parsed st))
      by (by rewrite Heq).
    cbn in Hlen. lia. }
  intros _. exists raw. split; [done|]. by rewrite Hparse.
Qed.

End Worklist.

(** The first round of the crawl of example.com: the nested sitemap of
    the document goes on top of the worklist. *)
Lemma worklist_is_a_stack_witness :
  exists top rest pushed,
    to_process two_candidates = top :: rest
    /\ to_process after_first_round = rev pushed ++ rest
    /\ (forall v, v ∈ pushed -> v ∉ seen_sitemaps after_first_round)
    /\ (parsed after_first_round = parsed two_candidates -> pushed = [])
    /\ (parsed after_first_round <> parsed two_candidates ->
        exists raw,
          @fetch_text_bytes plain_lib
            (sitemap_net (fetched two_candidates ++ []) top) top
          = (200%Z, raw)
          /\ pushed
             = List.filter
                 (fun u => bool_decide (u ∉ seen_sitemaps after_first_round))
                 (@parse_sitemap_xml plain_lib (@decode_text plain_lib raw)).1).
Proof.
  apply (@worklist_is_a_stack plain_lib sitemap_net [] ["example.com"] 20000).
  split; vm_compute; reflexivity.
Defined.

(** ** Where the sitemap requests come from *)

Section Provenance.
Context `{PyLib}.
Import Urllib.
Variable net : Network.
Variable hist0 : list string.
Variable ds : list string.
Variable MAX_PAGES : Z.

(** A sitemap URL that is a candidate of the discovery, or that a
    sitemap document answered with status 200 lists as a nested
    sitemap. *)
Definition listed_sitemap (candidates : list string) (u : string) : Prop :=
  u ∈ candidates
  \/ exists sm_url h raw,
       fetch_text_bytes (net h sm_url) sm_url = (200%Z, raw)
       /\ raw <> ""
       /\ u ∈ (parse_sitemap_xml (decode_text raw)).1.

Lemma elem_of_enqueue (seen : gset string) (nested : list string) :
  forall todo u,
    u ∈ enqueue seen nested todo -> u ∈ nested \/ u ∈ todo.
Proof.
  unfold enqueue. induction nested as [|x rest IH]; intros todo u;
    cbn [fold_left]; [by right|].
  intros Hu. destruct (IH _ _ Hu) as [Hin|Hin].
  - left. apply elem_of_cons. by right.
  - destruct (decide (x ∈ seen)); [by right|].
    apply elem_of_cons in Hin as [->|Hin]; [|by right].
    left. apply elem_of_cons. by left.
Qed.

Lemma step_listed candidates st st' :
  step net hist0 ds MAX_PAGES st st' ->
  (forall u, u ∈ to_process st \/ u ∈ fetched st ->
             listed_sitemap candidates u) ->
  forall u, u ∈ to_process st' \/ u ∈ fetched st' ->
            listed_sitemap candidates u.
Proof.
  intros [_ Hbody]. unfold loop_body in Hbody.
  destruct (to_process st) as [|top rest] eqn:Hq.
  { injection Hbody as <-. rewrite Hq. auto. }
  intros Hinv.
  assert (Hrest : forall u, u ∈ rest \/ u ∈ top :: fetched st ->
                            listed_sitemap candidates u).
  { intros u [Hu|[->|Hu]%elem_of_cons]; apply Hinv; auto.
    - left. apply elem_of_cons. by right.
    - left. apply elem_of_cons. by left. }
  destruct (decide (top ∈ seen_sitemaps st)).
  { injection Hbody as <-. cbn. intros u [Hu|Hu]; apply Hrest; auto.
    right. apply elem_of_cons. by right. }
  destruct (fetch_text_bytes _ _) as [status raw] eqn:Hf.
  destruct (negb (status =? 200)%Z || negb (nonempty raw)) eqn:Hok;
    [injection Hbody as <-; exact Hrest|].
  apply orb_false_elim in Hok as [Hst Hraw].
  apply negb_false_iff, Z.eqb_eq in Hst as ->.
  apply negb_false_iff, nonempty_true in Hraw.
  destruct (negb (Str.startswith _ _)); [injection Hbody as <-; exact Hrest|].
  destruct (parse_sitemap_xml _) as [nested url_pages] eqn:Hparse.
  destruct (collect_pages _ _ _ _) as [pgs|];
    cbn [mbind option_bind] in Hbody; [|done].
  injection Hbody as <-. cbn. intros u [Hu|Hu]; [|by apply Hrest; right].
  apply elem_of_enqueue in Hu as [Hu|Hu]; [|by apply Hrest; left].
  right. exists top, (fetched st ++ hist0), raw. by rewrite Hparse.
Qed.

(** X7: The traversal requests no sitemap URL of its own making: every
    URL it fetches is a candidate of the discovery or was listed as a
    nested sitemap by a document answered with status 200.  Such a URL
    is fetched whatever its host: the scope of the domains and
    robots.txt are consulted for pages only. *)
Theorem sitemap_requests_are_listed (candidates : list string) :
  (exists final,
      traverse net hist0 ds MAX_PAGES (initial_traversal candidates)
        = Some final
      /\ forall u, u ∈ fetched final -> listed_sitemap candidates u)
  /\ forall st top rest,
       loop_cond MAX_PAGES st = true ->
       to_process st = top :: rest ->
       top ∉ seen_sitemaps st ->
       exists st',
         step net hist0 ds MAX_PAGES st st'
         /\ fetched st' = top :: fetched st.
Proof.
  split.
  - destruct (traverse_returns net hist0 ds MAX_PAGES
                (initial_traversal candidates)) as (final & Ht & Hr & _).
    exists final. split; [done|].
    assert (Hinit : forall u,
              u ∈ to_process (initial_traversal candidates)
              \/ u ∈ fetched (initial_traversal candidates) ->
              listed_sitemap candidates u).
    { intros u [Hu|Hu]; [by left|by apply elem_of_nil in Hu]. }
    revert Hinit. generalize (initial_traversal candidates) Hr.
    clear Ht Hr. intros st0 Hr.
    induction Hr as [|a b c Hab _ IH]; [by auto|].
    intros Ha. apply IH. by apply (step_listed candidates a).
  - intros st top rest Hcond Hq Hnew.
    destruct (loop_body_total net hist0 ds MAX_PAGES st) as [st' Hb].
    exists st'. split; [done|]. unfold loop_body in Hb. rewrite Hq in Hb.
    rewrite decide_False in Hb by done.
    destruct (fetch_text_bytes _ _) as [status raw].
    destruct (_ || _); [by injection Hb as <-|].
    destruct (negb (Str.startswith _ _)); [by injection Hb as <-|].
    destruct (parse_sitemap_xml _) as [nested url_pages].
    destruct (collect_pages _ _ _ _) as [pgs|];
      cbn [mbind option_bind] in Hb; [|done].
    by injection Hb as <-.
Qed.

End Provenance.

(** ** What the discovery returns, and what it requests *)

Section DiscoveryOnly.
Context `{PyLib}.
Import Urllib.

(** A URL of the discovered set and an entry of the request log, traced
    back to a base URL. *)
Definition discovered_from (net : Network) (bases : list string)
    (u : string) : Prop :=
  exists base robots_url,
    base ∈ bases
    /\ urljoin base "/robots.txt" = Some robots_url
    /\ (urljoin base "/sitemap.xml" = Some u
        \/ exists h status raw,
             fetch_text_bytes (net h robots_url) robots_url = (status, raw)
             /\ u ∈ robots_sitemaps status raw).

Definition requested_for (bases : list string) (r : string) : Prop :=
  exists base, base ∈ bases /\ urljoin base "/robots.txt" = Some r.

Lemma discover_bases_only (net : Network) (bases : list string) :
  forall acc urls log,
    discover_bases net acc bases = Some (urls, log) ->
    (forall u, u ∈ urls -> u ∈ acc.1 \/ discovered_from net bases u)
    /\ exists new, log = new ++ acc.2
         /\ length new = length bases
         /\ forall r, r ∈ new -> requested_for bases r.
Proof.
  induction bases as [|b rest IH]; cbn [discover_bases];
    intros acc urls log Hd.
  { injection Hd as ->. split; [by left|].
    exists []. split; [done|]. split; [done|]. by intros r ?%elem_of_nil. }
  destruct (discover_base net acc b) as [acc'|] eqn:Hb;
    cbn [mbind option_bind] in Hd; [|done].
  destruct (IH _ _ _ Hd) as (Hurls & new & -> & Hlen & Hnew). clear IH Hd.
  unfold discover_base in Hb.
  destruct (urljoin b "/robots.txt") as [robots_url|] eqn:Hr;
    cbn [mbind option_bind] in Hb; [|done].
  destruct (fetch_text_bytes _ _) as [status raw] eqn:Hf.
  destruct (urljoin b "/sitemap.xml") as [default_url|] eqn:Hs;
    cbn [mbind option_bind] in Hb; [|done].
  injection Hb as <-. cbn [fst snd] in *.
  assert (Hmono : forall u, discovered_from net rest u ->
                            discovered_from net (b :: rest) u).
  { intros u (base & r & Hbase & ?). exists base, r.
    split; [apply elem_of_cons; by right|done]. }
  split.
  - intros u Hu. destruct (Hurls u Hu) as [Hacc|Hfrom]; [|right; auto].
    apply elem_of_union in Hacc as [Hacc|Heq].
    2:{ apply elem_of_singleton in Heq as ->.
        right. exists b, robots_url. split; [apply elem_of_cons; by left|].
        split; [done|]. by left. }
    apply elem_of_union in Hacc as [Hacc|Hrob]; [by left|].
    right. exists b, robots_url. split; [apply elem_of_cons; by left|].
    split; [done|]. right. by exists acc.2, status, raw.
  - exists (new ++ [robots_url]). rewrite <- app_assoc. split; [done|].
    split; [rewrite length_app; cbn; lia|].
    intros r [Hr'|Heq]%elem_of_app.
    + destruct (Hnew r Hr') as (base & Hbase & ?). exists base.
      split; [apply elem_of_cons; by right|done].
    + apply list_elem_of_singleton in Heq as ->.
      exists b. split; [apply elem_of_cons; by left|done].
Qed.

(** X8: [discover_sitemap_urls] returns nothing but the default /sitemap.xml
    URL of each scheme and the URLs named by the "Sitemap:" lines of the
    robots.txt answers (status 200, a body); and all it requests is one
    robots.txt per scheme: the default sitemap is not fetched here. *)
Theorem discover_returns_only_defaults_and_robots_lines
    (net : Network) (hist : list string) (domain : string)
    (urls : gset string) (log : list string) :
  discover_sitemap_urls net hist domain = Some (urls, log) ->
  (forall u, u ∈ urls ->
     exists scheme robots_url,
       scheme ∈ SCHEMES
       /\ urljoin (scheme +:+ "://" +:+ domain) "/robots.txt"
          = Some robots_url
       /\ (urljoin (scheme +:+ "://" +:+ domain) "/sitemap.xml" = Some u
           \/ exists h raw line keyword rest,
                fetch_text_bytes (net h robots_url) robots_url
                  = (200%Z, raw)
                /\ raw <> ""
                /\ line ∈ Str.splitlines (decode_text raw)
                /\ Str.startswith (Str.lower line) "sitemap:" = true
                /\ Str.split_once ":" line = Some (keyword, rest)
                /\ u = Str.strip rest /\ u <> ""))
  /\ exists new,
       log = new ++ hist
       /\ length new = length SCHEMES
       /\ forall r, r ∈ new ->
            exists scheme, scheme ∈ SCHEMES
              /\ urljoin (scheme +:+ "://" +:+ domain) "/robots.txt"
                 = Some r.
Proof.
  unfold discover_sitemap_urls, possible_base_urls. intros Hd.
  destruct (discover_bases_only _ _ _ _ _ Hd)
    as (Hurls & new & -> & Hlen & Hnew).
  split.
  - intros u Hu. destruct (Hurls u Hu) as [[]%not_elem_of_empty|Hfrom].
    destruct Hfrom as (base & robots_url & Hbase & Hr & Hu').
    apply list_elem_of_fmap in Hbase as (scheme & -> & Hscheme).
    exists scheme, robots_url. split; [done|]. split; [done|].
    destruct Hu' as [Hdef|(h & status & raw & Hf & Hrob)]; [by left|].
    right. apply elem_of_robots_sitemaps in Hrob
      as (-> & Hraw & line & keyword & rest & Hline & Hkw & Hsp & -> & Hne).
    by exists h, raw, line, keyword, rest.
  - exists new. split; [done|]. split; [by rewrite Hlen, length_fmap|].
    intros r Hr. destruct (Hnew r Hr) as (base & Hbase & Hjoin).
    apply list_elem_of_fmap in Hbase as (scheme & -> & Hscheme).
    by exists scheme.
Qed.

(** X9: When the robots.txt of a host name cannot be had (the request fails,
    the status is not 200, or the body is empty), the discovery returns
    exactly one candidate, https://<domain>/sitemap.xml. *)
Theorem discover_without_robots (net : Network) (hist : list string)
    (domain : string) :
  is_hostname domain = true ->
  (let robots_url := "https://" +:+ domain +:+ "/robots.txt" in
   let answer := fetch_text_bytes (net hist robots_url) robots_url in
   answer.1 <> 200%Z \/ answer.2 = "") ->
  discover_sitemap_urls net hist domain
  = Some ({[ "https://" +:+ domain +:+ "/sitemap.xml" ]},
          ("https://" +:+ domain +:+ "/robots.txt") :: hist).
Proof.
  intros Hd Hans. unfold discover_sitemap_urls, possible_base_urls, SCHEMES.
  cbn [fmap list_fmap discover_bases]. unfold discover_base.
  rewrite !(urljoin_base domain) by auto.
  cbn [mbind option_bind snd fst]. cbn zeta in Hans.
  destruct (fetch_text_bytes _ _) as [status raw].
  cbn [mbind option_bind fst snd] in *. f_equal. f_equal.
  assert (Hnone : robots_sitemaps status raw = ∅).
  { unfold robots_sitemaps. destruct Hans as [Hst| ->].
    - apply Z.eqb_neq in Hst. by rewrite Hst.
    - by rewrite andb_false_r. }
  rewrite Hnone. apply set_eq. intros u.
  rewrite !elem_of_union, elem_of_singleton.
  split; [intros [[[]%not_elem_of_empty|[]%not_elem_of_empty]|]|]; auto.
Qed.

End DiscoveryOnly.

(** The robots.txt of example.com with its mixed-case Sitemap line. *)
Lemma discover_returns_only_defaults_and_robots_lines_witness :
  match @discover_sitemap_urls plain_lib robots_net [] "example.com" with
  | Some (urls, log) =>
      (forall u, u ∈ urls ->
         exists scheme robots_url,
           scheme ∈ SCHEMES
           /\ @Urllib.urljoin plain_lib (scheme +:+ "://" +:+ "example.com")
                "/robots.txt" = Some robots_url
           /\ (@Urllib.urljoin plain_lib (scheme +:+ "://" +:+ "example.com")
                 "/sitemap.xml" = Some u
               \/ exists h raw line keyword rest,
                    @fetch_text_bytes plain_lib (robots_net h robots_url)
                      robots_url = (200%Z, raw)
                    /\ raw <> ""
                    /\ line ∈ Str.splitlines (@decode_text plain_lib raw)
                    /\ Str.startswith (Str.lower line) "sitemap:" = true
                    /\ Str.split_once ":" line = Some (keyword, rest)
                    /\ u = Str.strip rest /\ u <> ""))
      /\ exists new,
           log = new ++ []
           /\ length new = length SCHEMES
           /\ forall r, r ∈ new ->
                exists scheme, scheme ∈ SCHEMES
                  /\ @Urllib.urljoin plain_lib
                       (scheme +:+ "://" +:+ "example.com") "/robots.txt"
                     = Some r
  | None => False
  end.
Proof.
  destruct (@discover_returns_on_hostname plain_lib robots_net []
              "example.com" eq_refl) as (urls & Hd & _).
  rewrite Hd.
  exact (@discover_returns_only_defaults_and_robots_lines
           plain_lib robots_net [] "example.com" urls _ Hd).
Defined.

(** No request is answered. *)
Lemma discover_without_robots_witness :
  @discover_sitemap_urls plain_lib (fun _ _ => HttpRaised) ["earlier"]
    "example.com"
  = Some ({[ "https://example.com/sitemap.xml" ]},
          ["https://example.com/robots.txt"; "earlier"]).
Proof.
  apply (@discover_without_robots plain_lib (fun _ _ => HttpRaised)
           ["earlier"] "example.com").
  - reflexivity.
  - left. cbn. discriminate.
Defined.

(** ** The two lists of [parse_sitemap_xml] *)

Section SitemapLists.
Context `{PyLib}.
Import Urllib.

(** The urlset loop is the index loop followed by a stable partition. *)
Lemma classify_locs_partition (locs : list Element) :
  classify_locs locs
  = (List.filter is_sitemap_like (index_locs locs),
     List.filter (fun u => negb (is_sitemap_like u)) (index_locs locs)).
Proof.
  induction locs as [|loc rest IH]; [done|].
  cbn [classify_locs]. rewrite IH. unfold index_locs. cbn [omap list_omap].
  destruct (text loc) as [t|]; [|done].
  destruct (nonempty t); [|done]. cbn [List.filter].
  by destruct (is_sitemap_like (Str.strip t)).
Qed.

(** X10: In a urlset every loc with a text is returned exactly once, stripped
    and in document order: the nested sitemaps are the sitemap-like ones,
    the pages are the others. *)
Theorem urlset_locs_are_partitioned (xml_text : string) (root : Element) :
  Str.strip xml_text <> "" ->
  ET_fromstring xml_text = Some root ->
  Str.lower (local_name (tag root)) <> "sitemapindex" ->
  let urls := index_locs (findall_any root "url" "loc") in
  parse_sitemap_xml xml_text
  = (List.filter is_sitemap_like urls,
     List.filter (fun u => negb (is_sitemap_like u)) urls)
  /\ length (parse_sitemap_xml xml_text).1
     + length (parse_sitemap_xml xml_text).2 = length urls.
Proof.
  intros Hx Hroot Htag urls. unfold parse_sitemap_xml.
  apply nonempty_true in Hx. rewrite Hx, Hroot. cbn [negb].
  destruct (String.eqb _ "sitemapindex") eqn:Heq.
  { by apply String.eqb_eq in Heq. }
  rewrite classify_locs_partition. fold urls. split; [done|].
  cbn [fst snd]. clear. induction urls as [|u us IH]; [done|].
  cbn [List.filter]. destruct (is_sitemap_like u); cbn [negb length]; lia.
Qed.

(** X11: Whatever the document, no URL that [parse_sitemap_xml] returns as a
    page looks like a sitemap; a sitemap index yields no page at all, and
    a text that is blank or does not parse yields nothing. *)
Theorem pages_are_never_sitemap_like (xml_text : string) :
  (forall u, u ∈ (parse_sitemap_xml xml_text).2 -> is_sitemap_like u = false)
  /\ (forall root,
        ET_fromstring xml_text = Some root ->
        Str.lower (local_name (tag root)) = "sitemapindex" ->
        (parse_sitemap_xml xml_text).2 = [])
  /\ (Str.strip xml_text = "" \/ ET_fromstring xml_text = None ->
      parse_sitemap_xml xml_text = ([], [])).
Proof.
  unfold parse_sitemap_xml. split; [|split].
  - intros u. destruct (negb (nonempty (Str.strip xml_text)));
      [by intros ?%elem_of_nil|].
    destruct (ET_fromstring xml_text) as [root|]; [|by intros ?%elem_of_nil].
    destruct (String.eqb _ "sitemapindex"); [by intros ?%elem_of_nil|].
    by apply classify_locs_spec.
  - intros root -> Htag. destruct (negb _); [done|].
    apply String.eqb_eq in Htag. by rewrite Htag.
  - intros [Hblank|Hnone].
    + by rewrite Hblank.
    + rewrite Hnone. by destruct (negb _).
Qed.

End SitemapLists.

Lemma urlset_locs_are_partitioned_witness :
  @parse_sitemap_xml plain_lib sample_urlset_text
  = (List.filter (@is_sitemap_like plain_lib)
       (index_locs (findall_any sample_urlset "url" "loc")),
     List.filter (fun u => negb (@is_sitemap_like plain_lib u))
       (index_locs (findall_any sample_urlset "url" "loc")))
  /\ length (@parse_sitemap_xml plain_lib sample_urlset_text).1
     + length (@parse_sitemap_xml plain_lib sample_urlset_text).2
     = length (index_locs (findall_any sample_urlset "url" "loc")).
Proof.
  apply (@urlset_locs_are_partitioned plain_lib sample_urlset_text
           sample_urlset).
  - vm_compute. discriminate.
  - vm_compute. reflexivity.
  - vm_compute. discriminate.
Defined.

(** ** The scanner: what a run records *)

Section ScannerFacts.
Context `{PyLib}.
Import Urllib.

(** What [find_in] returns for a matcher built by the constructor, in
    either mode. *)
Lemma find_in_init (b : bool) (P : gset string) (text : string) :
  "" ∉ P ->
  exists found : gset string,
    find_in (Matcher_init b P) text = Some found
    /\ forall p, p ∈ found <-> p ∈ P /\ Str.contains p text = true.
Proof.
  intros Hne.
  assert (Hpl : "" ∉ elements P) by (by rewrite elem_of_elements).
  pose proof (NoDup_elements P) as Hnd.
  assert (Hempty : forall p, p ∈ (∅ : gset string)
                             <-> p ∈ P /\ Str.contains p "" = true).
  { intros p. split; [intros []%not_elem_of_empty|].
    intros [Hp ->%contains_in_empty]. done. }
  unfold find_in, Matcher_init, aho_usable.
  destruct (nonempty text) eqn:Htext; cbn [negb].
  2:{ apply nonempty_false in Htext as ->. exists ∅.
      split; [by destruct b|done]. }
  assert (Hscan : forall p,
             p ∈ (list_to_set
                    (List.filter (fun q => Str.contains q text)
                                 (elements P)) : gset string)
             <-> p ∈ P /\ Str.contains p text = true).
  { intros p. by rewrite elem_of_scan, elem_of_elements. }
  destruct b; cbn [use_aho aho patterns_list]; [|by eexists].
  destruct (0 <? Aho.len (build_automaton (elements P))); [|by eexists].
  destruct (aho_search (elements P) text Hnd Hpl) as (found & -> & Hf).
  cbn [fmap option_fmap option_map]. eexists. split; [done|].
  intros p. by rewrite elem_of_list_to_set, Hf, elem_of_elements.
Qed.

Lemma allowed_never_raises_aux (sc : SiteScanner) (url : string) :
  is_Some (allowed sc url).
Proof.
  unfold allowed. destruct (same_domain url (domains sc)) eqn:Hs; cbn [negb].
  2:{ by eexists. }
  destruct (same_domain_parses _ _ Hs) as [p Hp].
  unfold is_binary_url. rewrite Hp. cbn [mbind option_bind].
  destruct (existsb _ BINARY_EXTS); by eexists.
Qed.

(** X12: [allowed] returns for every URL, and answers True only for a URL in
    the scope of the domains that is no binary: [is_binary_url], which is
    called outside the [try], is reached only with a URL that [urlparse]
    accepts. *)
Theorem allowed_never_raises (sc : SiteScanner) (url : string) :
  exists verdict,
    allowed sc url = Some verdict
    /\ (verdict = true ->
        same_domain url (domains sc) = true
        /\ is_binary_url url = Some false).
Proof.
  unfold allowed. destruct (same_domain url (domains sc)) eqn:Hs; cbn [negb].
  2:{ by exists false. }
  destruct (same_domain_parses _ _ Hs) as [p Hp].
  unfold is_binary_url. rewrite Hp. cbn [mbind option_bind].
  destruct (existsb _ BINARY_EXTS); [by exists false|].
  by eexists.
Qed.

Lemma allowed_same (sc sc' : SiteScanner) (url : string) :
  domains sc' = domains sc -> rp_by_domain sc' = rp_by_domain sc ->
  allowed sc' url = allowed sc url.
Proof.
  intros Hd Hr. unfold allowed, robots_verdict. by rewrite Hd, Hr.
Qed.

(** One update of the table. *)
Lemma record_match_spec url ms pat ms' :
  record_match url ms pat = Some ms' ->
  exists s,
    ms !! pat = Some s
    /\ (ms' = ms /\ MAX_MATCH_PAGES_PER_QUERY <= size s
        \/ ms' = <[ pat := {[ url ]} ∪ s ]> ms
           /\ size s < MAX_MATCH_PAGES_PER_QUERY).
Proof.
  unfold record_match. destruct (ms !! pat) as [s|]; [|done].
  cbn [mbind option_bind]. intros Hr. exists s. split; [done|].
  destruct (size s <? MAX_MATCH_PAGES_PER_QUERY) eqn:Hlt;
    injection Hr as <-.
  - right. by apply Nat.ltb_lt in Hlt.
  - left. by apply Nat.ltb_ge in Hlt.
Qed.

(** A table [ms'] that extends [ms] by pages [url] under patterns of
    [found]. *)
Definition extends_by (url : string) (found : list string)
    (ms ms' : gmap string (gset string)) : Prop :=
  dom ms' = dom ms
  /\ (forall q s, ms !! q = Some s ->
        exists s', ms' !! q = Some s' /\ s ⊆ s')
  /\ (forall q s' p, ms' !! q = Some s' -> p ∈ s' ->
        (exists s, ms !! q = Some s /\ p ∈ s) \/ (q ∈ found /\ p = url)).

Lemma extends_by_refl url found ms : extends_by url found ms ms.
Proof.
  split; [done|]. split.
  - intros q s Hq. by exists s.
  - intros q s' p Hq Hp. left. by exists s'.
Qed.

Lemma record_match_extends url ms pat ms' :
  record_match url ms pat = Some ms' -> extends_by url [pat] ms ms'.
Proof.
  intros (s & Hs & [[-> _]|[-> _]])%record_match_spec;
    [apply extends_by_refl|].
  split; [|split].
  - rewrite dom_insert_L. apply set_eq. intros q.
    rewrite elem_of_union, elem_of_singleton. split; [|auto].
    intros [->|Hq]; [|done]. by apply elem_of_dom.
  - intros q t Hq. destruct (decide (pat = q)) as [<-|Hne].
    + rewrite lookup_insert_eq. eexists. split; [done|].
      rewrite Hs in Hq. injection Hq as <-. apply union_subseteq_r.
    + rewrite lookup_insert_ne by done. by exists t.
  - intros q t p Hq Hp. destruct (decide (pat = q)) as [<-|Hne].
    + rewrite lookup_insert_eq in Hq. injection Hq as <-.
      apply elem_of_union in Hp as [Hp|Hp].
      * apply elem_of_singleton in Hp as ->. right.
        split; [|done]. apply elem_of_cons. by left.
      * left. by exists s.
    + rewrite lookup_insert_ne in Hq by done. left. by exists t.
Qed.

Lemma extends_by_trans url found1 found2 ms1 ms2 ms3 :
  extends_by url found1 ms1 ms2 -> extends_by url found2 ms2 ms3 ->
  extends_by url (found1 ++ found2) ms1 ms3.
Proof.
  intros (Hd1 & Hup1 & Hfrom1) (Hd2 & Hup2 & Hfrom2). split; [|split].
  - by rewrite Hd2.
  - intros q s Hq. destruct (Hup1 q s Hq) as (s' & Hq' & Hsub).
    destruct (Hup2 q s' Hq') as (s'' & Hq'' & Hsub').
    exists s''. split; [done|]. by etrans.
  - intros q s'' p Hq Hp.
    destruct (Hfrom2 q s'' p Hq Hp) as [(s' & Hq' & Hp')|[Hin ->]].
    + destruct (Hfrom1 q s' p Hq' Hp') as [?|[Hin ->]]; [by left|].
      right. split; [|done]. apply elem_of_app. by left.
    + right. split; [|done]. apply elem_of_app. by right.
Qed.

Lemma record_matches_extends url found : forall ms ms',
  record_matches url ms found = Some ms' -> extends_by url found ms ms'.
Proof.
  induction found as [|pat rest IH]; cbn [record_matches]; intros ms ms'.
  { intros [= <-]. apply extends_by_refl. }
  destruct (record_match url ms pat) as [ms1|] eqn:H1;
    cbn [mbind option_bind]; [|done].
  intros Hrest.
  apply (extends_by_trans url [pat] rest ms ms1 ms').
  - by apply record_match_extends.
  - by apply IH.
Qed.

(** The update loop raises on a pattern that is no key of the table, and
    only then. *)
Lemma record_matches_total url found : forall ms,
  (forall pat, pat ∈ found -> pat ∈ dom ms) ->
  is_Some (record_matches url ms found).
Proof.
  induction found as [|pat rest IH]; cbn [record_matches]; intros ms Hkeys.
  { by eexists. }
  assert (Hpat : pat ∈ dom ms) by (apply Hkeys, elem_of_cons; by left).
  apply elem_of_dom in Hpat as [s Hs].
  destruct (record_match url ms pat) as [ms1|] eqn:H1.
  2:{ unfold record_match in H1. rewrite Hs in H1.
      cbn [mbind option_bind] in H1.
      by destruct (size s <? MAX_MATCH_PAGES_PER_QUERY). }
  cbn [mbind option_bind]. apply IH. intros q Hq.
  apply record_match_extends in H1 as (-> & _).
  apply Hkeys, elem_of_cons. by right.
Qed.

(** After the update loop a found pattern has the page, or its entry is
    full. *)
Lemma record_matches_records url found : forall ms ms' pat,
  record_matches url ms found = Some ms' -> pat ∈ found ->
  exists s, ms' !! pat = Some s
    /\ (url ∈ s \/ MAX_MATCH_PAGES_PER_QUERY <= size s).
Proof.
  induction found as [|q rest IH]; cbn [record_matches];
    intros ms ms' pat Hr Hin; [by apply elem_of_nil in Hin|].
  destruct (record_match url ms q) as [ms1|] eqn:H1;
    cbn [mbind option_bind] in Hr; [|done].
  apply elem_of_cons in Hin as [->|Hin]; [|by eapply IH].
  apply record_matches_extends in Hr as (_ & Hup & _).
  apply record_match_spec in H1 as (s & Hs & [[-> Hfull]|[-> _]]).
  - destruct (Hup q s Hs) as (s' & Hs' & Hsub). exists s'.
    split; [done|]. right. apply subseteq_size in Hsub. lia.
  - destruct (Hup q ({[url]} ∪ s)) as (s' & Hs' & Hsub).
    { by rewrite lookup_insert_eq. }
    exists s'. split; [done|]. left. apply Hsub.
    apply elem_of_union_l. by apply elem_of_singleton.
Qed.

(** The scanner within a run: built by the constructor for [pats], its
    table keyed by [pats]. *)
Definition scanner_for (b : bool) (pats : gset string) (sc : SiteScanner)
  : Prop :=
  matcher sc = Matcher_init b pats /\ dom (matches sc) = pats.

Lemma init_scanner_for robots_net b ds pats sc0 :
  init robots_net (SiteScanner_new b ds pats) = Some sc0 ->
  scanner_for b pats sc0 /\ domains sc0 = ds
  /\ matches sc0 = gset_to_gmap ∅ pats.
Proof.
  unfold init. cbn [SiteScanner_new domains rp_by_domain].
  destruct (load_all_robots _ _ _); cbn [mbind option_bind]; [|done].
  intros [= <-]. split; [|done]. split; [done|].
  cbn [matches]. apply dom_gset_to_gmap.
Qed.

(** The text a page is searched in mentions [pat]. *)
Definition page_mentions (scan_body : bool) (url : string)
    (resp : http_response) (pat : string) : Prop :=
  exists hrefs,
    fetch_html resp <> ""
    /\ extract_hrefs url (fetch_html resp) = Some hrefs
    /\ Str.contains pat (page_blob scan_body hrefs (fetch_html resp)) = true.

(** What [scan_page] does, for a scanner within a run. *)
Lemma scan_page_spec (b scan_body : bool) (pats : gset string)
    (order : gset string -> list string)
    (sc : SiteScanner) (url : string) (resp : http_response) :
  scanner_for b pats sc -> "" ∉ pats ->
  (forall s x, x ∈ order s <-> x ∈ s) ->
  match scan_page scan_body order sc url resp with
  | Some sc' =>
      domains sc' = domains sc /\ patterns sc' = patterns sc
      /\ matcher sc' = matcher sc /\ rp_by_domain sc' = rp_by_domain sc
      /\ exists found,
           extends_by url found (matches sc) (matches sc')
           /\ (forall pat, pat ∈ found ->
                 pat ∈ pats /\ allowed sc url = Some true
                 /\ page_mentions scan_body url resp pat)
           /\ (forall pat, pat ∈ pats -> allowed sc url = Some true ->
                 page_mentions scan_body url resp pat ->
                 exists s, matches sc' !! pat = Some s
                   /\ (url ∈ s \/ MAX_MATCH_PAGES_PER_QUERY <= size s))
  | None =>
      allowed sc url = Some true /\ fetch_html resp <> ""
      /\ extract_hrefs url (fetch_html resp) = None
  end.
Proof.
  intros [Hm Hdom] Hne Horder.
  destruct (allowed_never_raises_aux sc url) as [ok Hok].
  destruct (scan_page scan_body order sc url resp) as [sc'|] eqn:Hsp;
    unfold scan_page in Hsp; rewrite Hok in Hsp;
    cbn [mbind option_bind] in Hsp.
  - assert (Hstay : sc' = sc ->
      (allowed sc url = Some true -> forall pat,
         page_mentions scan_body url resp pat -> False) ->
      domains sc' = domains sc /\ patterns sc' = patterns sc
      /\ matcher sc' = matcher sc /\ rp_by_domain sc' = rp_by_domain sc
      /\ exists found,
           extends_by url found (matches sc) (matches sc')
           /\ (forall pat, pat ∈ found ->
                 pat ∈ pats /\ allowed sc url = Some true
                 /\ page_mentions scan_body url resp pat)
           /\ (forall pat, pat ∈ pats -> allowed sc url = Some true ->
                 page_mentions scan_body url resp pat ->
                 exists s, matches sc' !! pat = Some s
                   /\ (url ∈ s \/ MAX_MATCH_PAGES_PER_QUERY <= size s))).
    { intros -> Hno. repeat (split; [done|]). exists [].
      split; [apply extends_by_refl|]. split; [by intros pat ?%elem_of_nil|].
      intros pat _ Hyes Hpage. destruct (Hno Hyes pat Hpage). }
    destruct ok; cbn [negb] in Hsp.
    2:{ injection Hsp as <-. apply Hstay; [done|]. intros Hx. congruence. }
    destruct (nonempty (fetch_html resp)) eqn:Hhtml; cbn [negb] in Hsp.
    2:{ injection Hsp as <-. apply Hstay; [done|].
        intros _ pat (hrefs & Hh & _). by apply nonempty_false in Hhtml. }
    clear Hstay.
    destruct (extract_hrefs url (fetch_html resp)) as [hrefs|] eqn:Hhrefs;
      cbn [mbind option_bind] in Hsp; [|done].
    rewrite Hm in Hsp.
    destruct (find_in_init b pats
                (page_blob scan_body hrefs (fetch_html resp)) Hne)
      as (found & Hfind & Hfound).
    rewrite Hfind in Hsp. cbn [mbind option_bind] in Hsp.
    destruct (record_matches url (matches sc) (order found)) as [ms|] eqn:Hms;
      cbn [mbind option_bind] in Hsp; [|done].
    injection Hsp as <-. cbn [domains patterns matcher rp_by_domain matches].
    split; [done|]. split; [done|]. split; [by rewrite Hm|]. split; [done|].
    exists (order found).
    split; [by apply record_matches_extends|]. split.
    + intros pat Hpat%Horder. apply Hfound in Hpat as [Hp Hc].
      split; [done|]. split; [done|]. exists hrefs.
      split; [by apply nonempty_true|done].
    + intros pat Hp _ (hrefs' & _ & Hh' & Hc).
      rewrite Hhrefs in Hh'. injection Hh' as <-.
      apply (record_matches_records url (order found) (matches sc)); [done|].
      apply Horder, Hfound. by split.
  - destruct ok; cbn [negb] in Hsp; [|done].
    destruct (nonempty (fetch_html resp)) eqn:Hhtml; cbn [negb] in Hsp;
      [|done].
    apply nonempty_true in Hhtml.
    destruct (extract_hrefs url (fetch_html resp)) as [hrefs|] eqn:Hhrefs;
      cbn [mbind option_bind] in Hsp; [|done].
    exfalso. rewrite Hm in Hsp.
    destruct (find_in_init b pats
                (page_blob scan_body hrefs (fetch_html resp)) Hne)
      as (found & Hfind & Hfound).
    rewrite Hfind in Hsp. cbn [mbind option_bind] in Hsp.
    destruct (record_matches_total url (order found) (matches sc))
      as [ms Hms].
    { intros pat Hpat%Horder. rewrite Hdom.
      by apply Hfound in Hpat as [? _]. }
    by rewrite Hms in Hsp.
Qed.

End ScannerFacts.

Section RunFacts.
Context `{PyLib}.
Import Urllib.

(** What a page task may change, whatever the scanner. *)
Lemma scan_page_changes (scan_body : bool)
    (order : gset string -> list string)
    (sc sc' : SiteScanner) (url : string) (resp : http_response) :
  scan_page scan_body order sc url resp = Some sc' ->
  domains sc' = domains sc /\ patterns sc' = patterns sc
  /\ matcher sc' = matcher sc /\ rp_by_domain sc' = rp_by_domain sc
  /\ exists found, extends_by url found (matches sc) (matches sc').
Proof.
  unfold scan_page. intros Hsp.
  assert (Hstay : domains sc = domains sc /\ patterns sc = patterns sc
            /\ matcher sc = matcher sc /\ rp_by_domain sc = rp_by_domain sc
            /\ exists found, extends_by url found (matches sc) (matches sc)).
  { repeat (split; [done|]). exists []. apply extends_by_refl. }
  destruct (allowed sc url) as [ok|]; cbn [mbind option_bind] in Hsp; [|done].
  destruct (negb ok); [by injection Hsp as <-|].
  destruct (negb (nonempty (fetch_html resp))); [by injection Hsp as <-|].
  destruct (extract_hrefs url (fetch_html resp)) as [hrefs|];
    cbn [mbind option_bind] in Hsp; [|done].
  destruct (find_in _ _) as [found|]; cbn [mbind option_bind] in Hsp; [|done].
  destruct (record_matches url (matches sc) (order found)) as [ms|] eqn:Hms;
    cbn [mbind option_bind] in Hsp; [|done].
  injection Hsp as <-. cbn. repeat (split; [done|]).
  exists (order found). by apply record_matches_extends.
Qed.

Lemma run_only_adds_pages_aux (scan_body : bool)
    (order : gset string -> list string)
    (completed : list (string * http_response)) : forall sc sc',
  run scan_body order sc completed = Some sc' ->
  forall pat s, matches sc !! pat = Some s ->
    exists s', matches sc' !! pat = Some s' /\ s ⊆ s'.
Proof.
  induction completed as [|[url resp] rest IH]; cbn [run]; intros sc sc' Hr.
  { injection Hr as <-. intros pat s Hs. by exists s. }
  destruct (scan_page scan_body order sc url resp) as [sc1|] eqn:H1;
    cbn [mbind option_bind] in Hr; [|done].
  destruct (scan_page_changes _ _ _ _ _ _ H1)
    as (_ & _ & _ & _ & found & _ & Hup & _).
  intros pat s Hs. destruct (Hup pat s Hs) as (s1 & Hs1 & Hsub).
  destruct (IH sc1 sc' Hr pat s1 Hs1) as (s' & Hs' & Hsub').
  exists s'. split; [done|]. by etrans.
Qed.

(** X13: A run changes nothing but the match table, keeps the keys of the
    table, and removes no page from it: every entry only grows. *)
Theorem run_only_adds_pages (scan_body : bool)
    (order : gset string -> list string)
    (completed : list (string * http_response)) (sc sc' : SiteScanner) :
  run scan_body order sc completed = Some sc' ->
  domains sc' = domains sc /\ patterns sc' = patterns sc
  /\ matcher sc' = matcher sc /\ rp_by_domain sc' = rp_by_domain sc
  /\ dom (matches sc') = dom (matches sc)
  /\ forall pat s, matches sc !! pat = Some s ->
       exists s', matches sc' !! pat = Some s' /\ s ⊆ s'.
Proof.
  revert sc. induction completed as [|[url resp] rest IH]; cbn [run];
    intros sc Hr.
  { injection Hr as <-. repeat (split; [done|]). intros pat s Hs. by exists s. }
  destruct (scan_page scan_body order sc url resp) as [sc1|] eqn:H1;
    cbn [mbind option_bind] in Hr; [|done].
  destruct (scan_page_changes _ _ _ _ _ _ H1)
    as (Hd & Hp & Hm & Hrp & found & Hdom & Hup & _).
  destruct (IH sc1 Hr) as (Hd' & Hp' & Hm' & Hrp' & Hdom' & Hup').
  split; [congruence|]. split; [congruence|]. split; [congruence|].
  split; [congruence|]. split; [congruence|].
  intros pat s Hs. destruct (Hup pat s Hs) as (s1 & Hs1 & Hsub).
  destruct (Hup' pat s1 Hs1) as (s' & Hs' & Hsub').
  exists s'. split; [done|]. by etrans.
Qed.

(** The invariant of a run and what its table holds at the end. *)
Lemma run_spec (b scan_body : bool) (pats : gset string)
    (order : gset string -> list string) :
  "" ∉ pats ->
  (forall s x, x ∈ order s <-> x ∈ s) ->
  forall completed sc sc',
    scanner_for b pats sc ->
    run scan_body order sc completed = Some sc' ->
    scanner_for b pats sc'
    /\ (forall q s' p, matches sc' !! q = Some s' -> p ∈ s' ->
          (exists s, matches sc !! q = Some s /\ p ∈ s)
          \/ (q ∈ pats /\ allowed sc p = Some true
              /\ exists resp, (p, resp) ∈ completed
                   /\ page_mentions scan_body p resp q))
    /\ (forall p resp q,
          (p, resp) ∈ completed -> q ∈ pats -> allowed sc p = Some true ->
          page_mentions scan_body p resp q ->
          exists s, matches sc' !! q = Some s
            /\ (p ∈ s \/ MAX_MATCH_PAGES_PER_QUERY <= size s)).
Proof.
  intros Hne Horder.
  induction completed as [|[url resp] rest IH]; cbn [run]; intros sc sc' Hsc Hr.
  { injection Hr as <-. split; [done|]. split.
    - intros q s' p Hq Hp. left. by exists s'.
    - by intros p resp q ?%elem_of_nil. }
  destruct (scan_page scan_body order sc url resp) as [sc1|] eqn:H1;
    cbn [mbind option_bind] in Hr; [|done].
  pose proof (scan_page_spec b scan_body pats order sc url resp Hsc Hne Horder)
    as Hspec.
  rewrite H1 in Hspec.
  destruct Hspec as (Hd & Hp & Hm & Hrp & found & Hext & Hsound & Hcompl).
  destruct Hext as (Hdom & Hup & Hfrom).
  assert (Hsc1 : scanner_for b pats sc1).
  { destruct Hsc as [Hmatcher Hkeys]. split; congruence. }
  assert (Hallowed : forall u, allowed sc1 u = allowed sc u)
    by (intros u; by apply allowed_same).
  destruct (IH sc1 sc' Hsc1 Hr) as (Hsc' & Hs' & Hc').
  split; [done|]. split.
  - intros q s' p Hq Hp'.
    destruct (Hs' q s' p Hq Hp')
      as [(s1 & Hq1 & Hp1)|(Hqp & Hal & r & Hin & Hment)].
    + destruct (Hfrom q s1 p Hq1 Hp1) as [?|[Hqf ->]]; [by left|].
      right. destruct (Hsound q Hqf) as (? & ? & ?).
      split; [done|]. split; [done|]. exists resp.
      split; [apply elem_of_cons; by left|done].
    + right. split; [done|]. split; [by rewrite <- Hallowed|].
      exists r. split; [apply elem_of_cons; by right|done].
  - intros p r q [[= -> ->]|Hin]%elem_of_cons Hq Hal Hment.
    + destruct (Hcompl q Hq Hal Hment) as (s1 & Hs1 & Hin1).
      destruct (run_only_adds_pages_aux scan_body order rest sc1 sc' Hr q s1 Hs1)
        as (s & Hs & Hsub).
      exists s. split; [done|]. destruct Hin1 as [Hin1|Hfull].
      * left. by apply Hsub.
      * right. apply subseteq_size in Hsub. lia.
    + apply (Hc' p r q Hin Hq); [by rewrite Hallowed|done].
Qed.

End RunFacts.

Section RunTheorems.
Context `{PyLib}.
Import Urllib.

(** X14: Within a run of the scanner a page task raises in one case only:
    the page is allowed, its text is not empty, and [extract_hrefs]
    raises on it ([urljoin] or [urldefrag] refuse a link).  The matcher
    raises no IndexError and the table no KeyError.  [run] awaits every
    task, so such a page ends the run with that exception. *)
Theorem scan_page_raises_only_in_extract_hrefs
    (b scan_body : bool) (ds : list string) (pats : gset string)
    (robots_net : string -> Robots.read_outcome)
    (order : gset string -> list string)
    (completed : list (string * http_response)) (sc0 sc : SiteScanner)
    (url : string) (resp : http_response) :
  init robots_net (SiteScanner_new b ds pats) = Some sc0 ->
  run scan_body order sc0 completed = Some sc ->
  "" ∉ pats ->
  (forall s x, x ∈ order s <-> x ∈ s) ->
  (scan_page scan_body order sc url resp = None
   <-> allowed sc url = Some true
       /\ fetch_html resp <> ""
       /\ extract_hrefs url (fetch_html resp) = None)
  /\ (scan_page scan_body order sc url resp = None ->
      run scan_body order sc0 (completed ++ [(url, resp)]) = None).
Proof.
  intros Hinit Hrun Hne Horder.
  destruct (init_scanner_for _ _ _ _ _ Hinit) as (Hsc0 & _).
  destruct (run_spec b scan_body pats order Hne Horder completed sc0 sc
              Hsc0 Hrun) as (Hsc & _).
  split; [split|].
  - intros Hnone.
    pose proof (scan_page_spec b scan_body pats order sc url resp
                  Hsc Hne Horder) as Hspec.
    by rewrite Hnone in Hspec.
  - intros (Hok & Hhtml & Hhrefs). unfold scan_page.
    rewrite Hok. cbn [mbind option_bind negb].
    apply nonempty_true in Hhtml. rewrite Hhtml. cbn [negb].
    by rewrite Hhrefs.
  - intros Hnone. clear Hsc0 Hsc Hinit. revert sc0 Hrun.
    induction completed as [|[u r] rest IH]; cbn [run app]; intros sc0 Hrun.
    + injection Hrun as ->. by rewrite Hnone.
    + destruct (scan_page scan_body order sc0 u r) as [sc1|];
        cbn [mbind option_bind] in *; [by apply IH|done].
Qed.

(** X15: No false positive: a page stands in the table under a pattern only
    if the pattern is one of the scanner's, the page was allowed (in the
    scope of the domains, no binary, not refused by robots.txt), its task
    completed in this run, and the pattern occurs in the text searched
    for that page. *)
Theorem run_records_only_matching_pages
    (b scan_body : bool) (ds : list string) (pats : gset string)
    (robots_net : string -> Robots.read_outcome)
    (order : gset string -> list string)
    (completed : list (string * http_response)) (sc0 sc : SiteScanner)
    (pat page : string) (s : gset string) :
  init robots_net (SiteScanner_new b ds pats) = Some sc0 ->
  run scan_body order sc0 completed = Some sc ->
  "" ∉ pats ->
  (forall s x, x ∈ order s <-> x ∈ s) ->
  matches sc !! pat = Some s ->
  page ∈ s ->
  pat ∈ pats
  /\ allowed sc0 page = Some true
  /\ same_domain page ds = true
  /\ is_binary_url page = Some false
  /\ exists resp,
       (page, resp) ∈ completed /\ page_mentions scan_body page resp pat.
Proof.
  intros Hinit Hrun Hne Horder Hs Hpage.
  destruct (init_scanner_for _ _ _ _ _ Hinit) as (Hsc0 & Hds & Hms0).
  destruct (run_spec b scan_body pats order Hne Horder completed sc0 sc
              Hsc0 Hrun) as (_ & Hsound & _).
  destruct (Hsound pat s page Hs Hpage)
    as [(s0 & Hs0 & Hin)|(Hpat & Hal & resp & Hin & Hment)].
  { rewrite Hms0 in Hs0. apply lookup_gset_to_gmap_Some in Hs0 as [_ <-].
    by apply not_elem_of_empty in Hin. }
  split; [done|]. split; [done|].
  assert (Hscope : same_domain page ds = true
                   /\ is_binary_url page = Some false).
  { unfold allowed in Hal. rewrite Hds in Hal.
    destruct (same_domain page ds); cbn [negb] in Hal; [|done].
    destruct (is_binary_url page) as [[]|]; cbn in Hal; done. }
  destruct Hscope. split; [done|]. split; [done|]. by exists resp.
Qed.

(** X16: No false negative below the cap: when the task of an allowed page
    has completed and a pattern of the scanner occurs in the text
    searched for it, then at the end of the run the entry of the pattern
    holds the page, or it is full ([MAX_MATCH_PAGES_PER_QUERY] pages). *)
Theorem run_records_every_match_below_cap
    (b scan_body : bool) (ds : list string) (pats : gset string)
    (robots_net : string -> Robots.read_outcome)
    (order : gset string -> list string)
    (completed : list (string * http_response)) (sc0 sc : SiteScanner)
    (pat page : string) (resp : http_response) :
  init robots_net (SiteScanner_new b ds pats) = Some sc0 ->
  run scan_body order sc0 completed = Some sc ->
  "" ∉ pats ->
  (forall s x, x ∈ order s <-> x ∈ s) ->
  (page, resp) ∈ completed ->
  allowed sc0 page = Some true ->
  pat ∈ pats ->
  page_mentions scan_body page resp pat ->
  exists s,
    matches sc !! pat = Some s
    /\ (page ∈ s \/ size s = MAX_MATCH_PAGES_PER_QUERY).
Proof.
  intros Hinit Hrun Hne Horder Hin Hal Hpat Hment.
  destruct (init_scanner_for _ _ _ _ _ Hinit) as (Hsc0 & Hds & Hms0).
  destruct (run_spec b scan_body pats order Hne Horder completed sc0 sc
              Hsc0 Hrun) as (_ & _ & Hcompl).
  destruct (Hcompl page resp pat Hin Hpat Hal Hment) as (s & Hs & Hor).
  exists s. split; [done|]. destruct Hor as [?|Hfull]; [by left|].
  right.
  assert (Hcap : within_cap (matches sc)).
  { eapply run_within_cap; [|exact Hrun].
    rewrite Hms0. apply within_cap_initial. }
  specialize (Hcap pat s Hs). lia.
Qed.

(** X17: The links of a page: one per anchor with a non-empty href, in
    document order, each joined with the page URL and cut before its
    fragment, so no link that is returned holds a "#". *)
Theorem extract_hrefs_have_no_fragment (base_url html_text : string)
    (hrefs : list string) :
  extract_hrefs base_url html_text = Some hrefs ->
  Forall2 (fun href h =>
             href <> ""
             /\ exists absu, urljoin base_url href = Some absu
                  /\ urldefrag absu = Some h)
          (List.filter nonempty (soup_anchor_hrefs html_text)) hrefs
  /\ Forall (fun h => Str.mem "#" h = false) hrefs.
Proof.
  unfold extract_hrefs. intros Hm%mapM_Some.
  assert (Hall : Forall (fun href => href <> "")
                   (List.filter nonempty (soup_anchor_hrefs html_text))).
  { apply Forall_forall. intros href Hin.
    apply list_elem_of_In, filter_In in Hin as [_ Hne].
    by apply nonempty_true. }
  induction Hm as [|href h hs1 hs2 Hh _ IH]; [by split|].
  apply Forall_cons_1 in Hall as [Hne Hall].
  destruct (IH Hall) as [IH1 IH2].
  destruct (urljoin base_url href) as [absu|] eqn:Hj;
    cbn [mbind option_bind] in Hh; [|done].
  split.
  - constructor; [|done]. split; [done|]. by exists absu.
  - constructor; [|done]. by apply (urldefrag_no_hash absu).
Qed.

End RunTheorems.

(** A run over one page whose link mentions the pattern. *)
Lemma run_only_adds_pages_witness :
  match demo_scanner with
  | Some sc0 =>
      match @run linked_lib true elements sc0 demo_completed with
      | Some sc =>
          domains sc = domains sc0 /\ patterns sc = patterns sc0
          /\ matcher sc = matcher sc0 /\ rp_by_domain sc = rp_by_domain sc0
          /\ dom (matches sc) = dom (matches sc0)
          /\ forall pat s, matches sc0 !! pat = Some s ->
               exists s', matches sc !! pat = Some s' /\ s ⊆ s'
      | None => False
      end
  | None => False
  end.
Proof.
  assert (Hc : (sc0 ← demo_scanner;
                sc ← @run linked_lib true elements sc0 demo_completed;
                Some true) = Some true) by (vm_compute; reflexivity).
  destruct demo_scanner as [sc0|]; [|discriminate Hc].
  cbn [mbind option_bind] in Hc.
  destruct (@run linked_lib true elements sc0 demo_completed) as [sc|] eqn:Hr;
    [|discriminate Hc].
  exact (@run_only_adds_pages linked_lib true elements demo_completed
           sc0 sc Hr).
Defined.

Lemma run_records_only_matching_pages_witness :
  match demo_scanner with
  | Some sc0 =>
      "example.com/a" ∈ ({[ "example.com/a" ]} : gset string)
      /\ @allowed linked_lib sc0 "https://example.com/x" = Some true
      /\ @same_domain linked_lib "https://example.com/x" ["example.com"]
         = true
      /\ @is_binary_url linked_lib "https://example.com/x" = Some false
      /\ exists resp,
           ("https://example.com/x", resp) ∈ demo_completed
           /\ @page_mentions linked_lib true "https://example.com/x" resp
                "example.com/a"
  | None => False
  end.
Proof.
  assert (Hc : (sc0 ← demo_scanner;
                sc ← @run linked_lib true elements sc0 demo_completed;
                Some (bool_decide
                        ("https://example.com/x"
                           ∈ default ∅ (matches sc !! "example.com/a"))))
               = Some true) by (vm_compute; reflexivity).
  destruct demo_scanner as [sc0|] eqn:Hi; [|discriminate Hc].
  cbn [mbind option_bind] in Hc.
  destruct (@run linked_lib true elements sc0 demo_completed) as [sc|] eqn:Hr;
    [|discriminate Hc].
  cbn [mbind option_bind] in Hc. injection Hc as Hc.
  apply bool_decide_eq_true in Hc.
  destruct (matches sc !! "example.com/a") as [s|] eqn:Hs;
    [|by apply not_elem_of_empty in Hc].
  apply (@run_records_only_matching_pages linked_lib true true
           ["example.com"] {[ "example.com/a" ]}
           (fun _ => Robots.ReadHTTPError 404) elements demo_completed
           sc0 sc "example.com/a" "https://example.com/x" s Hi Hr).
  - apply (bool_decide_unpack _). vm_compute. exact I.
  - intros t x. apply elem_of_elements.
  - exact Hs.
  - exact Hc.
Defined.

Lemma run_records_every_match_below_cap_witness :
  match demo_scanner with
  | Some sc0 =>
      match @run linked_lib true elements sc0 demo_completed with
      | Some sc =>
          exists s,
            matches sc !! "example.com/a" = Some s
            /\ ("https://example.com/x" ∈ s
                \/ size s = MAX_MATCH_PAGES_PER_QUERY)
      | None => False
      end
  | None => False
  end.
Proof.
  assert (Hc : (sc0 ← demo_scanner;
                sc ← @run linked_lib true elements sc0 demo_completed;
                @allowed linked_lib sc0 "https://example.com/x")
               = Some true) by (vm_compute; reflexivity).
  destruct demo_scanner as [sc0|] eqn:Hi; [|discriminate Hc].
  cbn [mbind option_bind] in Hc.
  destruct (@run linked_lib true elements sc0 demo_completed) as [sc|] eqn:Hr;
    [|discriminate Hc].
  cbn [mbind option_bind] in Hc.
  apply (@run_records_every_match_below_cap linked_lib true true
           ["example.com"] {[ "example.com/a" ]}
           (fun _ => Robots.ReadHTTPError 404) elements demo_completed
           sc0 sc "example.com/a" "https://example.com/x"
           (HttpResponse 200 sample_page "text/html") Hi Hr).
  - apply (bool_decide_unpack _). vm_compute. exact I.
  - intros t x. apply elem_of_elements.
  - apply elem_of_cons. left. reflexivity.
  - exact Hc.
  - apply elem_of_singleton. reflexivity.
  - exists ["https://example.com/a/b"].
    split; [vm_compute; discriminate|].
    split; vm_compute; reflexivity.
Defined.

(** A page with a link that [urljoin] refuses. *)
Lemma scan_page_raises_only_in_extract_hrefs_witness :
  match demo_scanner with
  | Some sc0 =>
      (@scan_page linked_lib true elements sc0 "https://example.com/y"
         (HttpResponse 200 bad_page "text/html") = None
       <-> @allowed linked_lib sc0 "https://example.com/y" = Some true
           /\ @fetch_html linked_lib (HttpResponse 200 bad_page "text/html")
              <> ""
           /\ @extract_hrefs linked_lib "https://example.com/y"
                (@fetch_html linked_lib
                   (HttpResponse 200 bad_page "text/html")) = None)
      /\ (@scan_page linked_lib true elements sc0 "https://example.com/y"
            (HttpResponse 200 bad_page "text/html") = None ->
          @run linked_lib true elements sc0
            ([] ++ [("https://example.com/y",
                     HttpResponse 200 bad_page "text/html")]) = None)
  | None => False
  end.
Proof.
  assert (Hc : (sc0 ← demo_scanner; Some true) = Some true)
    by (vm_compute; reflexivity).
  destruct demo_scanner as [sc0|] eqn:Hi; [|discriminate Hc].
  apply (@scan_page_raises_only_in_extract_hrefs linked_lib true true
           ["example.com"] {[ "example.com/a" ]}
           (fun _ => Robots.ReadHTTPError 404) elements [] sc0 sc0
           "https://example.com/y" (HttpResponse 200 bad_page "text/html")
           Hi eq_refl).
  - apply (bool_decide_unpack _). vm_compute. exact I.
  - intros t x. apply elem_of_elements.
Defined.

Lemma extract_hrefs_have_no_fragment_witness :
  Forall2 (fun href h =>
             href <> ""
             /\ exists absu,
                  @Urllib.urljoin linked_lib "https://example.com/x" href
                  = Some absu
                  /\ @Urllib.urldefrag linked_lib absu = Some h)
          (List.filter Urllib.nonempty
             (@soup_anchor_hrefs linked_lib sample_page))
          ["https://example.com/a/b"]
  /\ Forall (fun h => Str.mem "#" h = false) ["https://example.com/a/b"].
Proof.
  apply (@extract_hrefs_have_no_fragment linked_lib "https://example.com/x"
           sample_page).
  vm_compute. reflexivity.
Defined.

(** ** The text a page is searched in *)

Section Blob.
Context `{PyLib}.
Import Urllib.

Lemma contains_app_l p a b :
  Str.contains p a = true -> Str.contains p (a +:+ b) = true.
Proof.
  rewrite !contains_infix, chars_app. intros (l & r & ->).
  exists l, (r ++ list_ascii_of_string b). by rewrite <- !app_assoc.
Qed.

Lemma contains_app_r p a b :
  Str.contains p b = true -> Str.contains p (a +:+ b) = true.
Proof.
  rewrite !contains_infix, chars_app. intros (l & r & ->).
  exists (list_ascii_of_string a ++ l), r. by rewrite <- !app_assoc.
Qed.

(** A word without the separator that occurs in [a + sep + b] occurs in
    [a] or in [b]. *)
Lemma contains_app_sep p a b (c : ascii) :
  Str.mem c p = false ->
  Str.contains p (a +:+ String c b) = true ->
  Str.contains p a = true \/ Str.contains p b = true.
Proof.
  intros Hc. rewrite !contains_infix, chars_app.
  cbn [list_ascii_of_string]. intros (l & r & Heq).
  assert (Hp : c ∉ list_ascii_of_string p).
  { clear Heq. induction p as [|x p IH]; [by intros ?%elem_of_nil|].
    cbn [Str.mem] in Hc. apply orb_false_elim in Hc as [Hx Hc].
    cbn [list_ascii_of_string]. intros [->|Hin]%elem_of_cons.
    - by rewrite Ascii.eqb_refl in Hx.
    - by apply IH. }
  symmetry in Heq. apply app_eq_app in Heq as [k [[-> Heq]|[Ha Heq]]].
  - (* the separator lies before [p] *)
    destruct k as [|x k].
    + cbn [app] in Heq. destruct (list_ascii_of_string p) as [|y q] eqn:Hq.
      * right. by exists [], (list_ascii_of_string b).
      * injection Heq as <- _. destruct Hp. apply elem_of_cons. by left.
    + injection Heq as _ ->. right. by exists k, r.
  - (* the separator lies after the start of [p] *)
    apply app_eq_app in Heq as [k2 [[Hp' Heq]|[-> Heq]]].
    + destruct k2 as [|x k2].
      * left. exists l, []. rewrite app_nil_r in Hp'.
        by rewrite Ha, Hp', app_nil_r.
      * injection Heq as <- _. destruct Hp. rewrite Hp'.
        apply elem_of_app. right. apply elem_of_cons. by left.
    + left. exists l, k2. by rewrite Ha.
Qed.

Lemma contains_join sep (hs : list string) (h p : string) :
  h ∈ hs -> Str.contains p h = true -> Str.contains p (Str.join sep hs) = true.
Proof.
  intros Hin Hc. induction hs as [|w ws IH]; [by apply elem_of_nil in Hin|].
  cbn [Str.join]. apply elem_of_cons in Hin as [->|Hin].
  - destruct ws; [done|]. by apply contains_app_l.
  - destruct ws as [|w' ws']; [by apply elem_of_nil in Hin|].
    apply contains_app_r, contains_app_r. by apply IH.
Qed.

Lemma contains_join_inv (c : ascii) (hs : list string) (p : string) :
  Str.mem c p = false -> p <> "" ->
  Str.contains p (Str.join (String c "") hs) = true ->
  exists h, h ∈ hs /\ Str.contains p h = true.
Proof.
  intros Hc Hne. induction hs as [|w ws IH]; cbn [Str.join].
  { intros Hcon. destruct p; [done|]. by cbn in Hcon. }
  destruct ws as [|w' ws'].
  { intros Hcon. exists w. split; [apply elem_of_cons; by left|done]. }
  intros Hcon.
  change (w +:+ String c "" +:+ Str.join (String c "") (w' :: ws'))
    with (w +:+ String c (Str.join (String c "") (w' :: ws'))) in Hcon.
  apply contains_app_sep in Hcon as [Hw|Hrest]; [| |done].
  - exists w. split; [apply elem_of_cons; by left|done].
  - destruct (IH Hrest) as (h & Hin & Hh). exists h.
    split; [apply elem_of_cons; by right|done].
Qed.

(** X18: The blob joins the links and, when the body is scanned, the HTML text
    with newlines.  Joining loses no match: a pattern that occurs in a
    link or in the scanned body occurs in the blob.  And it creates none
    for a pattern without a newline: such a pattern occurs in the blob
    only if it occurs in a link or in the scanned body. *)
Theorem page_blob_matches (scan_body : bool) (hrefs : list string)
    (html_text p : string) :
  p <> "" ->
  ((scan_body = true /\ Str.contains p html_text = true)
   \/ (exists h, h ∈ hrefs /\ Str.contains p h = true) ->
   Str.contains p (page_blob scan_body hrefs html_text) = true)
  /\ (Str.mem "010" p = false ->
      Str.contains p (page_blob scan_body hrefs html_text) = true ->
      (scan_body = true /\ Str.contains p html_text = true)
      \/ (exists h, h ∈ hrefs /\ Str.contains p h = true)).
Proof.
  intros Hne. unfold page_blob. split.
  - intros [[-> Hc]|(h & Hin & Hc)].
    + apply (contains_join _ _ html_text); [|done].
      apply elem_of_app. right. apply elem_of_cons. by left.
    + apply (contains_join _ _ (Str.join (String "010" "") hrefs)).
      * destruct hrefs; [by apply elem_of_nil in Hin|].
        apply elem_of_app. left. apply elem_of_cons. by left.
      * by apply (contains_join _ _ h).
  - intros Hnl Hc.
    apply (contains_join_inv "010") in Hc as (blob & Hin & Hc); [|done..].
    apply elem_of_app in Hin as [Hin|Hin].
    + right. destruct hrefs as [|h0 hs]; [by apply elem_of_nil in Hin|].
      apply list_elem_of_singleton in Hin as ->.
      by apply (contains_join_inv "010") in Hc.
    + left. destruct scan_body; [|by apply elem_of_nil in Hin].
      apply list_elem_of_singleton in Hin as ->. done.
Qed.

End Blob.

Lemma page_blob_matches_witness :
  ((true = true /\ Str.contains "example.com/a" sample_page = true)
   \/ (exists h, h ∈ ["https://example.com/a/b"]
         /\ Str.contains "example.com/a" h = true) ->
   Str.contains "example.com/a"
     (page_blob true ["https://example.com/a/b"] sample_page) = true)
  /\ (Str.mem "010" "example.com/a" = false ->
      Str.contains "example.com/a"
        (page_blob true ["https://example.com/a/b"] sample_page) = true ->
      (true = true /\ Str.contains "example.com/a" sample_page = true)
      \/ (exists h, h ∈ ["https://example.com/a/b"]
            /\ Str.contains "example.com/a" h = true)).
Proof.
  apply (page_blob_matches true ["https://example.com/a/b"] sample_page
           "example.com/a").
  discriminate.
Defined.

(** ** [init] on host names *)

Section InitFacts.
Context `{PyLib}.
Import Urllib.



End InitFacts.


(** ** More on the report *)

Section ReportCells.
Context `{PyLib}.
Import Urllib.

(** The cells of a row: [MAX_MATCH_PAGES_PER_QUERY] of them; the first
    [match_count] list matched pages in ascending order without
    repetition, and they are the pages that sort first; the others are
    empty. *)
Definition row_lists (pages : gset string) (row : Row) : Prop :=
  let listed := take (match_count row) (match_page_cells row) in
  length (match_page_cells row) = MAX_MATCH_PAGES_PER_QUERY
  /\ match_page_cells row
     = listed ++ replicate (MAX_MATCH_PAGES_PER_QUERY - match_count row) ""
  /\ StronglySorted String.le listed
  /\ NoDup listed
  /\ (forall p, p ∈ listed -> p ∈ pages)
  /\ (forall p q, p ∈ listed -> q ∈ pages -> q ∉ listed -> String.le p q).

Lemma result_row_lists ms u vars :
  row_lists (matched_pages ms vars) (result_row ms u vars).
Proof.
  unfold row_lists, result_row. cbn [match_count match_page_cells].
  set (all := sorted (matched_pages ms vars)).
  set (page_list := take MAX_MATCH_PAGES_PER_QUERY all).
  rewrite take_app_length.
  assert (Hsorted : StronglySorted String.le all).
  { apply StronglySorted_merge_sort; apply _. }
  assert (Hperm : all ≡ₚ elements (matched_pages ms vars))
    by apply merge_sort_Permutation.
  assert (Hsplit : all = page_list ++ drop MAX_MATCH_PAGES_PER_QUERY all)
    by (symmetry; apply take_drop).
  assert (Hlen : length page_list <= MAX_MATCH_PAGES_PER_QUERY).
  { unfold page_list. rewrite length_take. lia. }
  split; [rewrite length_app, length_replicate; lia|].
  split; [done|]. split.
  { rewrite Hsplit in Hsorted. by apply StronglySorted_app_1_l in Hsorted. }
  assert (Hnd : NoDup all).
  { rewrite Hperm. apply NoDup_elements. }
  split.
  { rewrite Hsplit in Hnd. by apply NoDup_app in Hnd as [? _]. }
  split.
  { intros p Hp. apply elem_of_elements. rewrite <- Hperm, Hsplit.
    apply elem_of_app. by left. }
  intros p q Hp Hq Hout.
  apply elem_of_elements in Hq. rewrite <- Hperm, Hsplit in Hq.
  apply elem_of_app in Hq as [Hq|Hq]; [done|].
  rewrite Hsplit in Hsorted.
  by apply (StronglySorted_app_1_elem_of _ _ _ p q Hsorted).
Qed.

(** X20: Every row of the report has as many page cells as the cap, lists the
    matched pages of its input in ascending order without repetition,
    pads with empty cells, and, when more pages match than the cap
    admits, keeps the ones that sort first. *)
Theorem report_rows_list_the_first_pages
    (inputs : list string) (ms : gmap string (gset string))
    (rows : list Row) :
  write_results inputs ms = Some rows ->
  Forall2 (fun u row =>
             exists vars,
               normalize_variants u = Some vars
               /\ row_lists (matched_pages ms vars) row)
          inputs rows.
Proof.
  unfold write_results.
  destruct (rebuild_input_variant_map inputs) as [m|] eqn:Hm;
    cbn [mbind option_bind]; [|done].
  intros Hrows%mapM_Some.
  pose proof (rebuild_lookup inputs m Hm) as Hlook.
  assert (Hin : Forall (fun u => m !! u = normalize_variants u) inputs).
  { apply Forall_forall. intros u Hu. by destruct (Hlook u Hu). }
  clear Hlook Hm.
  induction Hrows as [|u row us rs Hrow _ IH]; [constructor|].
  apply Forall_cons_1 in Hin as [Hu Hin]. constructor; [|by apply IH].
  cbn beta in Hrow. rewrite Hu in Hrow.
  destruct (normalize_variants u) as [vars|];
    cbn [mbind option_bind] in Hrow; [|done].
  injection Hrow as <-. exists vars. split; [done|]. apply result_row_lists.
Qed.



End ReportCells.

(** One input with two matched pages. *)
Lemma report_rows_list_the_first_pages_witness :
  match @write_results plain_lib ["https://www.example.com/a"]
          {[ "example.com/a" := {[ "https://example.com/p2";
                                    "https://example.com/p1" ]} ]} with
  | Some rows =>
      Forall2 (fun u row =>
                 exists vars,
                   @normalize_variants plain_lib u = Some vars
                   /\ row_lists
                        (matched_pages
                           {[ "example.com/a" := {[ "https://example.com/p2";
                                                     "https://example.com/p1" ]} ]}
                           vars) row)
              ["https://www.example.com/a"] rows
  | None => False
  end.
Proof.
  destruct (@write_results plain_lib ["https://www.example.com/a"] _)
    as [rows|] eqn:Hw.
  - exact (@report_rows_list_the_first_pages plain_lib _ _ rows Hw).
  - assert (Hc : match @write_results plain_lib
                         ["https://www.example.com/a"]
                         {[ "example.com/a" :=
                              {[ "https://example.com/p2";
                                 "https://example.com/p1" ]} ]} with
                 | Some _ => true
                 | None => false
                 end = true) by (vm_compute; reflexivity).
    rewrite Hw in Hc. discriminate Hc.
Defined.

(** The cells of that row: the two pages in ascending order, then
    padding. *)
Example report_row_example :
  match @write_results plain_lib ["https://www.example.com/a"]
          {[ "example.com/a" := {[ "https://example.com/p2";
                                    "https://example.com/p1" ]} ]} with
  | Some [row] =>
      take 3%nat (match_page_cells row)
      = ["https://example.com/p1"; "https://example.com/p2"; ""]
      /\ length (match_page_cells row) = 100
  | _ => False
  end.
Proof. vm_compute. split; reflexivity. Qed.

(** ** More on the variants *)

Section VariantFacts.
Context `{PyLib}.
Import Urllib.

Lemma lstrip_by_idem f s :
  Str.lstrip_by f (Str.lstrip_by f s) = Str.lstrip_by f s.
Proof.
  induction s as [|c s IH]; [done|]. cbn [Str.lstrip_by].
  destruct (f c) eqn:Hc; [done|]. cbn [Str.lstrip_by]. by rewrite Hc.
Qed.

Lemma rstrip_by_idem f s :
  Str.rstrip_by f (Str.rstrip_by f s) = Str.rstrip_by f s.
Proof.
  induction s as [|c s IH]; [done|]. cbn [Str.rstrip_by].
  destruct (Str.rstrip_by f s) as [|d r] eqn:Hr.
  - destruct (f c) eqn:Hc; [done|]. cbn [Str.rstrip_by]. by rewrite Hc.
  - change (Str.rstrip_by f (String c (String d r)))
      with (match Str.rstrip_by f (String d r) with
            | EmptyString => if f c then EmptyString else String c EmptyString
            | r0 => String c r0
            end).
    by rewrite IH.
Qed.

(** Stripping on the right keeps a string free of leading characters of
    the set free of them. *)
Lemma lstrip_rstrip f s :
  Str.lstrip_by f s = s ->
  Str.lstrip_by f (Str.rstrip_by f s) = Str.rstrip_by f s.
Proof.
  destruct s as [|c s]; [done|]. cbn [Str.lstrip_by Str.rstrip_by].
  destruct (f c) eqn:Hc.
  - intros Heq. exfalso.
    assert (Hlen : forall t, String.length (Str.lstrip_by f t)
                             <= String.length t).
    { induction t as [|x t IH]; [done|]. cbn [Str.lstrip_by].
      destruct (f x); cbn [String.length]; lia. }
    specialize (Hlen s). rewrite Heq in Hlen. cbn [String.length] in Hlen.
    lia.
  - intros _. destruct (Str.rstrip_by f s); cbn [Str.lstrip_by];
      by rewrite Hc.
Qed.

Lemma strip_idem s : Str.strip (Str.strip s) = Str.strip s.
Proof.
  unfold Str.strip, Str.strip_by.
  rewrite (lstrip_rstrip _ (Str.lstrip_by Str.isspace s))
    by apply lstrip_by_idem.
  apply rstrip_by_idem.
Qed.

(** X22: The variants of an input are those of the input without its
    surrounding whitespace. *)
Theorem normalize_variants_ignores_surrounding_space (target : string) :
  normalize_variants (Str.strip target) = normalize_variants target.
Proof. unfold normalize_variants. by rewrite strip_idem. Qed.

Lemma quoter_length safe b : 1 <= String.length (quoter safe b).
Proof. unfold quoter. destruct (_ && _); cbn; lia. Qed.

Lemma length_append (a b : string) :
  String.length (a +:+ b) = String.length a + String.length b.
Proof. induction a as [|c a IH]; [done|]. simpl. by rewrite IH. Qed.

Lemma quote_length safe s :
  String.length s <= String.length (quote safe s).
Proof.
  unfold quote.
  assert (Hbytes : forall bs,
    length bs <= String.length
                   (fold_right (fun b acc => quoter safe b +:+ acc) "" bs)).
  { induction bs as [|b bs IH]; [done|].
    cbn [fold_right Datatypes.length].
    rewrite length_append. pose proof (quoter_length safe b). lia. }
  etrans; [|apply Hbytes].
  induction s as [|c s IH]; [done|]. cbn [utf8_encode String.length].
  rewrite length_app. unfold utf8_encode_char.
  destruct (Str.code c <? 128); cbn [Datatypes.length]; lia.
Qed.

(** X23: An input that, stripped, has at least 6 characters is among its own
    variants, and so is its percent-encoded form. *)
Theorem normalize_variants_keeps_the_input (target : string)
    (vs : gset string) :
  normalize_variants target = Some vs ->
  6 <= String.length (Str.strip target) ->
  Str.strip target ∈ vs
  /\ quote quote_safe (Str.strip target) ∈ vs.
Proof.
  unfold normalize_variants. intros Hn Hlen.
  destruct (nonempty (Str.strip target)) eqn:Hne; cbn [negb] in Hn.
  2:{ apply nonempty_false in Hne. rewrite Hne in Hlen. cbn in Hlen. lia. }
  destruct (urldefrag _) as [s_defrag|]; [|done]. injection Hn as <-.
  assert (Hs : Str.strip target
               ∈ ({[Str.strip target]} ∪ {[html_unescape (Str.strip target)]}
                  ∪ {[s_defrag]} ∪ url_variants s_defrag : gset string)).
  { do 3 apply elem_of_union_l. by apply elem_of_singleton. }
  split; apply elem_of_filter.
  - split; [done|]. by apply elem_of_union_l.
  - split.
    + unfold long_enough. etrans; [exact Hlen|]. apply quote_length.
    + apply elem_of_union_r. apply elem_of_map. by eexists.
Qed.

Lemma size_union_le (X Y : gset string) : size (X ∪ Y) <= size X + size Y.
Proof.
  rewrite size_union_alt. apply Nat.add_le_mono_l, subseteq_size.
  by intros x [? _]%elem_of_difference.
Qed.

Lemma size_list_to_set_le (l : list string) :
  size (list_to_set l : gset string) <= length l.
Proof.
  induction l as [|x l IH]; cbn [list_to_set length].
  - by rewrite size_empty.
  - etrans; [apply size_union_le|]. rewrite size_singleton. lia.
Qed.

Lemma size_set_map_le (f : string -> string) (X : gset string) :
  size (set_map f X : gset string) <= size X.
Proof.
  unfold set_map. etrans; [apply size_list_to_set_le|].
  by rewrite length_fmap.
Qed.

Lemma url_variants_size s : size (url_variants s) <= 3.
Proof.
  unfold url_variants.
  destruct (urlparse s) as [p|]; [|rewrite size_empty; lia].
  destruct (nonempty (netloc p)); [|rewrite size_empty; lia].
  assert (H1 : size (if nonempty (scheme p)
                     then {[Str.replace_first (scheme p +:+ "://") "" s]}
                     else ∅ : gset string) <= 1).
  { destruct (nonempty (scheme p)); [by rewrite size_singleton|].
    rewrite size_empty. lia. }
  cbv zeta.
  destruct (Str.startswith (netloc p) "www."); [|lia].
  destruct (nonempty (scheme p)).
  - etrans; [apply size_union_le|]. rewrite size_singleton.
    etrans; [apply Nat.add_le_mono_r, size_union_le|].
    rewrite !size_singleton. lia.
  - etrans; [apply size_union_le|]. rewrite size_singleton, size_empty. lia.
Qed.

(** X24: An input has at most 12 variants: the six forms and their
    percent-encodings. *)
Theorem normalize_variants_are_at_most_twelve (target : string)
    (vs : gset string) :
  normalize_variants target = Some vs -> size vs <= 12.
Proof.
  unfold normalize_variants.
  destruct (negb (nonempty (Str.strip target))).
  { intros [= <-]. rewrite size_empty. lia. }
  destruct (urldefrag _) as [s_defrag|]; [|done]. intros [= <-].
  etrans; [apply subseteq_size; by intros x [_ Hx]%elem_of_filter|].
  etrans; [apply size_union_le|].
  pose proof (size_set_map_le (quote quote_safe)
                ({[Str.strip target]} ∪ {[html_unescape (Str.strip target)]}
                 ∪ {[s_defrag]} ∪ url_variants s_defrag)) as Henc.
  assert (Hbase : size ({[Str.strip target]}
                        ∪ {[html_unescape (Str.strip target)]}
                        ∪ {[s_defrag]} ∪ url_variants s_defrag
                        : gset string) <= 6).
  { etrans; [apply size_union_le|]. pose proof (url_variants_size s_defrag).
    etrans; [apply Nat.add_le_mono_r, size_union_le|].
    etrans; [apply Nat.add_le_mono_r, Nat.add_le_mono_r, size_union_le|].
    rewrite !size_singleton. lia. }
  lia.
Qed.

End VariantFacts.

Lemma normalize_variants_keeps_the_input_witness :
  match @normalize_variants plain_lib "  example.com/a b " with
  | Some vs => "example.com/a b" ∈ vs /\ "example.com/a%20b" ∈ vs
  | None => False
  end.
Proof.
  destruct (@normalize_variants plain_lib "  example.com/a b ") as [vs|] eqn:Hn.
  - apply (@normalize_variants_keeps_the_input plain_lib
             "  example.com/a b " vs Hn).
    apply Nat.leb_le. vm_compute. reflexivity.
  - assert (Hc : match @normalize_variants plain_lib "  example.com/a b " with
                 | Some _ => true
                 | None => false
                 end = true) by (vm_compute; reflexivity).
    rewrite Hn in Hc. discriminate Hc.
Defined.

Lemma normalize_variants_are_at_most_twelve_witness :
  match @normalize_variants plain_lib "https://www.example.com/a b#frag" with
  | Some vs => size vs <= 12
  | None => False
  end.
Proof.
  destruct (@normalize_variants plain_lib "https://www.example.com/a b#frag")
    as [vs|] eqn:Hn.
  - exact (@normalize_variants_are_at_most_twelve plain_lib _ vs Hn).
  - assert (Hc : match @normalize_variants plain_lib
                         "https://www.example.com/a b#frag" with
                 | Some _ => true
                 | None => false
                 end = true) by (vm_compute; reflexivity).
    rewrite Hn in Hc. discriminate Hc.
Defined.

(** An input with five distinct forms and their encodings; and an input
    with a fragment and an opening bracket in its host, which raises. *)
Example normalize_variants_counts :
  size <$> @normalize_variants plain_lib "https://www.example.com/a b#frag"
  = Some 10
  /\ @normalize_variants plain_lib "http://[example.com/a#frag" = None.
Proof. split; vm_compute; reflexivity. Qed.

(** ** The scope test *)

Section Scope.
Context `{PyLib}.
Import Urllib.

Lemma lower_char_idem c : Str.lower_char (Str.lower_char c) = Str.lower_char c.
Proof. destruct c as [[] [] [] [] [] [] [] []]; by vm_compute. Qed.

Lemma lower_idem s : Str.lower (Str.lower s) = Str.lower s.
Proof.
  unfold Str.lower. induction s as [|c s IH]; [done|].
  cbn [Str.map]. by rewrite lower_char_idem, IH.
Qed.

Lemma endswith_lowered x p :
  Str.endswith (Str.lower x) p = true -> Str.lower p = p.
Proof.
  induction x as [|c x IH].
  - cbn. destruct p; [done|]. done.
  - change (Str.lower (String c x))
      with (String (Str.lower_char c) (Str.lower x)).
    cbn [Str.endswith]. intros [Heq|Hrest]%orb_prop; [|by apply IH].
    apply String.eqb_eq in Heq as <-.
    apply (lower_idem (String c x)).
Qed.

(** X26: The host of the URL is compared in lower case with the domains as
    they are given: a domain entry that is not in lower case matches no
    URL at all. *)
Theorem same_domain_needs_lowercase_domains (url : string)
    (ds : list string) :
  Forall (fun d => Str.lower d <> d) ds ->
  same_domain url ds = false.
Proof.
  intros Hds. unfold same_domain.
  destruct (urlparse url) as [p|]; [|done].
  apply not_true_is_false. intros Hex.
  apply existsb_exists in Hex as (d & Hd & Hin).
  apply list_elem_of_In in Hd.
  rewrite Forall_forall in Hds. apply (Hds d Hd).
  unfold host_in_domain in Hin. apply orb_prop in Hin as [Heq|Hend].
  - apply String.eqb_eq in Heq as <-. apply lower_idem.
  - apply endswith_lowered in Hend.
    change (Str.lower ("." +:+ d)) with (String "." (Str.lower d)) in Hend.
    by injection Hend.
Qed.

End Scope.

Lemma same_domain_needs_lowercase_domains_witness :
  @same_domain plain_lib "https://example.com/a" ["Example.com"] = false.
Proof.
  apply (@same_domain_needs_lowercase_domains plain_lib).
  repeat (apply Forall_cons_2 || apply Forall_nil_2). vm_compute. discriminate.
Defined.

(** ** Saved lists and loaded inputs *)

Section SavedLists.
Context `{PyLib}.
Import Urllib.

Lemma rstrip_by_all f s : Str.forallb f s = true -> Str.rstrip_by f s = "".
Proof.
  induction s as [|c s IH]; [done|]. cbn [Str.forallb Str.rstrip_by].
  intros [Hc Hs]%andb_prop. by rewrite (IH Hs), Hc.
Qed.

Lemma rstrip_by_app f a b :
  Str.forallb f b = true -> Str.rstrip_by f (a +:+ b) = Str.rstrip_by f a.
Proof.
  intros Hb. induction a as [|c a IH]; [by apply rstrip_by_all|].
  change (String c a +:+ b) with (String c (a +:+ b)).
  cbn [Str.rstrip_by]. by rewrite IH.
Qed.

Lemma lstrip_by_app f a b :
  Str.forallb f b = true ->
  Str.lstrip_by f (a +:+ b)
  = match Str.lstrip_by f a with
    | EmptyString => EmptyString
    | t => t +:+ b
    end.
Proof.
  intros Hb. induction a as [|c a IH].
  - cbn [Str.lstrip_by]. by apply lstrip_by_all.
  - change (String c a +:+ b) with (String c (a +:+ b)).
    cbn [Str.lstrip_by]. destruct (f c); [done|]. done.
Qed.

(** Whitespace at the end does not change what [strip] returns. *)
Lemma strip_app_space a b :
  Str.forallb Str.isspace b = true -> Str.strip (a +:+ b) = Str.strip a.
Proof.
  intros Hb. unfold Str.strip, Str.strip_by. rewrite lstrip_by_app by done.
  destruct (Str.lstrip_by Str.isspace a) as [|c t]; [done|].
  by apply rstrip_by_app.
Qed.

Lemma mem_rstrip c f s :
  Str.mem c (Str.rstrip_by f s) = true -> Str.mem c s = true.
Proof.
  induction s as [|x s IH]; [done|]. cbn [Str.rstrip_by].
  destruct (Str.rstrip_by f s) as [|d r].
  - destruct (f x); [done|]. cbn [Str.mem]. rewrite orb_false_r.
    intros ->. done.
  - cbn [Str.mem] in *. intros [->|Hm]%orb_prop; [done|].
    rewrite (IH Hm). apply orb_true_r.
Qed.

Lemma mem_strip c s : Str.mem c (Str.strip s) = true -> Str.mem c s = true.
Proof.
  unfold Str.strip, Str.strip_by. intros Hm%mem_rstrip. by eapply mem_lstrip.
Qed.

Lemma translate_newlines_no_cr s :
  Str.mem "013" (translate_newlines s) = false.
Proof.
  assert (Hgen : forall n s, String.length s <= n ->
                   Str.mem "013" (translate_newlines s) = false).
  { clear s. induction n as [|n IH]; intros [|c s] Hlen; try done.
    { cbn in Hlen. lia. }
    cbn [String.length] in Hlen. cbn [translate_newlines].
    destruct (Str.code c =? 13) eqn:Hc.
    - cbn [Str.mem]. destruct s as [|d s]; [done|].
      cbn [String.length] in Hlen.
      destruct (Str.code d =? 10); apply IH; cbn [String.length]; lia.
    - cbn [Str.mem]. rewrite IH by lia. rewrite orb_false_r.
      destruct (Ascii.eqb "013" c) eqn:Heq; [|done].
      apply Ascii.eqb_eq in Heq as <-. done. }
  by apply (Hgen (String.length s)).
Qed.

Lemma translate_newlines_id s :
  Str.mem "013" s = false -> translate_newlines s = s.
Proof.
  induction s as [|c s IH]; [done|]. cbn [Str.mem translate_newlines].
  intros [Hc Hs]%orb_false_elim.
  destruct (Str.code c =? 13) eqn:Hcode.
  - exfalso. apply Nat.eqb_eq in Hcode.
    assert (c = "013"%char) as ->.
    { rewrite <- (ascii_nat_embedding c). unfold Str.code in Hcode.
      by rewrite Hcode. }
    done.
  - by rewrite IH.
Qed.

(** A line of the file: a text without "\n", or such a text and the
    "\n" behind it. *)
Lemma file_lines_shape s line :
  line ∈ file_lines s ->
  exists body,
    (line = body \/ line = body +:+ String "010" "")
    /\ Str.mem "010" body = false
    /\ (Str.mem "013" s = false -> Str.mem "013" body = false).
Proof.
  revert line. induction s as [|c s IH]; intros line; cbn [file_lines].
  { by intros ?%elem_of_nil. }
  destruct (Str.code c =? 10) eqn:Hc.
  - apply Nat.eqb_eq in Hc.
    assert (c = "010"%char) as ->.
    { rewrite <- (ascii_nat_embedding c). unfold Str.code in Hc.
      by rewrite Hc. }
    intros [->|Hin]%elem_of_cons.
    + exists "". split; [by right|]. done.
    + destruct (IH line Hin) as (body & Hshape & Hnl & Hcr).
      exists body. split; [done|]. split; [done|].
      cbn [Str.mem]. intros [_ ?]%orb_false_elim. auto.
  - assert (Hne : Ascii.eqb "010" c = false).
    { destruct (Ascii.eqb "010" c) eqn:Heq; [|done].
      apply Ascii.eqb_eq in Heq as <-. done. }
    destruct (file_lines s) as [|l ls] eqn:Hls.
    + intros ->%list_elem_of_singleton. exists (String c "").
      split; [by left|]. cbn [Str.mem]. rewrite Hne. split; [done|].
      by intros [-> _]%orb_false_elim.
    + intros [->|Hin]%elem_of_cons.
      * destruct (IH l) as (body & Hshape & Hnl & Hcr).
        { apply elem_of_cons. by left. }
        exists (String c body). split.
        { destruct Hshape as [->| ->]; [by left|by right]. }
        cbn [Str.mem]. rewrite Hne, Hnl. split; [done|].
        intros [-> Hs]%orb_false_elim. by rewrite Hcr.
      * destruct (IH line) as (body & Hshape & Hnl & Hcr).
        { apply elem_of_cons. by right. }
        exists body. split; [done|]. split; [done|].
        cbn [Str.mem]. intros [_ ?]%orb_false_elim. auto.
Qed.

(** X27: The inputs [main] loads are the stripped non-blank lines of the
    file: none is empty, none has whitespace at either end, none holds a
    line end. *)
Theorem load_inputs_are_stripped_lines (content u : string) :
  u ∈ load_inputs content ->
  u <> ""
  /\ Str.strip u = u
  /\ Str.mem "010" u = false
  /\ Str.mem "013" u = false.
Proof.
  unfold load_inputs. intros (line & Hline & Hu)%list_elem_of_omap.
  cbn zeta in Hu.
  destruct (nonempty (Str.strip line)) eqn:Hne; [|done].
  injection Hu as <-. apply nonempty_true in Hne.
  split; [done|]. split; [apply strip_idem|].
  destruct (file_lines_shape _ _ Hline) as (body & Hshape & Hnl & Hcr).
  specialize (Hcr (translate_newlines_no_cr content)).
  assert (Hstrip : Str.strip line = Str.strip body).
  { destruct Hshape as [->| ->]; [done|]. by apply strip_app_space. }
  rewrite Hstrip. split; apply not_true_is_false; intros Hm%mem_strip;
    congruence.
Qed.

Lemma file_lines_item item rest :
  Str.mem "010" item = false ->
  file_lines (item +:+ String "010" "" +:+ rest)
  = (item +:+ String "010" "") :: file_lines rest.
Proof.
  induction item as [|c item IH]; [done|]. cbn [Str.mem].
  intros [Hc Hitem]%orb_false_elim.
  change (String c item +:+ String "010" "" +:+ rest)
    with (String c (item +:+ String "010" "" +:+ rest)).
  cbn [file_lines]. rewrite (IH Hitem).
  destruct (Str.code c =? 10) eqn:Hcode; [|done].
  exfalso. apply Nat.eqb_eq in Hcode.
  assert (c = "010"%char) as ->.
  { rewrite <- (ascii_nat_embedding c). unfold Str.code in Hcode.
    by rewrite Hcode. }
  done.
Qed.

Lemma mem_lines_text c items :
  Str.mem c (lines_text items)
  = existsb (fun item => Str.mem c (item +:+ String "010" "")) items.
Proof.
  induction items as [|i items IH]; [done|].
  change (lines_text (i :: items))
    with (i +:+ String "010" (lines_text items)).
  cbn [existsb]. rewrite !mem_app. cbn [Str.mem].
  by rewrite IH, orb_false_r, orb_assoc.
Qed.

(** A list that is ready to be read back: every item is non-empty, has
    no whitespace at either end and holds no line end. *)
Definition clean_item (item : string) : Prop :=
  item <> "" /\ Str.strip item = item
  /\ Str.mem "010" item = false /\ Str.mem "013" item = false.

Lemma load_lines_text (items : list string) :
  Forall clean_item items -> load_inputs (lines_text items) = items.
Proof.
  intros Hall. unfold load_inputs.
  assert (Hcr : Str.mem "013" (lines_text items) = false).
  { rewrite mem_lines_text. apply not_true_is_false.
    intros (i & Hi & Hm)%existsb_exists. apply list_elem_of_In in Hi.
    rewrite Forall_forall in Hall. destruct (Hall i Hi) as (_ & _ & _ & Hc).
    rewrite mem_app, Hc in Hm. done. }
  rewrite (translate_newlines_id _ Hcr). clear Hcr.
  induction Hall as [|i items (Hne & Hstrip & Hnl & _) _ IH]; [done|].
  cbn [lines_text fold_right]. fold (lines_text items).
  rewrite (file_lines_item i _ Hnl). cbn [omap list_omap].
  rewrite (strip_app_space i) by done. rewrite Hstrip.
  apply nonempty_true in Hne. rewrite Hne. by rewrite IH.
Qed.

(** X28: A list of clean items that [save_list_to_file] has written is read
    back by the loader of [main] as the items in ascending order, each
    once; when the file cannot be opened the files stay as they were. *)
Theorem saved_list_reads_back (writable : string -> bool)
    (files : gmap string string) (filename : string) (items : gset string) :
  (forall item, item ∈ items -> clean_item item) ->
  if writable filename
  then exists text,
         save_list_to_file writable files filename items !! filename
         = Some text
         /\ load_inputs text = sorted items
         /\ StronglySorted String.le (load_inputs text)
         /\ (forall item, item ∈ load_inputs text <-> item ∈ items)
  else save_list_to_file writable files filename items = files.
Proof.
  intros Hclean. unfold save_list_to_file.
  destruct (writable filename); [|done].
  exists (lines_text (sorted items)). rewrite lookup_insert_eq.
  split; [done|].
  assert (Hperm : sorted items ≡ₚ elements items)
    by apply merge_sort_Permutation.
  assert (Hload : load_inputs (lines_text (sorted items)) = sorted items).
  { apply load_lines_text, Forall_forall. intros item Hitem.
    apply Hclean, elem_of_elements. by rewrite <- Hperm. }
  rewrite Hload. split; [done|]. split.
  - apply StronglySorted_merge_sort; apply _.
  - intros item. by rewrite Hperm, elem_of_elements.
Qed.

End SavedLists.

Lemma load_inputs_are_stripped_lines_witness :
  "example.com/a" <> ""
  /\ Str.strip "example.com/a" = "example.com/a"
  /\ Str.mem "010" "example.com/a" = false
  /\ Str.mem "013" "example.com/a" = false.
Proof.
  apply (load_inputs_are_stripped_lines
           ("  example.com/a " +:+ String "013" (String "010" "")
              +:+ String "009" (String "010" "last"))).
  vm_compute. apply elem_of_cons. left. reflexivity.
Defined.

Example load_inputs_example :
  load_inputs ("  example.com/a " +:+ String "013" (String "010" "")
                 +:+ String "009" (String "010" ("x" +:+ String "013" "last")))
  = ["example.com/a"; "x"; "last"].
Proof. vm_compute. reflexivity. Qed.

Lemma saved_list_reads_back_witness :
  exists text,
    save_list_to_file (fun _ => true) ∅ "discovered_pages.txt"
      {[ "https://example.com/b"; "https://example.com/a" ]}
    !! "discovered_pages.txt" = Some text
    /\ load_inputs text
       = sorted {[ "https://example.com/b"; "https://example.com/a" ]}
    /\ StronglySorted String.le (load_inputs text)
    /\ (forall item, item ∈ load_inputs text
                     <-> item ∈ ({[ "https://example.com/b";
                                    "https://example.com/a" ]} : gset string)).
Proof.
  apply (saved_list_reads_back (fun _ => true) ∅ "discovered_pages.txt"
           {[ "https://example.com/b"; "https://example.com/a" ]}).
  intros item [->%elem_of_singleton| ->%elem_of_singleton]%elem_of_union;
    repeat split; try discriminate; vm_compute; reflexivity.
Defined.

(** ** The test mode *)

Section TestMode.
Context `{PyLib}.
Import Urllib.

Lemma normalize_variants_long (target : string) (vs : gset string) v :
  normalize_variants target = Some vs -> v ∈ vs -> 6 <= String.length v.
Proof.
  unfold normalize_variants. destruct (negb _).
  - intros [= <-] []%not_elem_of_empty.
  - destruct (urldefrag _); [|done]. intros [= <-].
    by intros [? _]%elem_of_filter.
Qed.

(** The pattern set built from the inputs: the variants of all of them,
    and nothing else but what was there. *)
Lemma collect_patterns_spec (inputs : list string) : forall acc all,
  collect_patterns acc inputs = Some all ->
  acc ⊆ all
  /\ (forall u, u ∈ inputs ->
        exists vs, normalize_variants u = Some vs /\ vs ⊆ all)
  /\ (forall v, v ∈ all ->
        v ∈ acc
        \/ exists u vs, u ∈ inputs /\ normalize_variants u = Some vs
             /\ v ∈ vs).
Proof.
  induction inputs as [|x rest IH]; cbn [collect_patterns]; intros acc all.
  { intros [= <-]. split; [done|]. split; [by intros u ?%elem_of_nil|].
    by left. }
  destruct (normalize_variants x) as [vs|] eqn:Hx;
    cbn [mbind option_bind]; [|done].
  intros Hc. destruct (IH _ _ Hc) as (Hacc & Hin & Hout). split; [|split].
  - etrans; [|exact Hacc]. apply union_subseteq_l.
  - intros u [->|Hu]%elem_of_cons; [|by apply Hin].
    exists vs. split; [done|]. etrans; [|exact Hacc]. apply union_subseteq_r.
  - intros v Hv. destruct (Hout v Hv) as [Hv'|(u & vs' & Hu & Hn & Hvs)].
    + apply elem_of_union in Hv' as [?|?]; [by left|].
      right. exists x, vs. split; [apply elem_of_cons; by left|done].
    + right. exists u, vs'. split; [apply elem_of_cons; by right|done].
Qed.

Lemma all_patterns_nonempty (inputs : list string) (all : gset string) :
  all_patterns inputs = Some all -> "" ∉ all.
Proof.
  intros Hall Hin.
  destruct (collect_patterns_spec _ _ _ Hall) as (_ & _ & Hout).
  destruct (Hout "" Hin) as [[]%not_elem_of_empty|(u & vs & _ & Hn & Hv)].
  pose proof (normalize_variants_long u vs "" Hn Hv) as Hlen.
  cbn in Hlen. lia.
Qed.

(** The loop over the variants leaves the test URL if a variant was
    found, and nothing otherwise. *)
Lemma test_pages_spec (order : gset string -> list string)
    (test_url : string) (found_patterns vars : gset string) :
  (forall s, order s ≡ₚ elements s) ->
  (test_pages order test_url found_patterns vars = {[ test_url ]}
   /\ exists v, v ∈ vars /\ v ∈ found_patterns)
  \/ (test_pages order test_url found_patterns vars = ∅
      /\ forall v, v ∈ vars -> v ∉ found_patterns).
Proof.
  intros Horder. unfold test_pages.
  assert (Hin : forall v, v ∈ order vars <-> v ∈ vars).
  { intros v. by rewrite Horder, elem_of_elements. }
  revert Hin. generalize (order vars). intros l Hin.
  assert (Hgen : forall (l : list string) (pages : gset string),
    pages = ∅ \/ pages = {[ test_url ]} ->
    let result :=
      fold_left (fun pages var => if decide (var ∈ found_patterns)
                                  then {[ test_url ]} ∪ pages else pages)
                l pages in
    (result = {[ test_url ]}
     /\ (pages = {[ test_url ]} \/ exists v, v ∈ l /\ v ∈ found_patterns))
    \/ (result = ∅ /\ pages = ∅ /\ forall v, v ∈ l -> v ∉ found_patterns)).
  { clear. induction l as [|x l IH]; intros pages Hpages; cbn [fold_left].
    { destruct Hpages as [->| ->].
      - right. split; [done|]. split; [done|]. by intros v ?%elem_of_nil.
      - left. split; [done|]. by left. }
    destruct (decide (x ∈ found_patterns)) as [Hx|Hx].
    - destruct (IH ({[test_url]} ∪ pages)) as [[Hr _]|(_ & Hne & _)].
      + right. destruct Hpages as [->| ->]; apply set_eq; intros y;
          rewrite elem_of_union, ?elem_of_empty, elem_of_singleton; tauto.
      + left. split; [done|]. right. exists x.
        split; [apply elem_of_cons; by left|done].
      + exfalso. assert (Ht : test_url ∈ ({[test_url]} ∪ pages))
          by (apply elem_of_union_l; by apply elem_of_singleton).
        rewrite Hne in Ht. by apply not_elem_of_empty in Ht.
    - destruct (IH pages Hpages) as [[Hr Hwhy]|(Hr & Hp & Hno)].
      + left. split; [done|]. destruct Hwhy as [?|(v & Hv & Hf)]; [by left|].
        right. exists v. split; [apply elem_of_cons; by right|done].
      + right. split; [done|]. split; [done|].
        intros v [->|Hv]%elem_of_cons; [done|by apply Hno]. }
  destruct (Hgen l ∅) as [[Hr Hwhy]|(Hr & _ & Hno)]; [by left|..].
  - left. split; [done|]. destruct Hwhy as [Heq|(v & Hv & Hf)].
    + exfalso. assert (Ht : test_url ∈ (∅ : gset string)).
      { rewrite Heq. by apply elem_of_singleton. }
      by apply not_elem_of_empty in Ht.
    + exists v. split; [by apply Hin|done].
  - right. split; [done|]. intros v Hv. by apply Hno, Hin.
Qed.

(** What a row of the test report says about its input. *)
Definition test_row_reports (test_url blob : string) (u : string)
    (row : TestRow) : Prop :=
  test_queried_url row = u
  /\ exists vars,
       normalize_variants u = Some vars
       /\ (test_found row = true
           <-> exists v, v ∈ vars /\ Str.contains v blob = true)
       /\ test_match_count row = (if test_found row then 1 else 0)
       /\ test_match_page row = (if test_found row then [test_url] else []).

(** X29: Test mode writes no report when the page is not answered with
    status 200.  Otherwise it writes one row per input, in the order of
    the inputs, and a row says found exactly when one of the variants of
    its input occurs in the text searched (the links of the page and,
    unless the body is left out, its HTML); the count is then 1 and the
    page is the test URL. *)
Theorem test_mode_reports (b scan_body : bool)
    (order : gset string -> list string) (resp : http_response)
    (test_url : string) (inputs : list string) (outcome : test_outcome) :
  (forall s, order s ≡ₚ elements s) ->
  run_test_mode b scan_body order resp test_url inputs = Some outcome ->
  match outcome with
  | TestNotFetched =>
      resp = HttpRaised
      \/ exists status raw ctype,
           resp = HttpResponse status raw ctype /\ status <> 200%Z
  | TestRows rows =>
      exists raw ctype hrefs,
        resp = HttpResponse 200 raw ctype
        /\ test_hrefs test_url (decode_text raw) = Some hrefs
        /\ length rows = length inputs
        /\ Forall2 (test_row_reports test_url
                      (test_blob scan_body hrefs (decode_text raw)))
                   inputs rows
  end.
Proof.
  intros Horder. unfold run_test_mode.
  destruct (all_patterns inputs) as [all|] eqn:Hall;
    cbn [mbind option_bind]; [|done].
  destruct resp as [|status raw ctype]; [intros [= <-]; by left|].
  destruct (status =? 200)%Z eqn:Hst; cbn [negb].
  2:{ intros [= <-]. right. exists status, raw, ctype.
      split; [done|]. by apply Z.eqb_neq. }
  apply Z.eqb_eq in Hst as ->.
  destruct (test_hrefs test_url (decode_text raw)) as [hrefs|] eqn:Hhrefs;
    cbn [mbind option_bind]; [|done].
  destruct (find_in_init b all (test_blob scan_body hrefs (decode_text raw))
              (all_patterns_nonempty _ _ Hall)) as (found & -> & Hfound).
  cbn [mbind option_bind].
  destruct (rebuild_input_variant_map inputs) as [m|] eqn:Hm;
    cbn [mbind option_bind]; [|done].
  destruct (mapM _ inputs) as [rows|] eqn:Hrows;
    cbn [mbind option_bind]; [|done].
  intros [= <-]. exists raw, ctype, hrefs. split; [done|]. split; [done|].
  apply mapM_Some in Hrows.
  split; [symmetry; by eapply Forall2_length|].
  pose proof (rebuild_lookup inputs m Hm) as Hlook.
  destruct (collect_patterns_spec _ _ _ Hall) as (_ & Hsub & _).
  assert (Hin : Forall (fun u => m !! u = normalize_variants u
                                 /\ exists vs, normalize_variants u = Some vs
                                      /\ vs ⊆ all) inputs).
  { apply Forall_forall. intros u Hu. split; [by destruct (Hlook u Hu)|].
    by apply Hsub. }
  clear Hlook Hm Hsub Hall.
  induction Hrows as [|u row us rs Hrow _ IH]; [constructor|].
  apply Forall_cons_1 in Hin as [[Hu (vs & Hn & Hvs)] Hin].
  constructor; [|by apply IH]. clear IH.
  cbn beta in Hrow. rewrite Hu, Hn in Hrow. cbn [mbind option_bind] in Hrow.
  injection Hrow as <-. unfold test_row_reports, test_row.
  cbn [test_queried_url test_found test_match_count test_match_page].
  split; [done|]. exists vs. split; [done|].
  destruct (test_pages_spec order test_url found vs Horder)
    as [[-> (v & Hv & Hf)]|[-> Hno]].
  - assert (Hone : ({[test_url]} : gset string) ≠ ∅).
    { intros Heq. assert (Ht : test_url ∈ (∅ : gset string)).
      { rewrite <- Heq. by apply elem_of_singleton. }
      by apply not_elem_of_empty in Ht. }
    rewrite (bool_decide_eq_true_2 _ Hone). split; [|split].
    + split; [|done]. intros _. exists v. split; [done|].
      by apply Hfound in Hf as [_ ?].
    + by rewrite size_singleton.
    + pose proof (Horder {[test_url]}) as Hp.
      rewrite elements_singleton in Hp.
      apply Permutation_singleton_r in Hp. by rewrite Hp.
  - rewrite bool_decide_eq_false_2 by (by intros Hx). split; [|split].
    + split; [done|]. intros (v & Hv & Hc). exfalso.
      apply (Hno v Hv), Hfound. split; [by apply Hvs|done].
    + by rewrite size_empty.
    + pose proof (Horder ∅) as Hp. rewrite elements_empty in Hp.
      apply Permutation_nil_r in Hp. by rewrite Hp.
Qed.

End TestMode.

(** Two inputs against the sample page: the first has a variant in the
    link of the page, the second has none. *)
Lemma test_mode_reports_witness :
  match @run_test_mode linked_lib true true elements
          (HttpResponse 200 sample_page "text/html")
          "https://example.com/x"
          ["https://www.example.com/a"; "https://other.org/none"] with
  | Some (TestRows rows) =>
      exists raw ctype hrefs,
        HttpResponse 200 sample_page "text/html" = HttpResponse 200 raw ctype
        /\ @test_hrefs linked_lib "https://example.com/x"
             (@decode_text linked_lib raw) = Some hrefs
        /\ length rows = 2
        /\ Forall2 (@test_row_reports linked_lib "https://example.com/x"
                      (test_blob true hrefs (@decode_text linked_lib raw)))
                   ["https://www.example.com/a"; "https://other.org/none"]
                   rows
  | _ => False
  end.
Proof.
  destruct (@run_test_mode linked_lib true true elements
              (HttpResponse 200 sample_page "text/html")
              "https://example.com/x"
              ["https://www.example.com/a"; "https://other.org/none"])
    as [outcome|] eqn:Hr.
  - pose proof (@test_mode_reports linked_lib true true elements _ _ _ outcome
                  (fun s => reflexivity (elements s)) Hr) as Hspec.
    destruct outcome as [|rows]; [|exact Hspec].
    destruct Hspec as [Hx|(status & raw & ctype & Heq & Hne)];
      [discriminate Hx|].
    injection Heq as <- _ _. by destruct Hne.
  - assert (Hc : match @run_test_mode linked_lib true true elements
                         (HttpResponse 200 sample_page "text/html")
                         "https://example.com/x"
                         ["https://www.example.com/a";
                          "https://other.org/none"] with
                 | Some _ => true
                 | None => false
                 end = true) by (vm_compute; reflexivity).
    rewrite Hr in Hc. discriminate Hc.
Defined.

Example run_test_mode_example :
  match @run_test_mode linked_lib true true elements
          (HttpResponse 200 sample_page "text/html")
          "https://example.com/x"
          ["https://www.example.com/a"; "https://other.org/none"] with
  | Some (TestRows [row1; row2]) =>
      test_found row1 = true /\ test_match_count row1 = 1
      /\ test_match_page row1 = ["https://example.com/x"]
      /\ test_found row2 = false /\ test_match_count row2 = 0
      /\ test_match_page row2 = []
  | _ => False
  end.
Proof. vm_compute. repeat split; reflexivity. Qed.

(** ** The full crawl *)

Section MainFacts.
Context `{PyLib}.
Import Urllib.

Lemma filter_allowed_spec (sc : SiteScanner) (page_urls : list string) :
  forall kept,
    filter_allowed sc page_urls = Some kept ->
    forall u, u ∈ kept <-> u ∈ page_urls /\ allowed sc u = Some true.
Proof.
  induction page_urls as [|x rest IH]; cbn [filter_allowed]; intros kept.
  { intros [= <-] u. split; [by intros ?%elem_of_nil|].
    by intros [?%elem_of_nil _]. }
  destruct (allowed sc x) as [ok|] eqn:Hok; cbn [mbind option_bind]; [|done].
  destruct (filter_allowed sc rest) as [kept'|];
    cbn [mbind option_bind]; [|done].
  intros [= <-] u. specialize (IH kept' eq_refl u).
  destruct ok.
  - rewrite !elem_of_cons, IH. split.
    + intros [->|[? ?]]; auto.
    + intros [[->|?] ?]; auto.
  - rewrite elem_of_cons, IH. split.
    + intros [? ?]; auto.
    + intros [[->|?] ?]; [congruence|auto].
Qed.

Lemma slice_upto_subset (l : list string) (n : Z) (u : string) :
  u ∈ slice_upto l n -> u ∈ l.
Proof.
  unfold slice_upto. destruct (0 <=? n)%Z; intros Hu;
    by eapply subseteq_take.
Qed.

(** The rows of the report are the rows of the inputs. *)
Lemma write_results_rows (inputs : list string)
    (ms : gmap string (gset string)) (rows : list Row) :
  write_results inputs ms = Some rows ->
  Forall2 (fun u row => exists vars, normalize_variants u = Some vars
                          /\ row = result_row ms u vars) inputs rows.
Proof.
  unfold write_results.
  destruct (rebuild_input_variant_map inputs) as [m|] eqn:Hm;
    cbn [mbind option_bind]; [|done].
  intros Hrows%mapM_Some.
  pose proof (rebuild_lookup inputs m Hm) as Hlook.
  assert (Hin : Forall (fun u => m !! u = normalize_variants u) inputs).
  { apply Forall_forall. intros u Hu. by destruct (Hlook u Hu). }
  clear Hlook Hm.
  induction Hrows as [|u row us rs Hrow _ IH]; [constructor|].
  apply Forall_cons_1 in Hin as [Hu Hin]. constructor; [|by apply IH].
  cbn beta in Hrow. rewrite Hu in Hrow.
  destruct (normalize_variants u) as [vars|];
    cbn [mbind option_bind] in Hrow; [|done].
  injection Hrow as <-. by exists vars.
Qed.

(** A page named in a row of the report of an input. *)
Definition reported_page (scan_body : bool)
    (completion : list string -> list (string * http_response))
    (pages : gset string) (sc0 : SiteScanner) (u p : string) : Prop :=
  p ∈ pages
  /\ allowed sc0 p = Some true
  /\ exists vars v tasks resp,
       normalize_variants u = Some vars /\ v ∈ vars
       /\ (p, resp) ∈ completion tasks
       /\ page_mentions scan_body p resp v.

Lemma main_crawl_sound (b scan_body : bool) (MAX_PAGES : Z)
    (DOMAINS : list string) (order : gset string -> list string)
    (robots_net : string -> Robots.read_outcome) (net : Network)
    (completion : list string -> list (string * http_response))
    (inputs : list string) (rows : list Row) :
  (forall s, order s ≡ₚ elements s) ->
  (forall tasks, (completion tasks).*1 ≡ₚ tasks) ->
  main_crawl b scan_body MAX_PAGES DOMAINS order robots_net net completion
             inputs = Some rows ->
  exists all sc0 pages,
    all_patterns inputs = Some all
    /\ init robots_net (SiteScanner_new b DOMAINS all) = Some sc0
    /\ gather_pages_from_sitemaps net MAX_PAGES order DOMAINS = Some pages
    /\ length rows = length inputs
    /\ Forall2 (fun u row =>
                  queried_url row = u
                  /\ forall p, p ∈ match_page_cells row -> p <> "" ->
                       reported_page scan_body completion pages sc0 u p)
               inputs rows.
Proof.
  intros Horder Hcompl. unfold main_crawl.
  destruct (all_patterns inputs) as [all|] eqn:Hall;
    cbn [mbind option_bind]; [|done].
  destruct (init robots_net _) as [sc0|] eqn:Hinit;
    cbn [mbind option_bind]; [|done].
  destruct (gather_pages_from_sitemaps _ _ _ _) as [pages|] eqn:Hg;
    cbn [mbind option_bind]; [|done].
  destruct (run_pages _ _ _ _ _) as [sc|] eqn:Hrun;
    cbn [mbind option_bind]; [|done].
  intros Hw. exists all, sc0, pages. repeat (split; [done|]).
  pose proof (write_results_rows _ _ _ Hw) as Hrows.
  split; [symmetry; by eapply Forall2_length|].
  destruct (init_scanner_for _ _ _ _ _ Hinit) as (Hsc0 & Hds & Hms0).
  assert (Hne : "" ∉ all) by (by eapply all_patterns_nonempty).
  assert (Hmem : forall s x, x ∈ order s <-> x ∈ s).
  { intros s x. by rewrite Horder, elem_of_elements. }
  (* every page in the table was collected, allowed, fetched, matching *)
  assert (Htable : forall q s p,
    matches sc !! q = Some s -> p ∈ s ->
    p ∈ pages /\ allowed sc0 p = Some true
    /\ exists tasks resp, (p, resp) ∈ completion tasks
         /\ page_mentions scan_body p resp q).
  { unfold run_pages in Hrun.
    destruct (filter_allowed sc0 _) as [filtered|] eqn:Hf;
      cbn [mbind option_bind] in Hrun; [|done].
    intros q s p Hq Hp.
    assert (Hrun' : run scan_body order sc0 (completion filtered) = Some sc
                    \/ sc = sc0).
    { destruct filtered; [right; by injection Hrun|by left]. }
    destruct Hrun' as [Hrun'| ->].
    2:{ rewrite Hms0 in Hq. apply lookup_gset_to_gmap_Some in Hq as [_ <-].
        by apply not_elem_of_empty in Hp. }
    destruct (run_spec b scan_body all order Hne Hmem _ sc0 sc Hsc0 Hrun')
      as (_ & Hsound & _).
    destruct (Hsound q s p Hq Hp)
      as [(s0 & Hs0 & Hin)|(_ & Hal & resp & Hin & Hment)].
    { rewrite Hms0 in Hs0. apply lookup_gset_to_gmap_Some in Hs0 as [_ <-].
      by apply not_elem_of_empty in Hin. }
    split; [|split; [done|by exists filtered, resp]].
    assert (Hpf : p ∈ filtered).
    { rewrite <- (Hcompl filtered). apply list_elem_of_fmap.
      by exists (p, resp). }
    apply (filter_allowed_spec _ _ _ Hf) in Hpf as [Hpl _].
    apply slice_upto_subset in Hpl. by apply Hmem in Hpl. }
  clear Hrun Hw Hall. induction Hrows as [|u row us rs Hrow _ IH]; [constructor|].
  constructor; [|exact IH]. destruct Hrow as (vars & Hn & ->).
  split; [done|]. intros p Hp Hnonempty.
  destruct (result_row_lists (matches sc) u vars) as (_ & Hcells & _ & _ & Hin & _).
  rewrite Hcells in Hp. apply elem_of_app in Hp as [Hp|Hp].
  2:{ apply elem_of_replicate in Hp as [-> _]. done. }
  apply Hin, elem_of_matched_pages in Hp as (v & s & Hv & Hs & Hps).
  destruct (Htable v s p Hs Hps) as (Hpages & Hal & tasks & resp & Hc & Hm).
  split; [done|]. split; [done|]. by exists vars, v, tasks, resp.
Qed.

(** X30: The report of a full crawl names no page in vain.  When [main]
    writes its report, there is one row per non-blank line of the input
    file, in the order of the lines, and every page named in the row of
    an input was collected from the sitemaps, was allowed
    ([same_domain], no binary, not refused by robots.txt), was fetched
    by a page task, and the text searched for it holds a variant of
    that input. *)
Theorem crawl_report_is_sound (b : bool) (test_url : option string)
    (no_body : bool) (max_pages : Z) (domains : list string)
    (order : gset string -> list string)
    (robots_net : string -> Robots.read_outcome) (net : Network)
    (test_answer : http_response)
    (completion : list string -> list (string * http_response))
    (input_text : string) (rows : list Row) :
  (forall s, order s ≡ₚ elements s) ->
  (forall tasks, (completion tasks).*1 ≡ₚ tasks) ->
  main b test_url no_body max_pages domains order robots_net net
       test_answer completion input_text = Some (MainReport rows) ->
  (test_url = None \/ test_url = Some "")
  /\ exists all sc0 pages,
       all_patterns (load_inputs input_text) = Some all
       /\ init robots_net (SiteScanner_new b domains all) = Some sc0
       /\ gather_pages_from_sitemaps net max_pages order domains
          = Some pages
       /\ length rows = length (load_inputs input_text)
       /\ Forall2 (fun u row =>
                     queried_url row = u
                     /\ forall p, p ∈ match_page_cells row -> p <> "" ->
                          reported_page (negb no_body) completion pages
                                        sc0 u p)
                  (load_inputs input_text) rows.
Proof.
  intros Horder Hcompl. unfold main.
  assert (Hcrawl : MainReport <$> main_crawl b (negb no_body) max_pages
                     domains order robots_net net completion
                     (load_inputs input_text) = Some (MainReport rows) ->
            exists all sc0 pages,
              all_patterns (load_inputs input_text) = Some all
              /\ init robots_net (SiteScanner_new b domains all) = Some sc0
              /\ gather_pages_from_sitemaps net max_pages order domains
                 = Some pages
              /\ length rows = length (load_inputs input_text)
              /\ Forall2 (fun u row =>
                     queried_url row = u
                     /\ forall p, p ∈ match_page_cells row -> p <> "" ->
                          reported_page (negb no_body) completion pages
                                        sc0 u p)
                  (load_inputs input_text) rows).
  { destruct (main_crawl _ _ _ _ _ _ _ _ _) as [rows'|] eqn:Hm; [|done].
    intros [= <-]. by apply (main_crawl_sound b _ max_pages). }
  destruct test_url as [t|]; [|intros Hm; split; [by left|by apply Hcrawl]].
  destruct t as [|c t]; cbn [nonempty].
  - intros Hm. split; [by right|by apply Hcrawl].
  - destruct (run_test_mode _ _ _ _ _ _); done.
Qed.

End MainFacts.

Example gather_example_linked :
  @gather_pages_from_sitemaps linked_lib sitemap_net 20000 elements
    ["example.com"]
  = Some {[ "https://example.com/about" ]}.
Proof.
  unfold gather_pages_from_sitemaps.
  assert (Hd : @discover_all linked_lib sitemap_net (∅, []) ["example.com"]
               = Some ({[ "https://example.com/sitemap.xml" ]},
                       ["https://example.com/robots.txt"]))
    by (vm_compute; reflexivity).
  rewrite Hd. cbn [mbind option_bind fst snd].
  assert (He : elements ({[ "https://example.com/sitemap.xml" ]} : gset string)
               = ["https://example.com/sitemap.xml"])
    by (vm_compute; reflexivity).
  rewrite He.
  rewrite (traverse_round _ _ _ _ _
             (MkTraversal ["https://example.com/news-sitemap.xml"]
                          {[ "https://example.com/sitemap.xml" ]} 1
                          {[ "https://example.com/about" ]}
                          ["https://example.com/sitemap.xml"]
                          ["https://example.com/sitemap.xml"]))
    by (split; vm_compute; reflexivity).
  rewrite (traverse_round _ _ _ _ _
             (MkTraversal []
                          {[ "https://example.com/news-sitemap.xml";
                             "https://example.com/sitemap.xml" ]} 2
                          {[ "https://example.com/about" ]}
                          ["https://example.com/news-sitemap.xml";
                           "https://example.com/sitemap.xml"]
                          ["https://example.com/sitemap.xml"]))
    by (split; vm_compute; reflexivity).
  rewrite traverse_done by (vm_compute; reflexivity).
  reflexivity.
Qed.

(** The crawl of example.com for one input: the sitemap lists the page
    /about, whose link mentions a variant of the input. *)
Example main_example :
  match @main linked_lib true None false 20000 ["example.com"] elements
          (fun _ => Robots.ReadHTTPError 404) sitemap_net HttpRaised
          demo_completion ("https://www.example.com/a" +:+ String "010" "")
  with
  | Some (MainReport [row]) =>
      queried_url row = "https://www.example.com/a"
      /\ found row = true /\ match_count row = 1
      /\ take 2%nat (match_page_cells row) = ["https://example.com/about"; ""]
  | _ => False
  end.
Proof.
  unfold main.
  assert (Hl : @load_inputs
                 ("https://www.example.com/a" +:+ String "010" "")
               = ["https://www.example.com/a"]) by (vm_compute; reflexivity).
  rewrite Hl. unfold main_crawl.
  assert (Ha : @all_patterns linked_lib ["https://www.example.com/a"]
               = Some {[ "https://www.example.com/a"; "www.example.com/a";
                         "https://example.com/a"; "example.com/a" ]})
    by (vm_compute; reflexivity).
  rewrite Ha. cbn [mbind option_bind].
  assert (Hi : @init linked_lib (fun _ => Robots.ReadHTTPError 404)
                 (SiteScanner_new true ["example.com"]
                    {[ "https://www.example.com/a"; "www.example.com/a";
                       "https://example.com/a"; "example.com/a" ]})
               = Some (MkScanner ["example.com"]
                         {[ "https://www.example.com/a"; "www.example.com/a";
                            "https://example.com/a"; "example.com/a" ]}
                         (Matcher_init true
                            {[ "https://www.example.com/a";
                               "www.example.com/a";
                               "https://example.com/a"; "example.com/a" ]})
                         (gset_to_gmap ∅
                            {[ "https://www.example.com/a";
                               "www.example.com/a";
                               "https://example.com/a"; "example.com/a" ]})
                         {[ "example.com" :=
                              Robots.MkParser [] None false true 0 ]}))
    by (vm_compute; reflexivity).
  rewrite Hi. cbn [mbind option_bind].
  rewrite gather_example_linked. cbn [mbind option_bind].
  vm_compute. repeat split; reflexivity.
Qed.

Lemma crawl_report_is_sound_witness :
  match @main linked_lib true None false 20000 ["example.com"] elements
          (fun _ => Robots.ReadHTTPError 404) sitemap_net HttpRaised
          demo_completion ("https://www.example.com/a" +:+ String "010" "")
  with
  | Some (MainReport rows) =>
      (@None string = None \/ @None string = Some "")
      /\ exists all sc0 pages,
           @all_patterns linked_lib
             (load_inputs ("https://www.example.com/a" +:+ String "010" ""))
           = Some all
           /\ @init linked_lib (fun _ => Robots.ReadHTTPError 404)
                (SiteScanner_new true ["example.com"] all) = Some sc0
           /\ @gather_pages_from_sitemaps linked_lib sitemap_net 20000
                elements ["example.com"] = Some pages
           /\ length rows
              = length (load_inputs
                          ("https://www.example.com/a" +:+ String "010" ""))
           /\ Forall2 (fun u row =>
                         queried_url row = u
                         /\ forall p, p ∈ match_page_cells row -> p <> "" ->
                              @reported_page linked_lib (negb false)
                                demo_completion pages sc0 u p)
                      (load_inputs
                         ("https://www.example.com/a" +:+ String "010" ""))
                      rows
  | _ => False
  end.
Proof.
  pose proof main_example as Hex.
  destruct (@main linked_lib true None false 20000 ["example.com"] elements
              (fun _ => Robots.ReadHTTPError 404) sitemap_net HttpRaised
              demo_completion
              ("https://www.example.com/a" +:+ String "010" ""))
    as [[o|rows]|] eqn:Hm; [destruct Hex| |destruct Hex].
  apply (@crawl_report_is_sound linked_lib true None false 20000
           ["example.com"] elements (fun _ => Robots.ReadHTTPError 404)
           sitemap_net HttpRaised demo_completion _ rows).
  - intros s. reflexivity.
  - intros tasks. unfold demo_completion.
    rewrite <- list_fmap_compose. by rewrite list_fmap_id.
  - exact Hm.
Defined.
